(** * A shallow embedding of [rennet/utils/label_utils.py]

    Python numbers are modelled by [pynum]: an [int] is a [Z], a [float] is an
    exact rational ([Qc], canonical so that equal values are equal terms).
    Rounding of floating-point arithmetic is not modelled; the int/float tag
    and the promotion rules of Python and numpy are. *)

From Stdlib Require Import List Bool ZArith QArith Qcanon Qround Lia Lqa.
From Stdlib Require Import Sorting.Sorted Sorting.Permutation.
Import ListNotations.

Open Scope Z_scope.

(** ** Python numbers *)

Inductive pynum : Type :=
| PInt (z : Z)
| PFloat (q : Qc).

(** The numeric value of a Python number. *)
Definition pyq (x : pynum) : Q :=
  match x with
  | PInt z => inject_Z z
  | PFloat q => this q
  end.

Definition is_int (x : pynum) : bool :=
  match x with PInt _ => true | PFloat _ => false end.

Definition mkfloat (q : Q) : pynum := PFloat (Q2Qc q).

Definition to_float (x : pynum) : pynum := mkfloat (pyq x).

(** Comparisons compare values, across int and float. *)
Definition py_le (x y : pynum) : bool := Qle_bool (pyq x) (pyq y).
Definition py_lt (x y : pynum) : bool := negb (Qle_bool (pyq y) (pyq x)).
Definition py_eq (x y : pynum) : bool := Qeq_bool (pyq x) (pyq y).

(** [int op int] stays [int]; anything involving a [float] is a [float]. *)
Definition py_mul (x y : pynum) : pynum :=
  match x, y with
  | PInt a, PInt b => PInt (a * b)
  | _, _ => mkfloat (pyq x * pyq y)
  end.

Definition py_sub (x y : pynum) : pynum :=
  match x, y with
  | PInt a, PInt b => PInt (a - b)
  | _, _ => mkfloat (pyq x - pyq y)
  end.

(** [/] is true division: always a [float]. *)
Definition py_truediv (x y : pynum) : pynum := mkfloat (pyq x / pyq y).

(** [//] and [%] round towards minus infinity (only used with [y > 0]). *)
Definition py_floordiv (x y : pynum) : pynum :=
  match x, y with
  | PInt a, PInt b => PInt (a / b)
  | _, _ => mkfloat (inject_Z (Qfloor (pyq x / pyq y)))
  end.

Definition py_mod (x y : pynum) : pynum :=
  match x, y with
  | PInt a, PInt b => PInt (a mod b)
  | _, _ => mkfloat (pyq x - inject_Z (Qfloor (pyq x / pyq y)) * pyq y)
  end.

(** ** Exceptions raised by the module *)

Inductive exn : Type :=
| ValueError        (** [samplerate <= 0], [ends - starts <= 0] *)
| AssertionError    (** length mismatch, shape, contiguity *)
| KeyError          (** out-of-range query under [default_label='raise'] *)
| TypeError         (** numpy's refusal to cast in an in-place operation *)
| IndexError.       (** indexing past the end of an array *)

Definition result (A : Type) : Type := exn + A.

(** ** [_convert_samplerate]

    The value is an [ndarray] or a scalar: [Scalable] is the interface the
    function uses of it, multiplication by a Python number. *)

Class Scalable (V : Type) := vmul : V -> pynum -> V.

#[export] Instance Scalable_pynum : Scalable pynum := py_mul.

Definition _convert_samplerate {V} `{Scalable V}
    (value : V) (from_samplerate to_samplerate : pynum) : result V :=
  if py_le to_samplerate (PInt 0) || py_le from_samplerate (PInt 0)
  then inl ValueError
  else if py_eq to_samplerate from_samplerate then inr value
  else if py_lt from_samplerate to_samplerate
          && py_eq (py_mod to_samplerate from_samplerate) (PInt 0)
  then inr (vmul value (py_floordiv to_samplerate from_samplerate))
  else inr (vmul value (py_truediv to_samplerate from_samplerate)).

(** A positive integer multiple, as the claim on rate conversion words it. *)
Definition exact_multiple (r1 r2 : pynum) : Prop :=
  exists k : positive, (pyq r2 == inject_Z (Z.pos k) * pyq r1)%Q.

(** ** numpy arrays

    A 2-column [ndarray] of boundaries is a list of pairs, a 1-d array a
    list.  numpy arrays are homogeneous: [np.array] of Python numbers is an
    int array unless one element is a float, and then all are floats. *)

Definition se_array : Type := list (pynum * pynum).

Definition all_int (a : list pynum) : bool := forallb is_int a.

Definition se_flat (se : se_array) : list pynum :=
  flat_map (fun '(s, e) => [s; e]) se.

(** [np.array(list_of_numbers)] *)
Definition np_array1 (a : list pynum) : list pynum :=
  if all_int a then a else map to_float a.

(** [np.array(list_of_pairs)] *)
Definition np_array2 (se : se_array) : se_array :=
  if all_int (se_flat se) then se
  else map (fun '(s, e) => (to_float s, to_float e)) se.

#[export] Instance Scalable_se : Scalable se_array :=
  fun se k => map (fun '(s, e) => (py_mul s k, py_mul e k)) se.

(** [se[:, 0]] and [se[-1, -1]] *)
Definition starts_of (se : se_array) : list pynum := map fst se.
Definition ends_of (se : se_array) : list pynum := map snd se.

(** [labels[idx]]: fancy indexing, [IndexError] past the end. *)
Fixpoint np_take {A} (a : list A) (idx : list nat) : result (list A) :=
  match idx with
  | [] => inr []
  | i :: idx' =>
      match nth_error a i, np_take a idx' with
      | Some x, inr xs => inr (x :: xs)
      | None, _ => inl IndexError
      | _, inl e => inl e
      end
  end.

(** A stable insertion sort: [sort (x :: l)] puts [x] before every element
    of [l] that it is not greater than. *)
Section Sort.
Variable A : Type.
Variable leb : A -> A -> bool.

Fixpoint insert (x : A) (l : list A) : list A :=
  match l with
  | [] => [x]
  | y :: l' => if leb x y then x :: y :: l' else y :: insert x l'
  end.

Fixpoint isort (l : list A) : list A :=
  match l with
  | [] => []
  | x :: l' => insert x (isort l')
  end.
End Sort.
Arguments insert {A} leb x l.
Arguments isort {A} leb l.

(** [np.lexsort(np.split(se[..., ::-1].T, 2))]: the last key ([starts]) is
    the primary one, [ends] breaks ties; the sort is stable. *)
Definition seg_le (x y : pynum * pynum) : bool :=
  let '(s1, e1) := x in
  let '(s2, e2) := y in
  py_lt s1 s2 || (py_eq s1 s2 && py_le e1 e2).

Definition lexsort (se : se_array) : list nat :=
  map snd (isort (fun x y => seg_le (fst x) (fst y))
                 (combine se (seq 0 (length se)))).

(** The zero and one of the labels' dtype ([np.zeros(..., dtype=...)],
    [res[...] = 1]). *)
Class NpDtype (L : Type) := {
  np_zero : L;
  np_one : L
}.

(** ** [SequenceLabels] instances

    The record has the class's [__slots__]. *)
Section Labels.
Variable L : Type.

Record SequenceLabels : Type := mkSL {
  _starts_ends : se_array;
  labels : list L;
  _orig_samplerate : pynum;
  _samplerate : pynum;
  _minstart_at_orig_sr : pynum
}.

(** [SequenceLabels.__init__(starts_ends, labels, samplerate)].  The inputs
    are typed lists, so the [Iterable] check cannot fail; a list of pairs
    converts to an [(N, 2)] array unless it is empty ([shape == (0,)]). *)
Definition SequenceLabels__init__ (starts_ends : se_array) (labels0 : list L)
    (samplerate : pynum) : result SequenceLabels :=
  if negb (length starts_ends =? length labels0)%nat then inl AssertionError
  else
  let starts_ends := np_array2 starts_ends in
  match starts_ends with
  | [] => inl AssertionError
  | _ =>
    if py_le samplerate (PInt 0) then inl ValueError
    else if existsb (fun '(s, e) => py_le (py_sub e s) (PInt 0)) starts_ends
    then inl ValueError
    else
      let sort_idx := lexsort starts_ends in
      match np_take starts_ends sort_idx, np_take labels0 sort_idx with
      | inr se, inr ls =>
          match se with
          | [] => inl IndexError
          | (s0, _) :: _ =>
              inr (mkSL se ls samplerate samplerate s0)
          end
      | inl e, _ | _, inl e => inl e
      end
  end.

(** ** Methods: a state and exception monad over the instance

    A Python exception leaves the instance as it was when it was raised. *)
Definition M (A : Type) : Type := SequenceLabels -> SequenceLabels * result A.

Definition ret {A} (x : A) : M A := fun s => (s, inr x).
Definition raise {A} (e : exn) : M A := fun s => (s, inl e).
Definition bind {A B} (m : M A) (k : A -> M B) : M B :=
  fun s => match m s with
           | (s', inr x) => k x s'
           | (s', inl e) => (s', inl e)
           end.
Definition gets {A} (f : SequenceLabels -> A) : M A := fun s => (s, inr (f s)).
Definition modify (f : SequenceLabels -> SequenceLabels) : M unit :=
  fun s => (f s, inr tt).
Definition lift {A} (r : result A) : M A := fun s => (s, r).

(** [try: body finally: fin]: [fin] runs on both paths; an exception of
    [fin] replaces the body's outcome. *)
Definition try_finally {A} (body : M A) (fin : M unit) : M A :=
  fun s => let '(s1, r) := body s in
           let '(s2, r2) := fin s1 in
           (s2, match r2 with inl e => inl e | inr _ => r end).

Notation "x <- m ;; k" := (bind m (fun x => k))
  (at level 61, m at next level, right associativity).
Notation "m ;;; k" := (bind m (fun _ => k))
  (at level 61, right associativity).

Definition set_se (v : se_array) (s : SequenceLabels) : SequenceLabels :=
  mkSL v (labels s) (_orig_samplerate s) (_samplerate s) (_minstart_at_orig_sr s).
Definition set_sr (v : pynum) (s : SequenceLabels) : SequenceLabels :=
  mkSL (_starts_ends s) (labels s) (_orig_samplerate s) v (_minstart_at_orig_sr s).
Definition set_minstart (v : pynum) (s : SequenceLabels) : SequenceLabels :=
  mkSL (_starts_ends s) (labels s) (_orig_samplerate s) (_samplerate s) v.

(** [samplerate] and [orig_samplerate] properties *)
Definition samplerate : M pynum := gets _samplerate.
Definition orig_samplerate : M pynum := gets _orig_samplerate.

(** [min_start] property *)
Definition min_start : M pynum :=
  ms <- gets _minstart_at_orig_sr ;;
  osr <- gets _orig_samplerate ;;
  sr <- gets _samplerate ;;
  lift (_convert_samplerate ms osr sr).

(** [arr -= x] on an ndarray, in place: numpy refuses to cast a float
    result back into an int array. *)
Definition np_isub (se : se_array) (x : pynum) : result se_array :=
  if all_int (se_flat se) && negb (is_int x) then inl TypeError
  else inr (map (fun '(s, e) => (py_sub s x, py_sub e x)) se).

(** [starts_ends] property.  The local [starts_ends] is the stored array
    itself, so [starts_ends -= ...] updates [self._starts_ends]. *)
Definition starts_ends : M se_array :=
  se <- gets _starts_ends ;;
  ms <- gets _minstart_at_orig_sr ;;
  match se with
  | [] => raise IndexError
  | (s0, _) :: _ =>
      se <- (if negb (py_eq ms s0) then
               se' <- lift (np_isub se (py_sub s0 ms)) ;;
               modify (set_se se') ;;;
               ret se'
             else ret se) ;;
      osr <- gets _orig_samplerate ;;
      sr <- gets _samplerate ;;
      lift (_convert_samplerate se osr sr)
  end.

(** [max_end] property: [self.starts_ends[-1, -1]] *)
Definition max_end : M pynum :=
  se <- starts_ends ;;
  match rev se with
  | [] => raise IndexError
  | (_, e) :: _ => ret e
  end.

(** [samplerate_as(new_samplerate)] around a [with] body. *)
Definition samplerate_as {A} (new_samplerate : option pynum) (body : M A) : M A :=
  old_sr <- gets _samplerate ;;
  let new_sr := match new_samplerate with None => old_sr | Some r => r end in
  if py_le new_sr (PInt 0) then raise ValueError
  else
    modify (set_sr new_sr) ;;;
    try_finally body (modify (set_sr old_sr)).

(** [min_start_as(new_start, samplerate)] around a [with] body. *)
Definition min_start_as {A} (new_start : pynum) (samplerate : option pynum)
    (body : M A) : M A :=
  old_start <- gets _minstart_at_orig_sr ;;
  samplerate_as samplerate (
    sr <- gets _samplerate ;;
    osr <- gets _orig_samplerate ;;
    ms <- lift (_convert_samplerate new_start sr osr) ;;
    modify (set_minstart ms) ;;;
    try_finally body (modify (set_minstart old_start))).

(** ** [_flattened_indices] *)

(** [np.unique(a, return_inverse=True)]: the sorted distinct values, and for
    each element its position in them. *)
Definition dedup_sorted {A} (eqb : A -> A -> bool) : list A -> list A :=
  fix go l :=
    match l with
    | x :: ((y :: _) as l') => if eqb x y then go l' else x :: go l'
    | l' => l'
    end.

Definition np_unique {A} (leb eqb : A -> A -> bool) (a : list A) : list A :=
  dedup_sorted eqb (isort leb a).

Fixpoint index_of {A} (eqb : A -> A -> bool) (u : list A) (x : A) : nat :=
  match u with
  | [] => 0
  | y :: u' => if eqb y x then 0 else S (index_of eqb u' x)
  end.

(** [labels_indices[i] += (j, )] *)
Fixpoint append_at (li : list (list nat)) (i j : nat) : result (list (list nat)) :=
  match li, i with
  | [], _ => inl IndexError
  | t :: li', O => inr ((t ++ [j]) :: li')
  | t :: li', S i' =>
      match append_at li' i' j with
      | inr r => inr (t :: r)
      | inl e => inl e
      end
  end.

(** [for i in range(s, e): labels_indices[i] += (j, )] *)
Fixpoint tag_range (li : list (list nat)) (j : nat) (is : list nat)
    : result (list (list nat)) :=
  match is with
  | [] => inr li
  | i :: is' =>
      match append_at li i j with
      | inr li' => tag_range li' j is'
      | inl e => inl e
      end
  end.

(** [for j, (s, e) in enumerate(sorting_indices): ...] *)
Fixpoint tag_loop (li : list (list nat)) (j : nat) (pairs : list (nat * nat))
    : result (list (list nat)) :=
  match pairs with
  | [] => inr li
  | (s, e) :: ps =>
      match tag_range li j (seq s (e - s)) with
      | inr li' => tag_loop li' (S j) ps
      | inl e => inl e
      end
  end.

(** [se[1:, 0] != se[:-1, 1]] somewhere *)
Definition not_flat (se : se_array) : bool :=
  existsb (fun '(s, e) => negb (py_eq s e))
          (combine (tl (starts_of se)) (removelast (ends_of se))).

(** [a.reshape(-1, 2)] *)
Fixpoint reshape2 {A} (a : list A) : list (A * A) :=
  match a with
  | x :: y :: a' => (x, y) :: reshape2 a'
  | _ => []
  end.

(** The first output: breakpoints for [return_bins=True], pairs otherwise. *)
Definition flat_out (return_bins : bool) : Type :=
  if return_bins then list pynum else se_array.

Definition _flattened_indices (return_bins : bool)
    : M (flat_out return_bins * list (list nat)) :=
  se <- starts_ends ;;
  if not_flat se then
    let bins := np_unique py_le py_eq (se_flat se) in
    let sorting_indices := reshape2 (map (index_of py_eq bins) (se_flat se)) in
    labels_indices <-
      lift (tag_loop (repeat [] (length bins - 1)) 0 sorting_indices) ;;
    match return_bins as b return M (flat_out b * list (list nat)) with
    | true => ret (bins, labels_indices)
    | false => ret (combine (removelast bins) (tl bins), labels_indices)
    end
  else
    let labels_indices := map (fun i => [i]) (seq 0 (length se)) in
    match return_bins as b return M (flat_out b * list (list nat)) with
    | true =>
        match rev se with
        | [] => raise IndexError
        | (_, e_last) :: _ => ret (starts_of se ++ [e_last], labels_indices)
        end
    | false => ret (se, labels_indices)
    end.

(** ** [labels_at] *)

(** [np.rint]: round half to even. *)
Definition rint (q : Q) : Z :=
  let f := Qfloor q in
  match Qcompare (q - inject_Z f) (1 # 2) with
  | Lt => f
  | Gt => f + 1
  | Eq => if Z.even f then f else f + 1
  end.

(** [np.round(x, decimals)]: ints are left as they are. *)
Definition np_round (decimals : nat) (x : pynum) : pynum :=
  match x with
  | PInt z => PInt z
  | PFloat q =>
      let p := inject_Z (10 ^ Z.of_nat decimals) in
      mkfloat (inject_Z (rint (this q * p)) / p)
  end.

(** [np.searchsorted(a, v, side='left')]: the first index [i] with
    [a[i] >= v] ([len(a)] if none); on a sorted [a] this is the index the
    binary search returns. *)
Fixpoint searchsorted_left (a : list pynum) (v : pynum) : nat :=
  match a with
  | [] => 0
  | x :: a' => if py_lt x v then S (searchsorted_left a' v) else 0
  end.

(** A query: Python passes an iterable or a lone number. *)
Inductive query : Type :=
| QScalar (t : pynum)
| QIterable (ts : list pynum).

(** [if not isinstance(ends, Iterable): ends = [ends]]; [np.array(ends)] *)
Definition ends_array (ends : query) : list pynum :=
  np_array1 (match ends with QScalar t => [t] | QIterable ts => ts end).

Fixpoint mapM {A B} (f : A -> result B) (l : list A) : result (list B) :=
  match l with
  | [] => inr []
  | x :: l' =>
      match f x, mapM f l' with
      | inr y, inr ys => inr (y :: ys)
      | inl e, _ | _, inl e => inl e
      end
  end.

(** The labels of one searched bin index: [default_label] outside the bins
    or for a bin no segment is tagged to, the tuple of the tagged segments'
    labels otherwise ([(labels[l[0]], )] and [tuple(labels[l])] coincide). *)
Definition bin_labels {D} (labs : list L) (labels_idx : list (list nat))
    (nbins : nat) (default_label : D) (idx : nat) : result (D + list L) :=
  if negb (idx =? 0)%nat && negb (idx =? nbins)%nat then
    match nth_error labels_idx (idx - 1) with
    | None => inl IndexError
    | Some [] => inr (inl default_label)
    | Some l =>
        match np_take labs l with
        | inr ls => inr (inr ls)
        | inl e => inl e
        end
    end
  else inr (inl default_label).

(** [ends.dtype != np.int or bins.dtype != np.int] then round both *)
Definition maybe_round (rounded : nat) (bins ends : list pynum)
    : list pynum * list pynum :=
  if negb (all_int ends && all_int bins)
  then (map (np_round rounded) bins, map (np_round rounded) ends)
  else (bins, ends).

(** [SequenceLabels.labels_at(ends, samplerate, default_label, rounded)].
    An element of the result is [inl default_label] or [inr] a tuple. *)
Definition labels_at {D} (ends : query) (samplerate : option pynum)
    (default_label : D) (rounded : nat) : M (list (D + list L)) :=
  let ends := ends_array ends in
  bl <- samplerate_as samplerate (_flattened_indices true) ;;
  let '(bins, labels_idx) := bl in
  let '(bins, ends) := maybe_round rounded bins ends in
  let bin_idx := map (searchsorted_left bins) ends in
  let unique_bin_idx := np_unique Nat.leb Nat.eqb bin_idx in
  let bin_idx := map (index_of Nat.eqb unique_bin_idx) bin_idx in
  labs <- gets labels ;;
  unique_res_labels <-
    lift (mapM (bin_labels labs labels_idx (length bins) default_label)
               unique_bin_idx) ;;
  lift (np_take unique_res_labels bin_idx).


(** ** [ContiguousSequenceLabels] *)

Context `{NpDtype L}.

(** [ContiguousSequenceLabels.__init__]: the parent's [__init__], then every
    end must be the start of the next segment. *)
Definition ContiguousSequenceLabels__init__ (starts_ends0 : se_array)
    (labels0 : list L) (samplerate0 : pynum) : result SequenceLabels :=
  match SequenceLabels__init__ starts_ends0 labels0 samplerate0 with
  | inl e => inl e
  | inr s =>
      match starts_ends s with
      | (_, inl e) => inl e
      | (s', inr se) => if not_flat se then inl AssertionError else inr s'
      end
  end.

(** The [default_label] argument: ['raise'], ['zeros'], ['ones'], a value
    whose type is the labels' dtype, or any other object. *)
Inductive default_policy (D : Type) : Type :=
| DRaise
| DZeros
| DOnes
| DLabel (l : L)
| DOther (d : D).
Arguments DRaise {D}. Arguments DZeros {D}. Arguments DOnes {D}.
Arguments DLabel {D} l. Arguments DOther {D} d.

(** A numpy array of labels, or (fallback) a Python list mixing labels and
    the default object. *)
Inductive c_result (D : Type) : Type :=
| CArray (a : list L)
| CList (l : list (L + D)).
Arguments CArray {D} a. Arguments CList {D} l.

Definition take1 (labs : list L) (i : nat) : result L :=
  match nth_error labs i with Some x => inr x | None => inl IndexError end.

(** [ContiguousSequenceLabels.labels_at(ends, samplerate, default_label,
    rounded)] *)
Definition c_labels_at {D} (ends : query) (samplerate0 : option pynum)
    (default_label : default_policy D) (rounded : nat) : M (c_result D) :=
  let ends := ends_array ends in
  bins <- samplerate_as samplerate0 (
            se <- starts_ends ;;
            match rev se with
            | [] => raise IndexError
            | (_, e_last) :: _ => ret (starts_of se ++ [e_last])
            end) ;;
  let '(bins, ends) := maybe_round rounded bins ends in
  let bin_idx := map (searchsorted_left bins) ends in
  let bin_idx_outside :=
    map (fun i => (i =? 0)%nat || (i =? length bins)%nat) bin_idx in
  let bin_idx := map (fun i => i - 1)%nat bin_idx in
  labs <- gets labels ;;
  if existsb (fun o => o) bin_idx_outside then
    match default_label with
    | DRaise => samplerate_as samplerate0 (raise KeyError)
    | _ =>
      let oi := combine bin_idx_outside bin_idx in
      res <- lift (mapM (fun '((o, i) : bool * nat) => if o then inr np_zero else take1 labs i)
                          oi : result (list L)) ;;
      let fill (v : L) := map (fun '((o, r) : bool * L) => if o then v else r)
                              (combine bin_idx_outside res) in
      match default_label with
      | DZeros => ret (CArray res)
      | DOnes => ret (CArray (fill np_one))
      | DLabel l => ret (CArray (fill l))
      | DOther d =>
          ret (CList (map (fun '((o, r) : bool * L) => if o then inr d else inl r)
                            (combine bin_idx_outside res)))
      | DRaise => raise KeyError
      end
    end
  else
    res <- lift (np_take labs bin_idx) ;;
    ret (CArray res).

End Labels.

Arguments mkSL {L}. Arguments _starts_ends {L}. Arguments labels {L}.
Arguments _orig_samplerate {L}. Arguments _samplerate {L}.
Arguments _minstart_at_orig_sr {L}.
Arguments SequenceLabels__init__ {L}. Arguments ret {L A}. Arguments raise {L A}.
Arguments bind {L A B}. Arguments gets {L A}. Arguments modify {L}.
Arguments lift {L A}. Arguments try_finally {L A}.
Arguments set_se {L}. Arguments set_sr {L}. Arguments set_minstart {L}.
Arguments samplerate {L}. Arguments orig_samplerate {L}. Arguments min_start {L}.
Arguments starts_ends {L}. Arguments max_end {L}.
Arguments samplerate_as {L A}. Arguments min_start_as {L A}.
Arguments _flattened_indices {L}. Arguments bin_labels {L D}.
Arguments labels_at {L D}. Arguments take1 {L}.
Arguments ContiguousSequenceLabels__init__ {L}.
Arguments c_labels_at {L _ D}.
Arguments DRaise {L D}. Arguments DZeros {L D}. Arguments DOnes {L D}.
Arguments DLabel {L D} l. Arguments DOther {L D} d.
Arguments CArray {L D} a. Arguments CList {L D} l.

(** The labels of the examples are numpy ints. *)
#[export] Instance NpDtype_Z : NpDtype Z := { np_zero := 0%Z; np_one := 1%Z }.

(** ** [__len__], [__iter__] and [__getitem__] *)

Definition SequenceLabels__len__ {L} (s : SequenceLabels L) : nat := length (labels s).

(** [zip(self.starts_ends, self.labels)] *)
Definition SequenceLabels__iter__ {L} : M L (list ((pynum * pynum) * L)) :=
  bind starts_ends (fun se =>
  bind (gets labels) (fun labs =>
  ret (combine se labs))).

(** A numpy index on the first axis: an int, or a slice [start:stop:step]. *)
Inductive index : Type :=
| IInt (i : Z)
| ISlice (start stop step : option Z).

(** The indices [range] runs over after [slice(start, stop, step).indices(n)]:
    CPython's rules, which numpy's basic slicing follows. *)
Definition slice_indices (n : Z) (start stop step : option Z) : result (list Z) :=
  let step := match step with None => 1 | Some k => k end in
  if step =? 0 then inl ValueError
  else
    let lower := if step <? 0 then -1 else 0 in
    let upper := if step <? 0 then n - 1 else n in
    let clamp (v : Z) := if v <? 0 then Z.max (v + n) lower else Z.min v upper in
    let start := match start with
                 | None => if step <? 0 then upper else lower
                 | Some v => clamp v
                 end in
    let stop := match stop with
                | None => if step <? 0 then lower else upper
                | Some v => clamp v
                end in
    let len := if step <? 0
               then (if stop <? start then (start - stop - 1) / (- step) + 1 else 0)
               else (if start <? stop then (stop - start - 1) / step + 1 else 0) in
    inr (map (fun k => start + Z.of_nat k * step) (seq 0 (Z.to_nat len))).

(** What [a[idx, ...]] selects: one row for an int (that axis is dropped),
    the list of rows for a slice. *)
Inductive selection (A : Type) : Type :=
| Row (x : A)
| Rows (xs : list A).
Arguments Row {A} x. Arguments Rows {A} xs.

Definition np_getitem {A} (a : list A) (idx : index) : result (selection A) :=
  match idx with
  | IInt i =>
      let n := Z.of_nat (length a) in
      let i := if i <? 0 then i + n else i in
      if (i <? 0) || (n <=? i) then inl IndexError
      else match nth_error a (Z.to_nat i) with
           | Some x => inr (Row x)
           | None => inl IndexError
           end
  | ISlice start stop step =>
      match slice_indices (Z.of_nat (length a)) start stop step with
      | inl e => inl e
      | inr is =>
          match np_take a (map Z.to_nat is) with
          | inl e => inl e
          | inr xs => inr (Rows xs)
          end
      end
  end.

(** The first part of [SequenceLabels.__getitem__]: [se] and [l] from the
    stored arrays, given back a leading axis ([se[None, ...]],
    [l[None, ...]]) when one segment was selected. *)
Definition getitem_parts {L} (s : SequenceLabels L) (idx : index)
    : result (se_array * list L) :=
  match np_getitem (_starts_ends s) idx with
  | inl e => inl e
  | inr se =>
      match np_getitem (labels s) idx with
      | inl e => inl e
      | inr l =>
          let l := match l with Row x => [x] | Rows xs => xs end in
          match se with
          | Row p => inr ([p], l)
          | Rows ps => inr (ps, l)
          end
      end
  end.

(** [SequenceLabels(se, l, samplerate)] called on an ndarray [se] of shape
    [(k, 2)], as [__getitem__] does.  A non-empty array holds numbers of one
    dtype, which [np.array] in [__init__] leaves as they are; an empty one
    keeps the shape [(0, 2)], passes the checks, and then
    [self._starts_ends[0, 0]] raises [IndexError]. *)
Definition SequenceLabels__init__nd {L} (se : se_array) (l : list L) (samplerate : pynum)
    : result (SequenceLabels L) :=
  match se with
  | [] =>
      if negb (length l =? 0)%nat then inl AssertionError
      else if py_le samplerate (PInt 0) then inl ValueError
      else inl IndexError
  | _ => SequenceLabels__init__ se l samplerate
  end.

(** [SequenceLabels.__getitem__] on a [SequenceLabels]: a new instance built
    at the original rate. *)
Definition SequenceLabels__getitem__ {L} (s : SequenceLabels L) (idx : index)
    : result (SequenceLabels L) :=
  match getitem_parts s idx with
  | inl e => inl e
  | inr (se, l) => SequenceLabels__init__nd se l (_orig_samplerate s)
  end.

(** [ContiguousSequenceLabels(se, l, samplerate)] on an ndarray [se]. *)
Definition ContiguousSequenceLabels__init__nd {L} (se : se_array) (l : list L)
    (samplerate0 : pynum) : result (SequenceLabels L) :=
  match SequenceLabels__init__nd se l samplerate0 with
  | inl e => inl e
  | inr s =>
      match starts_ends s with
      | (_, inl e) => inl e
      | (s', inr se') => if not_flat se' then inl AssertionError else inr s'
      end
  end.

(** [ContiguousSequenceLabels.__getitem__]: the parent returns the triple
    [(se, l, orig_samplerate)] for a subclass, and it is passed to the
    class. *)
Definition ContiguousSequenceLabels__getitem__ {L} (s : SequenceLabels L) (idx : index)
    : result (SequenceLabels L) :=
  match getitem_parts s idx with
  | inl e => inl e
  | inr (se, l) => ContiguousSequenceLabels__init__nd se l (_orig_samplerate s)
  end.

(** ** [samples_for_labelsat] and [times_for_labelsat]

    The arguments of [samples_for_labelsat] are Python ints ([//] rounds
    towards minus infinity, like [Z.div]); [np.arange(nframes)] is empty for
    [nframes <= 0]. *)
Inductive arith_error : Type := ZeroDivisionError.

Definition samples_for_labelsat (nsamples hop_len win_len : Z) : arith_error + list Z :=
  if hop_len =? 0 then inl ZeroDivisionError
  else
    let nframes := 1 + (nsamples - win_len) / hop_len in
    let frames_idx := map Z.of_nat (seq 0 (Z.to_nat nframes)) in
    inr (map (fun f => f * hop_len + win_len / 2) frames_idx).

(** [int(x)]: truncation towards zero. *)
Definition py_int (x : pynum) : Z :=
  match x with
  | PInt z => z
  | PFloat q => if Qle_bool 0 (this q) then Qfloor (this q) else Qceiling (this q)
  end.

(** [samples_for_labelsat(...) / samplerate] divides an int array: floats. *)
Definition times_for_labelsat (total_duration_sec samplerate0 hop_sec win_sec : pynum)
    : arith_error + list pynum :=
  let hop_len := py_int (py_mul hop_sec samplerate0) in
  let win_len := py_int (py_mul win_sec samplerate0) in
  let nsamples := py_int (py_mul total_duration_sec samplerate0) in
  match samples_for_labelsat nsamples hop_len win_len with
  | inl e => inl e
  | inr out => inr (map (fun k => py_truediv (PInt k) samplerate0) out)
  end.

(** An ndarray of Python numbers is homogeneous: all ints or all floats. *)
Definition homog (se : se_array) : Prop :=
  Forall (fun p => is_int (fst p) = true /\ is_int (snd p) = true) se \/
  Forall (fun p => is_int (fst p) = false /\ is_int (snd p) = false) se.

(** The order [lexsort] sorts by: start first, then end. *)
Definition seg_leq (x y : pynum * pynum) : Prop :=
  (pyq (fst x) < pyq (fst y) \/ (pyq (fst x) == pyq (fst y) /\ pyq (snd x) <= pyq (snd y)))%Q.

(** * Proofs *)

(** ** Arithmetic facts about the Python number model *)

Lemma pyq_mkfloat (q : Q) : (pyq (mkfloat q) == q)%Q.
Proof. unfold mkfloat; simpl. apply Qred_correct. Qed.

Lemma py_le_spec (x y : pynum) : py_le x y = true <-> (pyq x <= pyq y)%Q.
Proof. unfold py_le. apply Qle_bool_iff. Qed.

Lemma py_lt_spec (x y : pynum) : py_lt x y = true <-> (pyq x < pyq y)%Q.
Proof.
  unfold py_lt. rewrite negb_true_iff. split; intro H.
  - apply Qnot_le_lt. intro H'. apply Qle_bool_iff in H'. congruence.
  - destruct (Qle_bool (pyq y) (pyq x)) eqn:E; [|reflexivity].
    apply Qle_bool_iff in E. exfalso. apply (Qlt_not_le _ _ H E).
Qed.

Lemma py_eq_spec (x y : pynum) : py_eq x y = true <-> (pyq x == pyq y)%Q.
Proof. unfold py_eq. apply Qeq_bool_iff. Qed.

Lemma pyq_floordiv (x y : pynum) :
  (pyq (py_floordiv x y) == inject_Z (Qfloor (pyq x / pyq y)))%Q.
Proof.
  destruct x as [a|a], y as [b|b]; simpl py_floordiv;
    try (rewrite pyq_mkfloat; reflexivity).
  simpl. rewrite Zdiv_Qdiv. reflexivity.
Qed.

Lemma pyq_mod (x y : pynum) :
  ~ (pyq y == 0)%Q ->
  (pyq (py_mod x y) == pyq x - inject_Z (Qfloor (pyq x / pyq y)) * pyq y)%Q.
Proof.
  intro Hy.
  destruct x as [a|a], y as [b|b]; simpl py_mod;
    try (rewrite pyq_mkfloat; reflexivity).
  simpl pyq in *. rewrite <- Zdiv_Qdiv.
  assert (b <> 0) by (intro; subst; apply Hy; reflexivity).
  rewrite (Z.mod_eq a b) by assumption.
  unfold Z.sub. rewrite inject_Z_plus, inject_Z_opp, inject_Z_mult. ring.
Qed.

(** [to % from == 0] with [from < to] holds exactly when [to] is a positive
    integer multiple of [from] (other than [from] itself). *)
Lemma exact_multiple_iff (r1 r2 : pynum) :
  (0 < pyq r1)%Q -> (0 < pyq r2)%Q -> ~ (pyq r1 == pyq r2)%Q ->
  (py_lt r1 r2 && py_eq (py_mod r2 r1) (PInt 0)) = true <->
  exists k : positive, (pyq r2 == inject_Z (Z.pos k) * pyq r1)%Q.
Proof.
  intros H1 H2 Hne.
  assert (Hn0 : ~ (pyq r1 == 0)%Q) by (intro E; rewrite E in H1; discriminate).
  rewrite andb_true_iff, py_lt_spec, py_eq_spec, pyq_mod by exact Hn0.
  simpl pyq. split.
  - intros [Hlt Hm].
    set (f := Qfloor (pyq r2 / pyq r1)) in *.
    assert (Hr2 : (pyq r2 == inject_Z f * pyq r1)%Q).
    { simpl in Hm. rewrite <- (Qplus_0_l (inject_Z f * pyq r1)), <- Hm. ring. }
    assert (Hf : (0 < f)%Z).
    { destruct (Z.lt_ge_cases 0 f) as [G|G]; [exact G|].
      exfalso. rewrite Zle_Qle in G.
      assert (E := Qmult_le_compat_r _ _ _ G (Qlt_le_weak _ _ H1)).
      rewrite Qmult_0_l in E. lra. }
    exists (Z.to_pos f). rewrite Z2Pos.id by exact Hf. exact Hr2.
  - intros [k Hk].
    assert (Hq : (pyq r2 / pyq r1 == inject_Z (Z.pos k))%Q).
    { rewrite Hk. field. exact Hn0. }
    rewrite Hq, Qfloor_Z. split; [|rewrite Hk; simpl; ring].
    assert (Hk1 : (Z.pos k <> 1)%Z).
    { intro E. apply Hne. rewrite Hk, E. simpl. ring. }
    assert (Hk2 : (inject_Z 1 < inject_Z (Z.pos k))%Q)
      by (rewrite <- Zlt_Qlt; lia).
    change (inject_Z 1) with 1%Q in Hk2.
    assert (HP : (0 < (inject_Z (Z.pos k) - 1) * pyq r1)%Q).
    { apply Qmult_lt_0_compat; [lra|exact H1]. }
    rewrite Hk. ring_simplify in HP. lra.
Qed.

Lemma convert_int_exact (x a : Z) (k : positive) :
  (0 < a)%Z ->
  _convert_samplerate (PInt x) (PInt a) (PInt (Z.pos k * a)) =
  inr (PInt (x * Z.pos k)).
Proof.
  intro Ha. unfold _convert_samplerate.
  assert (Hle : forall z, py_le (PInt z) (PInt 0) = (z <=? 0)%Z).
  { intro z. unfold py_le. simpl pyq.
    destruct (Qle_bool (inject_Z z) (inject_Z 0)) eqn:E;
      symmetry; [apply Qle_bool_iff in E | ];
      [rewrite <- Zle_Qle in E; apply Z.leb_le; exact E|].
    apply Z.leb_gt. apply Z.nle_gt. intro G. rewrite Zle_Qle in G.
    apply Qle_bool_iff in G. congruence. }
  rewrite !Hle.
  replace (Z.pos k * a <=? 0)%Z with false by (symmetry; apply Z.leb_gt; lia).
  replace (a <=? 0)%Z with false by (symmetry; apply Z.leb_gt; lia).
  simpl orb. cbv iota.
  destruct (py_eq (PInt (Z.pos k * a)) (PInt a)) eqn:E.
  - apply py_eq_spec in E. unfold pyq in E. apply (proj1 (inject_Z_injective _ _)) in E.
    assert (Z.pos k = 1)%Z by (apply (Z.mul_reg_r _ _ a); lia). rewrite H. f_equal. f_equal. lia.
  - assert (Hm : (py_lt (PInt a) (PInt (Z.pos k * a))
                  && py_eq (py_mod (PInt (Z.pos k * a)) (PInt a)) (PInt 0)) = true).
    { apply exact_multiple_iff.
      - unfold pyq. change 0%Q with (inject_Z 0). rewrite <- Zlt_Qlt. exact Ha.
      - unfold pyq. change 0%Q with (inject_Z 0). rewrite <- Zlt_Qlt. lia.
      - intro Eq. rewrite <- not_true_iff_false, py_eq_spec in E. apply E. symmetry. exact Eq.
      - exists k. unfold pyq. rewrite inject_Z_mult. reflexivity. }
    rewrite Hm. unfold vmul, Scalable_pynum, py_floordiv, py_mul.
    rewrite Z.div_mul by lia. reflexivity.
Qed.

(** Claim C6: [_convert_samplerate] fails with [ValueError] (InvalidRate) when
    a rate is [<= 0]; returns the value unchanged for equal rates; multiplies
    by [to // from] when [to] is an exact positive integer multiple of [from]
    (so an int stays an int when the rates are ints dividing evenly); and
    multiplies by [to / from] otherwise. *)
Theorem convert_samplerate_cases {V} `{Scalable V} (x : V) (r1 r2 : pynum) :
  ((py_le r1 (PInt 0) || py_le r2 (PInt 0)) = true ->
     _convert_samplerate x r1 r2 = inl ValueError) /\
  ((0 < pyq r1)%Q -> (0 < pyq r2)%Q ->
     ((pyq r1 == pyq r2)%Q -> _convert_samplerate x r1 r2 = inr x) /\
     (~ (pyq r1 == pyq r2)%Q -> exact_multiple r1 r2 ->
        _convert_samplerate x r1 r2 = inr (vmul x (py_floordiv r2 r1))) /\
     (~ (pyq r1 == pyq r2)%Q -> ~ exact_multiple r1 r2 ->
        _convert_samplerate x r1 r2 = inr (vmul x (py_truediv r2 r1)))) /\
  (forall (z a : Z) (k : positive), (0 < a)%Z ->
     _convert_samplerate (PInt z) (PInt a) (PInt (Z.pos k * a)) =
     inr (PInt (z * Z.pos k))).
Proof.
  split; [|split; [|exact convert_int_exact]].
  - intro Hle. unfold _convert_samplerate.
    rewrite orb_comm in Hle. rewrite Hle. reflexivity.
  - intros H1 H2.
    assert (Hn : (py_le r2 (PInt 0) || py_le r1 (PInt 0)) = false).
    { apply orb_false_iff. split; apply not_true_iff_false;
        rewrite py_le_spec; change (pyq (PInt 0)) with 0%Q; lra. }
    unfold _convert_samplerate. rewrite Hn.
    split; [|split].
    + intro E. replace (py_eq r2 r1) with true; [reflexivity|].
      symmetry. apply py_eq_spec. lra.
    + intros E Hk.
      replace (py_eq r2 r1) with false
        by (symmetry; apply not_true_iff_false; rewrite py_eq_spec; lra).
      rewrite (proj2 (exact_multiple_iff r1 r2 H1 H2 E) Hk). reflexivity.
    + intros E Hk.
      replace (py_eq r2 r1) with false
        by (symmetry; apply not_true_iff_false; rewrite py_eq_spec; lra).
      destruct (py_lt r1 r2 && py_eq (py_mod r2 r1) (PInt 0)) eqn:Em;
        [|reflexivity].
      exfalso. apply Hk. apply (exact_multiple_iff r1 r2 H1 H2 E). exact Em.
Qed.


(** ** Scoped overrides *)

Section Scopes.
Variable L : Type.

Lemma set_sr_same (s : SequenceLabels L) : set_sr (_samplerate s) s = s.
Proof. destruct s; reflexivity. Qed.

Lemma set_minstart_same (s : SequenceLabels L) :
  set_minstart (_minstart_at_orig_sr s) s = s.
Proof. destruct s; reflexivity. Qed.

(** [samplerate_as] runs the body with the new rate and puts the old one
    back, whatever the body did. *)
Lemma samplerate_as_eq {A} (new : option pynum) (body : M L A) s :
  samplerate_as new body s =
  let new_sr := match new with None => _samplerate s | Some r => r end in
  if py_le new_sr (PInt 0) then (s, inl ValueError)
  else let '(s1, r) := body (set_sr new_sr s) in
       (set_sr (_samplerate s) s1, r).
Proof.
  unfold samplerate_as, bind, gets, modify, try_finally, raise. simpl.
  destruct (py_le _ _); [reflexivity|].
  destruct (body _); reflexivity.
Qed.

Lemma samplerate_as_restores {A} (new : option pynum) (body : M L A) s :
  _samplerate (fst (samplerate_as new body s)) = _samplerate s.
Proof.
  rewrite samplerate_as_eq. simpl.
  destruct (py_le _ _); [reflexivity|].
  destruct (body _); reflexivity.
Qed.

Lemma samplerate_as_orig {A} (new : option pynum) (body : M L A) s :
  (forall s', _orig_samplerate (fst (body s')) = _orig_samplerate s') ->
  _orig_samplerate (fst (samplerate_as new body s)) = _orig_samplerate s.
Proof.
  intro Hb. rewrite samplerate_as_eq. simpl.
  destruct (py_le _ _); [reflexivity|].
  specialize (Hb (set_sr (match new with None => _samplerate s | Some r => r end) s)).
  destruct (body _). simpl in *. exact Hb.
Qed.

Lemma min_start_as_eq {A} (new_start : pynum) (rate : option pynum)
    (body : M L A) s :
  min_start_as new_start rate body s =
  samplerate_as rate
    (fun s1 =>
       match _convert_samplerate new_start (_samplerate s1) (_orig_samplerate s1) with
       | inl e => (s1, inl e)
       | inr ms =>
           let '(s2, r) := body (set_minstart ms s1) in
           (set_minstart (_minstart_at_orig_sr s) s2, r)
       end) s.
Proof.
  reflexivity.
Qed.

Lemma min_start_as_restores {A} (new_start : pynum) (rate : option pynum)
    (body : M L A) s :
  _samplerate (fst (min_start_as new_start rate body s)) = _samplerate s /\
  _minstart_at_orig_sr (fst (min_start_as new_start rate body s)) =
    _minstart_at_orig_sr s.
Proof.
  rewrite min_start_as_eq, samplerate_as_eq. simpl.
  destruct (py_le _ _); [split; reflexivity|].
  destruct (_convert_samplerate _ _ _); [split; reflexivity|].
  destruct (body _); split; reflexivity.
Qed.

Lemma min_start_as_orig {A} (new_start : pynum) (rate : option pynum)
    (body : M L A) s :
  (forall s', _orig_samplerate (fst (body s')) = _orig_samplerate s') ->
  _orig_samplerate (fst (min_start_as new_start rate body s)) =
    _orig_samplerate s.
Proof.
  intro Hb. rewrite min_start_as_eq, samplerate_as_eq. simpl.
  destruct (py_le _ _); [reflexivity|].
  destruct (_convert_samplerate _ _ _); [reflexivity|].
  match goal with |- context [body ?x] => specialize (Hb x) end.
  destruct (body _). simpl in *. exact Hb.
Qed.

(** [min_start] reads only the rates and the anchor. *)
Lemma min_start_fields (s s' : SequenceLabels L) :
  _samplerate s' = _samplerate s ->
  _orig_samplerate s' = _orig_samplerate s ->
  _minstart_at_orig_sr s' = _minstart_at_orig_sr s ->
  snd (min_start s') = snd (min_start s).
Proof.
  intros H1 H2 H3. unfold min_start, bind, gets, lift. simpl.
  rewrite H1, H2, H3. reflexivity.
Qed.

Lemma py_lt_0_le (r : pynum) : py_lt (PInt 0) r = true -> py_le r (PInt 0) = false.
Proof.
  unfold py_lt, py_le. intro H. apply negb_true_iff in H. exact H.
Qed.

End Scopes.

(** Claim C5: after a [samplerate_as] or [min_start_as] scope exits, normally
    or by an exception, [samplerate] and [min_start] are back to their values
    before the scope.  Inside, the innermost override is the rate the body
    sees; an override of [None] keeps the enclosing rate; the rate restored
    on exit is the one of the enclosing scope. *)
Theorem scopes_restore_state (L A : Type) :
  (forall (new : option pynum) (body : M L A) s,
     _samplerate (fst (samplerate_as new body s)) = _samplerate s /\
     ((forall s', _orig_samplerate (fst (body s')) = _orig_samplerate s' /\
                  _minstart_at_orig_sr (fst (body s')) = _minstart_at_orig_sr s') ->
      snd (min_start (fst (samplerate_as new body s))) = snd (min_start s))) /\
  (forall (new_start : pynum) (rate : option pynum) (body : M L A) s,
     _samplerate (fst (min_start_as new_start rate body s)) = _samplerate s /\
     ((forall s', _orig_samplerate (fst (body s')) = _orig_samplerate s') ->
      snd (min_start (fst (min_start_as new_start rate body s))) =
        snd (min_start s))) /\
  (forall (r : pynum) (body : M L A) s,
     py_lt (PInt 0) r = true ->
     samplerate_as (Some r) body s =
       let '(s1, res) := body (set_sr r s) in (set_sr (_samplerate s) s1, res)) /\
  (forall (body : M L A) s,
     py_lt (PInt 0) (_samplerate s) = true ->
     samplerate_as None body s =
       let '(s1, res) := body s in (set_sr (_samplerate s) s1, res)).
Proof.
  split; [|split; [|split]].
  - intros new body s. split; [apply samplerate_as_restores|].
    intro Hb. apply min_start_fields.
    + apply samplerate_as_restores.
    + apply samplerate_as_orig. intro s'. apply Hb.
    + rewrite samplerate_as_eq. simpl. destruct (py_le _ _); [reflexivity|].
      match goal with |- context [body ?x] => specialize (Hb x) end.
      destruct (body _). simpl in *. apply Hb.
  - intros ns rate body s.
    destruct (min_start_as_restores _ ns rate body s) as [H1 H2].
    split; [exact H1|]. intro Hb. apply min_start_fields; auto.
    apply min_start_as_orig. exact Hb.
  - intros r body s Hr. rewrite samplerate_as_eq. simpl.
    rewrite (py_lt_0_le _ Hr). reflexivity.
  - intros body s Hr. rewrite samplerate_as_eq. simpl.
    rewrite (py_lt_0_le _ Hr). rewrite set_sr_same. reflexivity.
Qed.

(** A witness of C5 on a one-segment instance with the trivial body. *)
Lemma scopes_restore_state_witness :
  let s0 := mkSL [(PInt 0, PInt 1)] [1%Z] (PInt 1) (PInt 1) (PInt 0) in
  snd (min_start (fst (samplerate_as (Some (PInt 2)) (ret tt) s0))) =
    snd (min_start s0) /\
  snd (min_start (fst (min_start_as (PInt 7) (Some (PInt 3)) (ret tt) s0))) =
    snd (min_start s0) /\
  samplerate_as (Some (PInt 2)) (@ret Z unit tt) s0 =
    (let '(s1, res) := ret tt (set_sr (PInt 2) s0) in
     (set_sr (_samplerate s0) s1, res)) /\
  samplerate_as None (@ret Z unit tt) s0 =
    (let '(s1, res) := ret tt s0 in (set_sr (_samplerate s0) s1, res)).
Proof.
  intro s0.
  destruct (scopes_restore_state Z unit) as [H1 [H2 [H3 H4]]].
  split; [|split; [|split]].
  - apply (proj2 (H1 (Some (PInt 2)) (ret tt) s0)).
    intro s'. split; reflexivity.
  - apply (proj2 (H2 (PInt 7) (Some (PInt 3)) (ret tt) s0)).
    intro s'. reflexivity.
  - apply H3. reflexivity.
  - apply H4. reflexivity.
Defined.

(** ** The [starts_ends] accessor *)

(** Claim C1 (code defect): [starts_ends] is documented as never modifying
    [self._starts_ends], but under a [min_start_as] override its in-place
    [starts_ends -= ...] shifts the stored array: for
    [SequenceLabels([[0, 1]], [1])] inside [min_start_as(5)], reading
    [starts_ends] turns the stored segments into [[5, 6]], which stays after
    the scope exits. *)
Theorem starts_ends_shifts_storage :
  match SequenceLabels__init__ [(PInt 0, PInt 1)] [1%Z] (PInt 1) with
  | inr s =>
      _starts_ends s = [(PInt 0, PInt 1)] /\
      snd (min_start_as (PInt 5) None
             (bind starts_ends (fun _ => gets _starts_ends)) s) =
        inr [(PInt 5, PInt 6)] /\
      _starts_ends (fst (min_start_as (PInt 5) None starts_ends s)) =
        [(PInt 5, PInt 6)] /\
      _starts_ends (fst (min_start_as (PInt 5) None max_end s)) =
        [(PInt 5, PInt 6)]
  | inl _ => False
  end.
Proof. vm_compute. repeat split; reflexivity. Qed.

(** A witness of C6: rates [2 -> 4] (an exact multiple), [2 -> 3] (not one),
    [2 -> 2] and a non-positive rate. *)
Lemma convert_samplerate_cases_witness :
  _convert_samplerate (PInt 3) (PInt 0) (PInt 4) = inl ValueError /\
  _convert_samplerate (PInt 3) (PInt 2) (PInt 2) = inr (PInt 3) /\
  _convert_samplerate (PInt 3) (PInt 2) (PInt 4) =
    inr (vmul (PInt 3) (py_floordiv (PInt 4) (PInt 2))) /\
  _convert_samplerate (PInt 3) (PInt 2) (PInt 3) =
    inr (vmul (PInt 3) (py_truediv (PInt 3) (PInt 2))) /\
  _convert_samplerate (PInt 3) (PInt 2) (PInt (Z.pos 2 * 2)) =
    inr (PInt (3 * Z.pos 2)).
Proof.
  assert (H2 : (0 < pyq (PInt 2))%Q) by reflexivity.
  assert (H3 : (0 < pyq (PInt 3))%Q) by reflexivity.
  assert (H4 : (0 < pyq (PInt 4))%Q) by reflexivity.
  split; [|split; [|split; [|split]]].
  - apply (proj1 (convert_samplerate_cases (PInt 3) (PInt 0) (PInt 4))).
    reflexivity.
  - apply (proj1 (proj1 (proj2 (convert_samplerate_cases (PInt 3) (PInt 2) (PInt 2))) H2 H2)).
    reflexivity.
  - apply (proj1 (proj2 (proj1 (proj2 (convert_samplerate_cases (PInt 3) (PInt 2) (PInt 4))) H2 H4))).
    + intro E. discriminate E.
    + exists 2%positive. reflexivity.
  - apply (proj2 (proj2 (proj1 (proj2 (convert_samplerate_cases (PInt 3) (PInt 2) (PInt 3))) H2 H3))).
    + intro E. discriminate E.
    + intros [k Hk]. unfold pyq in Hk. rewrite <- inject_Z_mult in Hk.
      apply (proj1 (inject_Z_injective _ _)) in Hk. lia.
  - apply (proj2 (proj2 (convert_samplerate_cases (PInt 3) (PInt 2) (PInt 3)))).
    lia.
Defined.

(** ** Sorting at construction *)

Section SortFacts.
Variable A : Type.
Variable leb : A -> A -> bool.
Hypothesis leb_total : forall x y, leb x y = false -> leb y x = true.

Lemma insert_perm (x : A) (l : list A) : Permutation (insert leb x l) (x :: l).
Proof.
  induction l as [|y l IH]; simpl; [reflexivity|].
  destruct (leb x y); [reflexivity|].
  rewrite IH. apply perm_swap.
Qed.

Lemma isort_perm (l : list A) : Permutation (isort leb l) l.
Proof.
  induction l as [|x l IH]; simpl; [reflexivity|].
  rewrite insert_perm. apply perm_skip. exact IH.
Qed.

Lemma insert_sorted (x : A) (l : list A) :
  Sorted (fun a b => leb a b = true) l ->
  Sorted (fun a b => leb a b = true) (insert leb x l).
Proof.
  induction 1 as [|y l Hl IH Hh]; simpl.
  - constructor; constructor.
  - destruct (leb x y) eqn:E.
    + constructor; [constructor; assumption|]. constructor. exact E.
    + constructor; [exact IH|].
      destruct l as [|z l]; simpl.
      * constructor. apply leb_total. exact E.
      * inversion Hh; subst. destruct (leb x z); constructor;
          [apply leb_total; exact E | assumption].
Qed.

Lemma isort_sorted (l : list A) : Sorted (fun a b => leb a b = true) (isort leb l).
Proof.
  induction l as [|x l IH]; simpl; [constructor|]. apply insert_sorted, IH.
Qed.
End SortFacts.

Lemma Sorted_map_fst {A B} (R : B -> B -> Prop) (f : A -> B) (l : list A) :
  Sorted (fun x y => R (f x) (f y)) l -> Sorted R (map f l).
Proof.
  induction 1 as [|x l Hl IH Hh]; simpl; constructor; [exact IH|].
  destruct Hh; simpl; constructor. assumption.
Qed.

Lemma seg_le_total (x y : pynum * pynum) : seg_le x y = false -> seg_le y x = true.
Proof.
  destruct x as [s1 e1], y as [s2 e2]. unfold seg_le.
  rewrite orb_false_iff, andb_false_iff. intros [H1 H2].
  apply orb_true_iff.
  rewrite <- not_true_iff_false, py_lt_spec in H1.
  destruct (Qlt_le_dec (pyq s2) (pyq s1)) as [G|G].
  - left. apply py_lt_spec. exact G.
  - right. apply andb_true_iff.
    assert (E : (pyq s1 == pyq s2)%Q).
    { apply Qle_antisym; [exact G|]. apply Qnot_lt_le. exact H1. }
    split; [apply py_eq_spec; symmetry; exact E|].
    destruct H2 as [H2|H2].
    + exfalso. rewrite <- not_true_iff_false, py_eq_spec in H2. contradiction.
    + rewrite <- not_true_iff_false, py_le_spec in H2.
      apply py_le_spec. apply Qlt_le_weak. apply Qnot_le_lt. exact H2.
Qed.

Lemma in_combine_seq {A} (l : list A) (k : nat) (p : A) (i : nat) (d : A) :
  In (p, i) (combine l (seq k (length l))) -> (k <= i)%nat /\
  (i - k < length l)%nat /\ nth (i - k) l d = p.
Proof.
  revert k. induction l as [|x l IH]; intros k H; simpl in H; [contradiction|].
  destruct H as [H|H].
  - inversion H; subst. rewrite Nat.sub_diag. simpl. split; [lia|split; [lia|reflexivity]].
  - destruct (IH (S k) H) as [H1 [H2 H3]].
    replace (i - k)%nat with (S (i - S k)) by lia. simpl.
    split; [lia|split; [lia|exact H3]].
Qed.

Lemma np_take_map {A} (a : list A) (idx : list nat) (d : A) :
  (forall i, In i idx -> (i < length a)%nat) ->
  np_take a idx = inr (map (fun i => nth i a d) idx).
Proof.
  induction idx as [|i idx IH]; intros H; simpl; [reflexivity|].
  rewrite IH by (intros; apply H; right; assumption).
  destruct (nth_error a i) eqn:E.
  - rewrite (nth_error_nth a i d E). reflexivity.
  - apply nth_error_None in E. specialize (H i (or_introl eq_refl)). lia.
Qed.

Lemma np_take_length {A} (a : list A) (idx : list nat) (r : list A) :
  np_take a idx = inr r -> length r = length idx.
Proof.
  revert r. induction idx as [|i idx IH]; intros r H; simpl in H.
  - inversion H; reflexivity.
  - destruct (nth_error a i), (np_take a idx) eqn:E; try discriminate.
    inversion H; subst. simpl. f_equal. apply IH. reflexivity.
Qed.

Lemma map_combine_seq {A B} (se : list A) (pre labs : list B) (l0 : B) :
  length se = length labs ->
  map (fun x => (fst x, nth (snd x) (pre ++ labs) l0))
      (combine se (seq (length pre) (length se))) = combine se labs.
Proof.
  revert pre labs. induction se as [|p se IH]; intros pre labs Hl; simpl; [reflexivity|].
  destruct labs as [|l labs]; [discriminate|]. simpl in Hl.
  rewrite nth_middle. f_equal.
  specialize (IH (pre ++ [l]) labs ltac:(lia)).
  rewrite length_app in IH. simpl in IH. rewrite <- app_assoc in IH. simpl in IH.
  rewrite Nat.add_1_r in IH. exact IH.
Qed.

Lemma np_array2_length (se : se_array) : length (np_array2 se) = length se.
Proof. unfold np_array2. destruct (all_int _); [reflexivity|]. apply length_map. Qed.

Lemma combine_map_same {A B C} (f : A -> B) (g : A -> C) (l : list A) :
  combine (map f l) (map g l) = map (fun x => (f x, g x)) l.
Proof. induction l; simpl; [reflexivity|]. rewrite IHl. reflexivity. Qed.

(** What a successful [__init__] has checked and built. *)
Lemma init_spec {L} (se : se_array) (labs : list L) (sr : pynum) s :
  SequenceLabels__init__ se labs sr = inr s ->
  length se = length labs /\
  py_le sr (PInt 0) = false /\
  existsb (fun '(s, e) => py_le (py_sub e s) (PInt 0)) (np_array2 se) = false /\
  _orig_samplerate s = sr /\ _samplerate s = sr /\
  (exists s0 e0 rest, _starts_ends s = (s0, e0) :: rest /\
                      _minstart_at_orig_sr s = s0) /\
  Sorted (fun x y => seg_le x y = true) (_starts_ends s) /\
  Permutation (combine (_starts_ends s) (labels s)) (combine (np_array2 se) labs) /\
  length (labels s) = length (_starts_ends s).
Proof.
  unfold SequenceLabels__init__.
  destruct (length se =? length labs)%nat eqn:Hlen; simpl; [|discriminate].
  apply Nat.eqb_eq in Hlen.
  set (se2 := np_array2 se).
  assert (Hl2 : length se2 = length se) by apply np_array2_length.
  destruct se2 as [|p0 se2'] eqn:Hse2; [discriminate|].
  rewrite <- Hse2 in *.
  destruct (py_le sr (PInt 0)) eqn:Hsr; [discriminate|].
  destruct (existsb _ se2) eqn:Hpos; [discriminate|].
  destruct labs as [|l0 labs'] eqn:Hlabs.
  { rewrite Hse2 in Hl2. simpl in Hl2, Hlen. lia. }
  rewrite <- Hlabs in *.
  set (sorted := isort (fun x y => seg_le (fst x) (fst y))
                       (combine se2 (seq 0 (length se2)))).
  assert (Hperm : Permutation sorted (combine se2 (seq 0 (length se2))))
    by apply isort_perm.
  assert (Hin : forall x, In x sorted ->
            (snd x < length se2)%nat /\ nth (snd x) se2 (PInt 0, PInt 0) = fst x).
  { intros [p i] Hx. apply (Permutation_in _ Hperm) in Hx.
    destruct (in_combine_seq se2 0 p i (PInt 0, PInt 0) Hx) as [_ [H1 H2]].
    rewrite Nat.sub_0_r in *. split; assumption. }
  unfold lexsort. fold sorted.
  rewrite (np_take_map se2 (map snd sorted) (PInt 0, PInt 0)).
  2:{ intros i Hi. apply in_map_iff in Hi. destruct Hi as [x [<- Hx]].
      apply Hin. exact Hx. }
  rewrite (np_take_map labs (map snd sorted) l0).
  2:{ intros i Hi. apply in_map_iff in Hi. destruct Hi as [x [<- Hx]].
      rewrite <- Hlen, <- Hl2. apply Hin. exact Hx. }
  rewrite map_map.
  assert (Hfst : map (fun x => nth (snd x) se2 (PInt 0, PInt 0)) sorted = map fst sorted).
  { apply map_ext_in. intros x Hx. apply Hin. exact Hx. }
  rewrite Hfst.
  assert (HS : Sorted (fun x y => seg_le x y = true) (map fst sorted)).
  { apply Sorted_map_fst. apply isort_sorted. intros x y. apply seg_le_total. }
  assert (HP : Permutation (combine (map fst sorted)
                 (map (fun i => nth i labs l0) (map snd sorted)))
                 (combine se2 labs)).
  { rewrite map_map, combine_map_same.
    rewrite (Permutation_map (fun x => (fst x, nth (snd x) labs l0)) Hperm).
    apply Permutation_refl'.
    apply (map_combine_seq se2 [] labs l0). lia. }
  destruct sorted as [|[[a b] i] rest] eqn:Hsorted.
  { apply Permutation_nil in Hperm. rewrite Hse2 in Hperm. discriminate. }
  simpl in HS, HP |- *. intro E. injection E as <-.
  cbn [_starts_ends labels _orig_samplerate _samplerate _minstart_at_orig_sr].
  split; [exact Hlen|]. split; [reflexivity|]. split; [reflexivity|].
  split; [reflexivity|]. split; [reflexivity|].
  split; [exists a, b, (map fst rest); split; reflexivity|].
  split; [assumption|]. split; [assumption|].
  simpl. rewrite !length_map. reflexivity.
Qed.

(** Claim C9: whatever the input order, the stored segments of a
    constructed instance are sorted by start, ties broken by end ([seg_le] is
    the key order of [np.lexsort]), and the stored labels are permuted with
    them: the (segment, label) pairs are a permutation of the input pairs. *)
Theorem init_sorts_segments {L} (se : se_array) (labs : list L) (sr : pynum) s :
  SequenceLabels__init__ se labs sr = inr s ->
  Sorted (fun x y => seg_le x y = true) (_starts_ends s) /\
  Permutation (combine (_starts_ends s) (labels s)) (combine (np_array2 se) labs).
Proof.
  intro H. destruct (init_spec se labs sr s H) as (_ & _ & _ & _ & _ & _ & HS & HP & _).
  split; assumption.
Qed.

Lemma init_sorts_segments_witness :
  SequenceLabels__init__ [(PInt 3, PInt 4); (PInt 0, PInt 2); (PInt 0, PInt 1)]
    [1; 2; 3]%Z (PInt 1) =
    inr (mkSL [(PInt 0, PInt 1); (PInt 0, PInt 2); (PInt 3, PInt 4)] [3; 2; 1]%Z
              (PInt 1) (PInt 1) (PInt 0)) /\
  Sorted (fun x y => seg_le x y = true)
    [(PInt 0, PInt 1); (PInt 0, PInt 2); (PInt 3, PInt 4)] /\
  Permutation (combine [(PInt 0, PInt 1); (PInt 0, PInt 2); (PInt 3, PInt 4)] [3; 2; 1]%Z)
    (combine (np_array2 [(PInt 3, PInt 4); (PInt 0, PInt 2); (PInt 0, PInt 1)]) [1; 2; 3]%Z).
Proof.
  assert (E : SequenceLabels__init__ [(PInt 3, PInt 4); (PInt 0, PInt 2); (PInt 0, PInt 1)]
    [1; 2; 3]%Z (PInt 1) =
    inr (mkSL [(PInt 0, PInt 1); (PInt 0, PInt 2); (PInt 3, PInt 4)] [3; 2; 1]%Z
              (PInt 1) (PInt 1) (PInt 0))) by (vm_compute; reflexivity).
  split; [exact E|].
  exact (init_sorts_segments _ _ _ _ E).
Defined.

(** ** Contiguity at construction *)

Lemma starts_ends_fresh {L} (se : se_array) (labs : list L) (sr : pynum) s :
  SequenceLabels__init__ se labs sr = inr s ->
  starts_ends s = (s, inr (_starts_ends s)).
Proof.
  intro H. destruct (init_spec se labs sr s H)
    as (_ & Hsr & _ & Ho & Hs & (s0 & e0 & rest & Hse & Hm) & _ & _).
  unfold starts_ends, bind, gets, ret, lift. rewrite Hse, Hm. simpl.
  replace (py_eq s0 s0) with true by (symmetry; apply py_eq_spec; reflexivity).
  simpl. rewrite Ho, Hs. unfold _convert_samplerate. rewrite Hsr. simpl.
  replace (py_eq sr sr) with true by (symmetry; apply py_eq_spec; reflexivity).
  reflexivity.
Qed.

(** [not_flat] is the check "some adjacent pair has [end != next start]". *)
Lemma not_flat_iff (se : se_array) (d : pynum * pynum) :
  not_flat se = true <->
  exists i, (S i < length se)%nat /\
            ~ (pyq (fst (nth (S i) se d)) == pyq (snd (nth i se d)))%Q.
Proof.
  unfold not_flat, starts_of, ends_of.
  induction se as [|p [|q rest] IH].
  - simpl. split; [discriminate|]. intros [i [Hi _]]. simpl in Hi. lia.
  - simpl. split; [discriminate|]. intros [i [Hi _]]. simpl in Hi. lia.
  - change (tl (map fst (p :: q :: rest))) with (map fst (q :: rest)).
    change (removelast (map snd (p :: q :: rest)))
      with (snd p :: removelast (map snd (q :: rest))).
    change (combine (map fst (q :: rest)) (snd p :: removelast (map snd (q :: rest))))
      with ((fst q, snd p) :: combine (map fst rest) (removelast (map snd (q :: rest)))).
    cbn [existsb]. rewrite orb_true_iff.
    assert (Etl : combine (map fst rest) (removelast (map snd (q :: rest))) =
                  combine (tl (map fst (q :: rest))) (removelast (map snd (q :: rest))))
      by reflexivity.
    rewrite Etl, IH. split.
    + intros [H|[i [Hi Hn]]].
      * exists 0%nat. split; [simpl; lia|]. simpl.
        rewrite negb_true_iff, <- not_true_iff_false, py_eq_spec in H. exact H.
      * exists (S i). split; [simpl in *; lia|]. exact Hn.
    + intros [[|i] [Hi Hn]].
      * left. simpl in Hn. rewrite negb_true_iff, <- not_true_iff_false, py_eq_spec.
        exact Hn.
      * right. exists i. split; [simpl in *; lia|]. exact Hn.
Qed.

(** Claim C7: from segments that pass the parent's checks,
    [ContiguousSequenceLabels] fails with [AssertionError]
    (ContiguityViolation), returning no instance, when some adjacent pair in
    sorted order has [end != next start]; otherwise it succeeds with the
    parent's instance, which keeps every input segment with its label. *)
Theorem contiguous_init_checks {L} (se : se_array) (labs : list L)
    (sr : pynum) s :
  SequenceLabels__init__ se labs sr = inr s ->
  ((exists i, (S i < length (_starts_ends s))%nat /\
      ~ (pyq (fst (nth (S i) (_starts_ends s) (PInt 0, PInt 0))) ==
         pyq (snd (nth i (_starts_ends s) (PInt 0, PInt 0))))%Q) ->
   ContiguousSequenceLabels__init__ se labs sr = inl AssertionError) /\
  ((forall i, (S i < length (_starts_ends s))%nat ->
      (pyq (fst (nth (S i) (_starts_ends s) (PInt 0, PInt 0))) ==
       pyq (snd (nth i (_starts_ends s) (PInt 0, PInt 0))))%Q) ->
   ContiguousSequenceLabels__init__ se labs sr = inr s /\
   Permutation (combine (_starts_ends s) (labels s)) (combine (np_array2 se) labs)).
Proof.
  intro Hi. unfold ContiguousSequenceLabels__init__. rewrite Hi.
  rewrite (starts_ends_fresh se labs sr s Hi). split.
  - intro Hex. apply (not_flat_iff _ (PInt 0, PInt 0)) in Hex. rewrite Hex. reflexivity.
  - intro Hall.
    destruct (not_flat (_starts_ends s)) eqn:E.
    + exfalso. apply (not_flat_iff _ (PInt 0, PInt 0)) in E.
      destruct E as [i [H1 H2]]. apply H2. apply Hall. exact H1.
    + split; [reflexivity|].
      destruct (init_spec se labs sr s Hi) as (_ & _ & _ & _ & _ & _ & _ & HP & _).
      exact HP.
Qed.

(** A witness of C7: the contiguous example is accepted, the overlapping one
    is refused. *)
Lemma contiguous_init_checks_witness :
  let fl := mkfloat in
  ContiguousSequenceLabels__init__
    [(fl (0#1), fl (1#1)); (fl (1#1), fl (3#1)); (fl (3#1), fl (45#10)); (fl (45#10), fl (6#1))]
    [1; 0; 2; 1]%Z (fl (1#1)) =
  SequenceLabels__init__
    [(fl (0#1), fl (1#1)); (fl (1#1), fl (3#1)); (fl (3#1), fl (45#10)); (fl (45#10), fl (6#1))]
    [1; 0; 2; 1]%Z (fl (1#1)) /\
  ContiguousSequenceLabels__init__
    [(fl (0#1), fl (1#1)); (fl (1#1), fl (48#10)); (fl (3#1), fl (5#1)); (fl (45#10), fl (6#1))]
    [1; 0; 2; 1]%Z (fl (1#1)) = inl AssertionError.
Proof.
  intro fl. split.
  - destruct (SequenceLabels__init__
      [(fl (0#1), fl (1#1)); (fl (1#1), fl (3#1)); (fl (3#1), fl (45#10)); (fl (45#10), fl (6#1))]
      [1; 0; 2; 1]%Z (fl (1#1))) as [e|s] eqn:E.
    + vm_compute in E. discriminate E.
    + apply (proj2 (contiguous_init_checks _ _ _ s E)).
      vm_compute in E. injection E as <-. intros [|[|[|i]]] Hl;
        vm_compute in Hl; try reflexivity; lia.
  - destruct (SequenceLabels__init__
      [(fl (0#1), fl (1#1)); (fl (1#1), fl (48#10)); (fl (3#1), fl (5#1)); (fl (45#10), fl (6#1))]
      [1; 0; 2; 1]%Z (fl (1#1))) as [e|s] eqn:E.
    + vm_compute in E. discriminate E.
    + apply (proj1 (contiguous_init_checks _ _ _ s E)).
      exists 1%nat. vm_compute in E. injection E as <-. split; [vm_compute; lia|].
      vm_compute. discriminate.
Defined.

(** ** Breakpoints: [np.unique] on values *)

Lemma py_le_total (x y : pynum) : py_le x y = false -> py_le y x = true.
Proof.
  rewrite <- not_true_iff_false, !py_le_spec. intro H.
  apply Qlt_le_weak. apply Qnot_le_lt. exact H.
Qed.

Lemma py_eq_trans (x y z : pynum) :
  py_eq x y = true -> py_eq y z = true -> py_eq x z = true.
Proof. rewrite !py_eq_spec. intros H1 H2. rewrite H1. exact H2. Qed.

Lemma py_eq_sym (x y : pynum) : py_eq x y = true -> py_eq y x = true.
Proof. rewrite !py_eq_spec. intro H. symmetry. exact H. Qed.

Lemma py_eq_refl (x : pynum) : py_eq x x = true.
Proof. apply py_eq_spec. reflexivity. Qed.

Definition pylt (x y : pynum) : Prop := py_lt x y = true.

Lemma pylt_trans (x y z : pynum) : pylt x y -> pylt y z -> pylt x z.
Proof. unfold pylt. rewrite !py_lt_spec. apply Qlt_trans. Qed.

Lemma dedup_incl (l : list pynum) (v : pynum) :
  In v (dedup_sorted py_eq l) -> In v l.
Proof.
  induction l as [|x l IH]; [simpl; tauto|].
  destruct l as [|y l]; [simpl; tauto|].
  change (dedup_sorted py_eq (x :: y :: l)) with
    (if py_eq x y then dedup_sorted py_eq (y :: l)
     else x :: dedup_sorted py_eq (y :: l)).
  destruct (py_eq x y).
  - intro H. right. apply IH. exact H.
  - intros [H|H]; [left; exact H|right; apply IH; exact H].
Qed.

Lemma dedup_head (x : pynum) (l : list pynum) :
  exists z rest, dedup_sorted py_eq (x :: l) = z :: rest /\ py_eq x z = true.
Proof.
  revert x. induction l as [|y l IH]; intro x.
  - exists x, []. split; [reflexivity|apply py_eq_refl].
  - change (dedup_sorted py_eq (x :: y :: l)) with
      (if py_eq x y then dedup_sorted py_eq (y :: l)
       else x :: dedup_sorted py_eq (y :: l)).
    destruct (py_eq x y) eqn:E.
    + destruct (IH y) as [z [rest [H1 H2]]]. exists z, rest.
      split; [exact H1|]. apply (py_eq_trans _ _ _ E H2).
    + eexists; eexists. split; [reflexivity|apply py_eq_refl].
Qed.

Lemma dedup_cover (l : list pynum) (w : pynum) :
  In w l -> exists v, In v (dedup_sorted py_eq l) /\ py_eq v w = true.
Proof.
  induction l as [|x l IH]; [simpl; tauto|].
  intros Hw.
  destruct l as [|y l].
  - exists x. destruct Hw as [<-|[]]. split; [left; reflexivity|apply py_eq_refl].
  - change (dedup_sorted py_eq (x :: y :: l)) with
      (if py_eq x y then dedup_sorted py_eq (y :: l)
       else x :: dedup_sorted py_eq (y :: l)).
    destruct Hw as [<-|Hw].
    + destruct (py_eq x y) eqn:E.
      * destruct (dedup_head y l) as [z [rest [H1 H2]]].
        exists z. rewrite H1. split; [left; reflexivity|].
        apply py_eq_sym. apply (py_eq_trans _ _ _ E H2).
      * exists x. split; [left; reflexivity|apply py_eq_refl].
    + destruct (IH Hw) as [v [H1 H2]]. exists v. split; [|exact H2].
      destruct (py_eq x y); [exact H1|right; exact H1].
Qed.

Lemma dedup_strict (l : list pynum) :
  Sorted (fun a b => py_le a b = true) l ->
  Sorted pylt (dedup_sorted py_eq l).
Proof.
  induction l as [|x l IH]; intro Hs; [constructor|].
  destruct l as [|y l]; [repeat constructor|].
  inversion Hs as [|? ? Hs' Hh]; subst. inversion Hh as [|? ? Hxy]; subst.
  change (dedup_sorted py_eq (x :: y :: l)) with
    (if py_eq x y then dedup_sorted py_eq (y :: l)
     else x :: dedup_sorted py_eq (y :: l)).
  destruct (py_eq x y) eqn:E; [apply IH; exact Hs'|].
  constructor; [apply IH; exact Hs'|].
  destruct (dedup_head y l) as [z [rest [H1 H2]]]. rewrite H1. constructor.
  unfold pylt. apply py_lt_spec. apply py_le_spec in Hxy.
  rewrite <- not_true_iff_false, py_eq_spec in E. apply py_eq_spec in H2.
  rewrite <- H2. apply Qle_lteq in Hxy. destruct Hxy as [Hxy|Hxy]; [exact Hxy|].
  contradiction.
Qed.

Lemma np_unique_strict (l : list pynum) :
  StronglySorted pylt (np_unique py_le py_eq l).
Proof.
  apply Sorted_StronglySorted; [intros x y z; apply pylt_trans|].
  apply dedup_strict. apply isort_sorted. apply py_le_total.
Qed.

Lemma np_unique_incl (l : list pynum) (v : pynum) :
  In v (np_unique py_le py_eq l) -> In v l.
Proof.
  intro H. apply dedup_incl in H. apply (Permutation_in _ (isort_perm _ _ _)) in H.
  exact H.
Qed.

Lemma np_unique_cover (l : list pynum) (w : pynum) :
  In w l -> exists v, In v (np_unique py_le py_eq l) /\ py_eq v w = true.
Proof.
  intro H. apply dedup_cover.
  apply (Permutation_in _ (Permutation_sym (isort_perm _ py_le l))). exact H.
Qed.

Lemma index_of_spec (u : list pynum) (x : pynum) (d : pynum) :
  (exists v, In v u /\ py_eq v x = true) ->
  (index_of py_eq u x < length u)%nat /\ py_eq (nth (index_of py_eq u x) u d) x = true.
Proof.
  induction u as [|y u IH]; intros [v [Hv Hvx]]; [destruct Hv|].
  simpl. destruct (py_eq y x) eqn:E.
  - split; [lia|exact E].
  - destruct Hv as [<-|Hv]; [congruence|].
    destruct IH as [H1 H2]; [exists v; split; assumption|].
    split; [lia|exact H2].
Qed.

Lemma strict_nth_lt (u : list pynum) (d : pynum) (i j : nat) :
  StronglySorted pylt u -> (i < j)%nat -> (j < length u)%nat ->
  pylt (nth i u d) (nth j u d).
Proof.
  intro Hs. revert i j. induction Hs as [|x u Hs IH Hall]; intros i j Hij Hj;
    simpl in Hj; [lia|].
  destruct j as [|j]; [lia|]. destruct i as [|i].
  - simpl. rewrite Forall_forall in Hall. apply Hall. apply nth_In. lia.
  - simpl. apply IH; lia.
Qed.

Lemma strict_nth_le_iff (u : list pynum) (d : pynum) (i j : nat) :
  StronglySorted pylt u -> (i < length u)%nat -> (j < length u)%nat ->
  ((pyq (nth i u d) <= pyq (nth j u d))%Q <-> (i <= j)%nat).
Proof.
  intros Hs Hi Hj. split; intro H.
  - destruct (Nat.le_gt_cases i j) as [G|G]; [exact G|].
    exfalso. assert (E := strict_nth_lt u d j i Hs G Hi).
    unfold pylt in E. apply py_lt_spec in E. apply (Qlt_not_le _ _ E H).
  - apply Nat.lt_eq_cases in H. destruct H as [H|<-]; [|apply Qle_refl].
    assert (E := strict_nth_lt u d i j Hs H Hj).
    unfold pylt in E. apply py_lt_spec in E. apply Qlt_le_weak. exact E.
Qed.

(** ** The tag loop of [_flattened_indices] *)

Section TagLoop.
Local Open Scope nat_scope.

Lemma append_at_spec (li : list (list nat)) (i j : nat) :
  (i < length li)%nat ->
  exists li', append_at li i j = inr li' /\ length li' = length li /\
    forall k, nth k li' [] = nth k li [] ++ (if Nat.eqb k i then [j] else []).
Proof.
  revert i. induction li as [|t li IH]; intros i Hi; simpl in Hi; [lia|].
  destruct i as [|i].
  - eexists. split; [reflexivity|]. split; [reflexivity|].
    intros [|k]; simpl; [reflexivity|rewrite app_nil_r; reflexivity].
  - destruct (IH i ltac:(lia)) as [r [H1 [H2 H3]]].
    exists (t :: r). simpl. rewrite H1. split; [reflexivity|].
    split; [simpl; lia|].
    intros [|k]; simpl; [rewrite app_nil_r; reflexivity|apply H3].
Qed.

Lemma tag_range_spec (li : list (list nat)) (j a m : nat) :
  (a + m <= length li)%nat ->
  exists li', tag_range li j (seq a m) = inr li' /\ length li' = length li /\
    forall k, nth k li' [] =
      nth k li [] ++ (if (a <=? k) && (k <? a + m) then [j] else []).
Proof.
  revert li a. induction m as [|m IH]; intros li a Hm.
  - exists li. split; [reflexivity|]. split; [reflexivity|].
    intro k. replace ((a <=? k) && (k <? a + 0)) with false
      by (symmetry; apply andb_false_iff;
          destruct (Nat.le_gt_cases a k); [right; apply Nat.ltb_ge; lia|
                                           left; apply Nat.leb_gt; lia]).
    rewrite app_nil_r. reflexivity.
  - destruct (append_at_spec li a j ltac:(lia)) as [l1 [E1 [L1 N1]]].
    destruct (IH l1 (S a) ltac:(lia)) as [l2 [E2 [L2 N2]]].
    exists l2. simpl. rewrite E1. split; [exact E2|]. split; [lia|].
    intro k. rewrite N2, N1, <- app_assoc. f_equal.
    destruct (Nat.eqb_spec k a) as [->|Hk].
    + rewrite Nat.leb_refl.
      replace ((S a <=? a) && (a <? S a + m)) with false
        by (symmetry; apply andb_false_iff; left; apply Nat.leb_gt; lia).
      replace (a <? a + S m) with true by (symmetry; apply Nat.ltb_lt; lia).
      reflexivity.
    + replace (S a + m) with (a + S m) by lia.
      destruct (Nat.le_gt_cases a k) as [G|G].
      * replace (a <=? k) with true by (symmetry; apply Nat.leb_le; lia).
        replace (S a <=? k) with true by (symmetry; apply Nat.leb_le; lia).
        reflexivity.
      * replace (a <=? k) with false by (symmetry; apply Nat.leb_gt; lia).
        replace (S a <=? k) with false by (symmetry; apply Nat.leb_gt; lia).
        reflexivity.
Qed.

(** Segment [j] (numbered from [j0]) with index pair [(a, c)] goes to the
    tag lists [a .. c-1]. *)
Definition covers_idx (j0 : nat) (pairs : list (nat * nat)) (k j : nat) : bool :=
  let '(a, c) := nth (j - j0) pairs (0, 0)%nat in (a <=? k) && (k <? c).

Lemma covers_idx_cons (j0 a c k : nat) (ps : list (nat * nat)) :
  filter (covers_idx j0 ((a, c) :: ps) k) (seq j0 (S (length ps))) =
  (if (a <=? k) && (k <? c) then [j0] else []) ++
  filter (covers_idx (S j0) ps k) (seq (S j0) (length ps)).
Proof.
  change (seq j0 (S (length ps))) with (j0 :: seq (S j0) (length ps)).
  cbn [filter]. unfold covers_idx at 1. rewrite Nat.sub_diag. cbn [nth].
  replace (filter (covers_idx j0 ((a, c) :: ps) k) (seq (S j0) (length ps)))
    with (filter (covers_idx (S j0) ps k) (seq (S j0) (length ps))).
  - destruct ((a <=? k) && (k <? c)); reflexivity.
  - apply filter_ext_in. intros j Hj. apply in_seq in Hj.
    unfold covers_idx. replace (j - j0) with (S (j - S j0)) by lia.
    reflexivity.
Qed.

Lemma tag_loop_spec (pairs : list (nat * nat)) (li : list (list nat)) (j0 : nat) :
  (forall a c, In (a, c) pairs -> (c <= length li)%nat) ->
  exists li', tag_loop li j0 pairs = inr li' /\ length li' = length li /\
    forall k, nth k li' [] =
      nth k li [] ++ filter (covers_idx j0 pairs k) (seq j0 (length pairs)).
Proof.
  revert li j0. induction pairs as [|[a c] ps IH]; intros li j0 Hb.
  - exists li. split; [reflexivity|]. split; [reflexivity|].
    intro k. simpl. rewrite app_nil_r. reflexivity.
  - assert (Hc : c <= length li) by (apply (Hb a); left; reflexivity).
    destruct (Nat.le_gt_cases a c) as [Hac|Hac].
    + destruct (tag_range_spec li j0 a (c - a) ltac:(lia)) as [l1 [E1 [L1 N1]]].
      destruct (IH l1 (S j0)) as [l2 [E2 [L2 N2]]].
      { intros a' c' H. rewrite L1. apply (Hb a'). right. exact H. }
      exists l2. simpl. rewrite E1. split; [exact E2|]. split; [lia|].
      intro k. rewrite N2, N1, <- app_assoc. f_equal.
      refine (eq_trans _ (eq_sym (covers_idx_cons j0 a c k ps))).
      replace (a + (c - a)) with c by lia. reflexivity.
    + destruct (IH li (S j0)) as [l2 [E2 [L2 N2]]].
      { intros a' c' H. apply (Hb a'). right. exact H. }
      exists l2. simpl. replace (c - a) with 0 by lia. simpl. split; [exact E2|]. split; [exact L2|].
      intro k. rewrite N2. f_equal.
      refine (eq_trans _ (eq_sym (covers_idx_cons j0 a c k ps))).
      replace ((a <=? k) && (k <? c)) with false
        by (symmetry; apply andb_false_iff;
            destruct (Nat.le_gt_cases a k); [right; apply Nat.ltb_ge; lia|
                                             left; apply Nat.leb_gt; lia]).
      reflexivity.
Qed.

Lemma reshape2_flat (f : pynum -> nat) (se : se_array) :
  reshape2 (map f (se_flat se)) = map (fun '(a, b) => (f a, f b)) se.
Proof.
  induction se as [|[a b] se IH]; [reflexivity|].
  simpl. rewrite IH. reflexivity.
Qed.

Lemma nth_repeat_nil (n k : nat) : nth k (repeat (@nil nat) n) [] = [].
Proof.
  revert k. induction n as [|n IH]; intros [|k]; simpl; try reflexivity. apply IH.
Qed.

End TagLoop.

(** ** Facts on a constructed instance *)

Lemma in_combine_exists {A B} (a : list A) (b : list B) (x : A) :
  length b = length a -> In x a -> exists y, In (x, y) (combine a b).
Proof.
  revert b. induction a as [|z a IH]; intros b Hl Hx; [destruct Hx|].
  destruct b as [|y b]; [discriminate|]. simpl in Hl.
  destruct Hx as [<-|Hx].
  - exists y. left. reflexivity.
  - destruct (IH b ltac:(lia) Hx) as [y' H]. exists y'. right. exact H.
Qed.

Lemma pyq_sub (x y : pynum) : (pyq (py_sub x y) == pyq x - pyq y)%Q.
Proof.
  unfold py_sub. destruct x as [a|a], y as [b|b];
    try (rewrite pyq_mkfloat; reflexivity).
  unfold pyq. unfold Z.sub. rewrite inject_Z_plus, inject_Z_opp. reflexivity.
Qed.

(** Every stored segment is non-empty: [start < end]. *)
Lemma init_valid {L} (se : se_array) (labs : list L) (sr : pynum) s :
  SequenceLabels__init__ se labs sr = inr s ->
  forall p, In p (_starts_ends s) -> (pyq (fst p) < pyq (snd p))%Q.
Proof.
  intros H p Hp.
  destruct (init_spec se labs sr s H) as (_ & _ & Hpos & _ & _ & _ & _ & HP & Hl).
  destruct (in_combine_exists _ _ p Hl Hp) as [y Hy].
  apply (Permutation_in _ HP) in Hy. apply in_combine_l in Hy.
  assert (Hf : py_le (py_sub (snd p) (fst p)) (PInt 0) = false).
  { destruct (py_le (py_sub (snd p) (fst p)) (PInt 0)) eqn:E; [|reflexivity].
    rewrite <- Hpos. symmetry. apply existsb_exists. exists p.
    split; [exact Hy|]. destruct p. exact E. }
  rewrite <- not_true_iff_false, py_le_spec, pyq_sub in Hf.
  apply Qnot_le_lt in Hf. change (pyq (PInt 0)) with 0%Q in Hf.
  lra.
Qed.

(** ** What the flattener computes *)

(** Segment [j] of [se] covers bin [i] of [bins]:
    [start_j <= bins[i]] and [bins[i+1] <= end_j]. *)
Definition covers (se : se_array) (bins : list pynum) (i j : nat) : Prop :=
  (j < length se)%nat /\
  (pyq (fst (nth j se (PInt 0, PInt 0))) <= pyq (nth i bins (PInt 0)))%Q /\
  (pyq (nth (S i) bins (PInt 0)) <= pyq (snd (nth j se (PInt 0, PInt 0))))%Q.

Lemma StronglySorted_filter {A} (R : A -> A -> Prop) (f : A -> bool) (l : list A) :
  StronglySorted R l -> StronglySorted R (filter f l).
Proof.
  induction 1 as [|x l Hs IH Hall]; simpl; [constructor|].
  destruct (f x); [|exact IH]. constructor; [exact IH|].
  rewrite Forall_forall in *. intros y Hy. apply filter_In in Hy. apply Hall. apply Hy.
Qed.

Lemma StronglySorted_seq (a n : nat) : StronglySorted lt (seq a n).
Proof.
  revert a. induction n as [|n IH]; intro a; simpl; constructor; [apply IH|].
  apply Forall_forall. intros x Hx. apply in_seq in Hx. lia.
Qed.

Lemma in_se_flat (se : se_array) (p : pynum * pynum) :
  In p se -> In (fst p) (se_flat se) /\ In (snd p) (se_flat se).
Proof.
  intro H. unfold se_flat. split; apply in_flat_map; exists p; split; try exact H;
    destruct p; simpl; auto.
Qed.

Lemma in_se_flat_inv (se : se_array) (w : pynum) :
  In w (se_flat se) -> exists p, In p se /\ (w = fst p \/ w = snd p).
Proof.
  unfold se_flat. intro H. apply in_flat_map in H. destruct H as [[a b] [Hp Hw]].
  exists (a, b). split; [exact Hp|]. simpl in Hw |- *.
  destruct Hw as [<-|[<-|[]]]; auto.
Qed.

Lemma nth_map_d {A B} (g : A -> B) (l : list A) (d : A) (d' : B) (j : nat) :
  (j < length l)%nat -> nth j (map g l) d' = g (nth j l d).
Proof.
  intro H. rewrite (nth_indep _ _ (g d)) by (rewrite length_map; exact H).
  apply map_nth.
Qed.

Lemma bins_index (se : se_array) (w : pynum) :
  let B := np_unique py_le py_eq (se_flat se) in
  In w (se_flat se) ->
  (index_of py_eq B w < length B)%nat /\
  (pyq (nth (index_of py_eq B w) B (PInt 0)) == pyq w)%Q.
Proof.
  intros B Hw. destruct (index_of_spec B w (PInt 0)) as [H1 H2].
  - apply np_unique_cover. exact Hw.
  - split; [exact H1|]. apply py_eq_spec. exact H2.
Qed.

Lemma general_tags (se : se_array) :
  let B := np_unique py_le py_eq (se_flat se) in
  exists li,
    tag_loop (repeat [] (length B - 1)) 0
             (reshape2 (map (index_of py_eq B) (se_flat se))) = inr li /\
    length li = (length B - 1)%nat /\
    (forall i j, (i < length li)%nat -> (In j (nth i li []) <-> covers se B i j)) /\
    (forall i, StronglySorted lt (nth i li [])).
Proof.
  intro B. rewrite reshape2_flat.
  set (f := index_of py_eq B).
  set (pairs := map (fun '(a, b) => (f a, f b)) se).
  assert (Hpair : forall j, (j < length se)%nat ->
            nth j pairs (0, 0)%nat =
            (f (fst (nth j se (PInt 0, PInt 0))), f (snd (nth j se (PInt 0, PInt 0))))).
  { intros j Hj. unfold pairs.
    rewrite (nth_map_d _ _ (PInt 0, PInt 0)) by exact Hj. destruct (nth j se (PInt 0, PInt 0)). reflexivity. }
  destruct (tag_loop_spec pairs (repeat [] (length B - 1)) 0) as [li [E [Hl Hn]]].
  { intros a c H. unfold pairs in H. apply in_map_iff in H.
    destruct H as [[x y] [Hxy Hin]]. injection Hxy as <- <-.
    rewrite repeat_length.
    destruct (bins_index se y) as [Hy _]; [apply (in_se_flat se (x, y) Hin)|].
    fold B f in Hy. lia. }
  rewrite repeat_length in Hl.
  exists li. split; [exact E|]. split; [exact Hl|]. split.
  - intros i j Hi. rewrite Hn, nth_repeat_nil. simpl.
    rewrite filter_In, in_seq. unfold pairs at 1. rewrite length_map.
    split.
    + intros [[_ Hj] Hc]. simpl in Hj. unfold covers_idx in Hc.
      rewrite Nat.sub_0_r, Hpair in Hc by exact Hj.
      apply andb_true_iff in Hc. destruct Hc as [Ha Hc].
      apply Nat.leb_le in Ha. apply Nat.ltb_lt in Hc.
      assert (Hp : In (nth j se (PInt 0, PInt 0)) se) by (apply nth_In; exact Hj).
      destruct (in_se_flat _ _ Hp) as [Hs He].
      destruct (bins_index se _ Hs) as [Hs1 Hs2].
      destruct (bins_index se _ He) as [He1 He2]. fold B f in Hs1, Hs2, He1, He2.
      split; [exact Hj|]. split.
      * rewrite <- Hs2. apply strict_nth_le_iff;
          [apply np_unique_strict|exact Hs1|lia|exact Ha].
      * rewrite <- He2. apply strict_nth_le_iff;
          [apply np_unique_strict|lia|exact He1|lia].
    + intros [Hj [Hs Hc]].
      assert (Hp : In (nth j se (PInt 0, PInt 0)) se) by (apply nth_In; exact Hj).
      destruct (in_se_flat _ _ Hp) as [Hs' He'].
      destruct (bins_index se _ Hs') as [Hs1 Hs2].
      destruct (bins_index se _ He') as [He1 He2]. fold B f in Hs1, Hs2, He1, He2.
      split; [split; [lia|exact Hj]|].
      unfold covers_idx. rewrite Nat.sub_0_r, Hpair by exact Hj.
      apply andb_true_iff. split.
      * apply Nat.leb_le. rewrite <- Hs2 in Hs.
        apply (strict_nth_le_iff B (PInt 0)) in Hs;
          [exact Hs|apply np_unique_strict|exact Hs1|lia].
      * apply Nat.ltb_lt. rewrite <- He2 in Hc.
        apply (strict_nth_le_iff B (PInt 0)) in Hc;
          [lia|apply np_unique_strict|lia|exact He1].
  - intro i. rewrite Hn, nth_repeat_nil. simpl.
    apply StronglySorted_filter. apply StronglySorted_seq.
Qed.

(** What both paths of the flattener establish about bins and tags. *)
Definition flat_props (se : se_array) (bins : list pynum) (tags : list (list nat)) : Prop :=
  StronglySorted pylt bins /\ length tags = (length bins - 1)%nat /\
  (forall i j, (i < length tags)%nat -> (In j (nth i tags []) <-> covers se bins i j)) /\
  (forall i, StronglySorted lt (nth i tags [])) /\
  (forall v, In v bins -> exists w, In w (se_flat se) /\ (pyq v == pyq w)%Q) /\
  (forall w, In w (se_flat se) -> exists v, In v bins /\ (pyq v == pyq w)%Q).

Lemma general_props (se : se_array) :
  let B := np_unique py_le py_eq (se_flat se) in
  exists li,
    tag_loop (repeat [] (length B - 1)) 0
             (reshape2 (map (index_of py_eq B) (se_flat se))) = inr li /\
    flat_props se B li.
Proof.
  intro B. destruct (general_tags se) as [li [E [Hl [Hc Hs]]]].
  exists li. split; [exact E|]. fold B in Hl, Hc.
  split; [apply np_unique_strict|]. split; [exact Hl|].
  split; [exact Hc|]. split; [exact Hs|]. split.
  - intros v Hv. exists v. split; [apply (np_unique_incl _ _ Hv)|reflexivity].
  - intros w Hw. destruct (np_unique_cover _ _ Hw) as [v [Hv Hvw]].
    exists v. split; [exact Hv|]. apply py_eq_spec. exact Hvw.
Qed.

Lemma sorted_by_nth {A} (R : A -> A -> Prop) (l : list A) (d : A) :
  (forall k, (S k < length l)%nat -> R (nth k l d) (nth (S k) l d)) -> Sorted R l.
Proof.
  induction l as [|x l IH]; intro H; [constructor|].
  constructor.
  - apply IH. intros k Hk. apply (H (S k)). simpl. lia.
  - destruct l as [|y l]; constructor. apply (H 0%nat). simpl. lia.
Qed.

Lemma fast_props (se : se_array) :
  se <> [] ->
  (forall p, In p se -> (pyq (fst p) < pyq (snd p))%Q) ->
  (forall i, (S i < length se)%nat ->
     (pyq (fst (nth (S i) se (PInt 0, PInt 0))) ==
      pyq (snd (nth i se (PInt 0, PInt 0))))%Q) ->
  exists x e_last r, rev se = (x, e_last) :: r /\
    flat_props se (starts_of se ++ [e_last]) (map (fun i => [i]) (seq 0 (length se))).
Proof.
  intros Hne Hval Hcon.
  destruct (rev se) as [|[x e_last] r] eqn:Er.
  { apply (f_equal (@rev _)) in Er. rewrite rev_involutive in Er. contradiction. }
  exists x, e_last, r. split; [reflexivity|].
  assert (Ese : se = rev r ++ [(x, e_last)])
    by (rewrite <- (rev_involutive se), Er; reflexivity).
  set (n := length se). set (d := (PInt 0, PInt 0)).
  set (bins := starts_of se ++ [e_last]).
  assert (Hn : n = S (length r))
    by (unfold n; rewrite Ese, length_app, length_rev; simpl; lia).
  assert (Hlast : nth (n - 1) se d = (x, e_last)).
  { unfold n. rewrite Ese, length_app, length_rev. simpl.
    rewrite app_nth2 by (rewrite length_rev; lia).
    rewrite length_rev. replace (length r + 1 - 1 - length r)%nat with 0%nat by lia.
    reflexivity. }
  assert (Hbl : length bins = S n)
    by (unfold bins, starts_of; rewrite length_app, length_map; simpl; fold n; lia).
  assert (Hb1 : forall k, (k < n)%nat -> nth k bins (PInt 0) = fst (nth k se d)).
  { intros k Hk. unfold bins, starts_of.
    rewrite app_nth1 by (rewrite length_map; exact Hk).
    apply nth_map_d. exact Hk. }
  assert (Hb2 : forall k, (k < n)%nat ->
            (pyq (nth (S k) bins (PInt 0)) == pyq (snd (nth k se d)))%Q).
  { intros k Hk. destruct (Nat.eq_dec (S k) n) as [Ek|Ek].
    - unfold bins, starts_of. rewrite app_nth2 by (rewrite length_map; fold n; lia).
      rewrite length_map. fold n.
      replace (S k - n)%nat with 0%nat by lia. simpl.
      replace k with (n - 1)%nat by lia. rewrite Hlast. reflexivity.
    - rewrite Hb1 by lia. apply Hcon. fold n. lia. }
  assert (Hbin : forall k, (k < n)%nat -> In (nth k se d) se)
    by (intros k Hk; apply nth_In; exact Hk).
  assert (Hstrict : StronglySorted pylt bins).
  { apply Sorted_StronglySorted; [intros a b c; apply pylt_trans|].
    apply (sorted_by_nth _ _ (PInt 0)). intros k Hk. rewrite Hbl in Hk.
    unfold pylt. apply py_lt_spec. rewrite Hb1, Hb2 by lia.
    apply Hval. apply Hbin. lia. }
  assert (Htags : forall i, (i < n)%nat ->
            nth i (map (fun i => [i]) (seq 0 n)) [] = [i]).
  { intros i Hi. rewrite (nth_map_d _ _ 0%nat) by (rewrite length_seq; exact Hi).
    rewrite seq_nth by exact Hi. reflexivity. }
  split; [exact Hstrict|].
  split; [rewrite length_map, length_seq, Hbl; lia|].
  split; [|split; [|split]].
  - intros i j Hi. rewrite length_map, length_seq in Hi. fold n in Hi |- *.
    rewrite Htags by exact Hi. simpl. unfold covers. fold d. fold n. split.
    + intros [<-|[]]. split; [exact Hi|]. split.
      * rewrite Hb1 by exact Hi. apply Qle_refl.
      * rewrite Hb2 by exact Hi. apply Qle_refl.
    + intros [Hj [H1 H2]]. left.
      rewrite <- Hb1 in H1 by exact Hj. rewrite <- Hb2 in H2 by exact Hj.
      apply strict_nth_le_iff in H1; [|exact Hstrict|lia|lia].
      apply strict_nth_le_iff in H2; [|exact Hstrict|lia|lia].
      lia.
  - intro i. destruct (Nat.lt_ge_cases i n) as [Hi|Hi].
    + rewrite Htags by exact Hi. repeat constructor.
    + rewrite nth_overflow by (rewrite length_map, length_seq; exact Hi). constructor.
  - intros v Hv. unfold bins in Hv. apply in_app_or in Hv. destruct Hv as [Hv|[<-|[]]].
    + unfold starts_of in Hv. apply in_map_iff in Hv. destruct Hv as [p [<- Hp]].
      exists (fst p). split; [apply (in_se_flat _ _ Hp)|reflexivity].
    + exists e_last. split; [|reflexivity].
      assert (Hp : In (x, e_last) se) by (rewrite Ese; apply in_or_app; right; left; reflexivity).
      apply (in_se_flat _ _ Hp).
  - intros w Hw. apply in_se_flat_inv in Hw. destruct Hw as [p [Hp Hw]].
    destruct (In_nth se p d Hp) as [k [Hk Ek]]. fold n in Hk.
    destruct Hw as [ -> | -> ].
    + exists (nth k bins (PInt 0)). split; [apply nth_In; lia|].
      rewrite Hb1, Ek by exact Hk. reflexivity.
    + exists (nth (S k) bins (PInt 0)). split; [apply nth_In; lia|].
      rewrite Hb2, Ek by exact Hk. reflexivity.
Qed.

Lemma flattened_spec {L} (se0 : se_array) (labs : list L) (sr : pynum) s :
  SequenceLabels__init__ se0 labs sr = inr s ->
  exists (bins : list pynum) tags,
    _flattened_indices true s = (s, inr ((bins : flat_out true), tags)) /\
    flat_props (_starts_ends s) bins tags.
Proof.
  intro H. unfold _flattened_indices, bind.
  rewrite (starts_ends_fresh se0 labs sr s H).
  set (se := _starts_ends s).
  destruct (not_flat se) eqn:Ef.
  - destruct (general_props se) as [li [E Hp]].
    unfold lift. rewrite E.
    exists (np_unique py_le py_eq (se_flat se)), li. split; [reflexivity|exact Hp].
  - destruct (init_spec se0 labs sr s H)
      as (_ & _ & _ & _ & _ & (s0 & e0 & rest & Hse & _) & _).
    destruct (fast_props se) as [x [e_last [r [Er Hp]]]].
    + fold se in Hse. rewrite Hse. discriminate.
    + apply (init_valid se0 labs sr s H).
    + intros i Hi. destruct (Qeq_dec (pyq (fst (nth (S i) se (PInt 0, PInt 0))))
                                     (pyq (snd (nth i se (PInt 0, PInt 0))))) as [E|E];
        [exact E|].
      exfalso. assert (Hx : not_flat se = true)
        by (apply (not_flat_iff _ (PInt 0, PInt 0)); exists i; split; assumption).
      congruence.
    + rewrite Er. exists (starts_of se ++ [e_last]), (map (fun i => [i]) (seq 0 (length se))).
      split; [reflexivity|exact Hp].
Qed.

Lemma strict_head_le (l : list pynum) (v d : pynum) :
  StronglySorted pylt l -> In v l -> (pyq (nth 0 l d) <= pyq v)%Q.
Proof.
  intros Hs Hv. destruct Hs as [|x l Hs Hall]; [destruct Hv|].
  destruct Hv as [<-|Hv]; [apply Qle_refl|].
  rewrite Forall_forall in Hall. apply Qlt_le_weak. apply py_lt_spec. apply Hall. exact Hv.
Qed.

Lemma last_in {A} (l : list A) (d : A) : l <> [] -> In (last l d) l.
Proof.
  induction l as [|x l IH]; intro H; [contradiction|].
  destruct l as [|y l]; [left; reflexivity|].
  right. apply IH. discriminate.
Qed.

Lemma strict_le_last (l : list pynum) (v d : pynum) :
  StronglySorted pylt l -> In v l -> (pyq v <= pyq (last l d))%Q.
Proof.
  induction 1 as [|x l Hs IH Hall]; intro Hv; [destruct Hv|].
  destruct l as [|y l].
  - destruct Hv as [<-|[]]. apply Qle_refl.
  - change (last (x :: y :: l) d) with (last (y :: l) d).
    destruct Hv as [<-|Hv]; [|apply IH; exact Hv].
    rewrite Forall_forall in Hall. apply Qlt_le_weak. apply py_lt_spec. apply Hall.
    apply last_in. discriminate.
Qed.

Lemma seg_le_fst (x y : pynum * pynum) :
  seg_le x y = true -> (pyq (fst x) <= pyq (fst y))%Q.
Proof.
  destruct x as [a b], y as [c e]. simpl. intro H.
  apply orb_true_iff in H. destruct H as [H|H].
  - apply Qlt_le_weak. apply py_lt_spec. exact H.
  - apply andb_true_iff in H. destruct H as [H _]. apply py_eq_spec in H.
    rewrite H. apply Qle_refl.
Qed.

Lemma sorted_head_min (s0 e0 : pynum) (rest : se_array) :
  Sorted (fun x y => seg_le x y = true) ((s0, e0) :: rest) ->
  forall p, In p ((s0, e0) :: rest) -> (pyq s0 <= pyq (fst p))%Q.
Proof.
  intros Hs p Hp.
  assert (Hm : Sorted (fun a b => (pyq a <= pyq b)%Q) (map fst ((s0, e0) :: rest))).
  { clear Hp. induction Hs as [|x l Hs IH Hh]; simpl; constructor; [exact IH|].
    destruct Hh as [|y l H]; simpl; constructor. apply seg_le_fst. exact H. }
  apply Sorted_StronglySorted in Hm; [|intros a b c; apply Qle_trans].
  simpl in Hm. inversion Hm as [|? ? _ Hall]; subst.
  destruct Hp as [<-|Hp]; [apply Qle_refl|].
  rewrite Forall_forall in Hall. apply Hall. apply in_map. exact Hp.
Qed.

Lemma constructed_min_start {L} (se0 : se_array) (labs : list L) (sr : pynum) s :
  SequenceLabels__init__ se0 labs sr = inr s ->
  min_start s = (s, inr (_minstart_at_orig_sr s)).
Proof.
  intro H. destruct (init_spec se0 labs sr s H) as (_ & Hsr & _ & Ho & Hs & _).
  unfold min_start, bind, gets, lift. rewrite Ho, Hs.
  unfold _convert_samplerate. rewrite Hsr. simpl.
  rewrite py_eq_refl. reflexivity.
Qed.

(** Where the breakpoints start and end. *)
Lemma bins_bounds {L} (se0 : se_array) (labs : list L) (sr : pynum) s
    (bins : list pynum) (tags : list (list nat)) :
  SequenceLabels__init__ se0 labs sr = inr s ->
  flat_props (_starts_ends s) bins tags ->
  (2 <= length bins)%nat /\
  (pyq (nth 0 bins (PInt 0)) == pyq (_minstart_at_orig_sr s))%Q /\
  (forall p, In p (_starts_ends s) -> (pyq (snd p) <= pyq (last bins (PInt 0)))%Q) /\
  (exists p, In p (_starts_ends s) /\ (pyq (snd p) == pyq (last bins (PInt 0)))%Q).
Proof.
  intros H (Hs & Hl & Hc & Ht & Hv & Hw).
  destruct (init_spec se0 labs sr s H)
    as (_ & _ & _ & _ & _ & (s0 & e0 & rest & Hse & Hm) & Hsort & _).
  rewrite Hm.
  assert (Hval := init_valid se0 labs sr s H).
  set (se := _starts_ends s) in *.
  assert (Hp0 : In (s0, e0) se) by (rewrite Hse; left; reflexivity).
  destruct (in_se_flat _ _ Hp0) as [Hs0 He0]. simpl in Hs0, He0.
  destruct (Hw _ Hs0) as [v0 [Hv0 Ev0]].
  destruct (Hw _ He0) as [v1 [Hv1 Ev1]].
  assert (Hne : bins <> []) by (intro Hb; rewrite Hb in Hv0; destruct Hv0).
  split.
  { destruct bins as [|b [|b' r]]; [contradiction| |simpl; lia].
    exfalso. destruct Hv0 as [<-|[]]. destruct Hv1 as [<-|[]].
    assert (Hlt := Hval _ Hp0). simpl in Hlt. rewrite <- Ev0, <- Ev1 in Hlt.
    apply (Qlt_irrefl _ Hlt). }
  split.
  { apply Qle_antisym.
    - rewrite <- Ev0. apply strict_head_le; assumption.
    - assert (Hb0 : In (nth 0 bins (PInt 0)) bins)
        by (apply nth_In; destruct bins; [contradiction|simpl; lia]).
      destruct (Hv _ Hb0) as [w [Hw' Ew]]. rewrite Ew.
      apply in_se_flat_inv in Hw'. destruct Hw' as [p [Hp [ -> | -> ]]].
      + apply (sorted_head_min s0 e0 rest); [rewrite <- Hse; exact Hsort|].
        rewrite <- Hse. exact Hp.
      + apply Qle_trans with (pyq (fst p)).
        * apply (sorted_head_min s0 e0 rest); [rewrite <- Hse; exact Hsort|].
          rewrite <- Hse. exact Hp.
        * apply Qlt_le_weak. apply Hval. exact Hp. }
  split.
  { intros p Hp. destruct (Hw _ (proj2 (in_se_flat _ _ Hp))) as [v [Hvb Evb]].
    rewrite <- Evb. apply strict_le_last; assumption. }
  { destruct (Hv _ (last_in bins (PInt 0) Hne)) as [w [Hw' Ew]].
    apply in_se_flat_inv in Hw'. destruct Hw' as [p [Hp [ -> | -> ]]].
    - exfalso. destruct (Hw _ (proj2 (in_se_flat _ _ Hp))) as [v [Hvb Evb]].
      assert (Hle := strict_le_last bins v (PInt 0) Hs Hvb).
      assert (Hlt := Hval p Hp). rewrite Evb, Ew in Hle.
      apply (Qlt_not_le _ _ Hlt Hle).
    - exists p. split; [exact Hp|]. symmetry. exact Ew. }
Qed.

(** Claim C2 (as the code has it): for a constructed instance the flattener
    returns strictly increasing breakpoints [bins], so the bins
    [[bins[i], bins[i+1])] are contiguous and disjoint. The first breakpoint
    is [min_start]. The last one is the largest segment end, which is not
    always the end of the last stored segment ([max_end]). Tag list [i] holds,
    in ascending order, exactly the segments [j] with
    [start_j <= bins[i]] and [bins[i+1] <= end_j]. A bin inside a gap between
    segments therefore gets an empty tag list. *)
Theorem flattened_bins_cover {L} (se0 : se_array) (labs : list L) (sr : pynum) s :
  SequenceLabels__init__ se0 labs sr = inr s ->
  exists (bins : list pynum) tags m,
    _flattened_indices true s = (s, inr ((bins : flat_out true), tags)) /\
    min_start s = (s, inr m) /\
    StronglySorted pylt bins /\ (2 <= length bins)%nat /\
    (pyq (nth 0 bins (PInt 0)) == pyq m)%Q /\
    (forall p, In p (_starts_ends s) -> (pyq (snd p) <= pyq (last bins (PInt 0)))%Q) /\
    (exists p, In p (_starts_ends s) /\ (pyq (snd p) == pyq (last bins (PInt 0)))%Q) /\
    length tags = (length bins - 1)%nat /\
    (forall i j, (i < length tags)%nat ->
       (In j (nth i tags []) <-> covers (_starts_ends s) bins i j)) /\
    (forall i, StronglySorted lt (nth i tags [])).
Proof.
  intro H.
  destruct (flattened_spec se0 labs sr s H) as [bins [tags [E Hp]]].
  destruct (bins_bounds se0 labs sr s bins tags H Hp) as (H2 & H0 & Hle & Hex).
  destruct Hp as (Hs & Hl & Hc & Ht & _).
  exists bins, tags, (_minstart_at_orig_sr s).
  split; [exact E|]. split; [apply (constructed_min_start se0 labs sr s H)|].
  split; [exact Hs|]. split; [exact H2|]. split; [exact H0|].
  split; [exact Hle|]. split; [exact Hex|].
  split; [exact Hl|]. split; [exact Hc|exact Ht].
Qed.

(** A witness of C2: the instance with a gap, [[0,1]] and [[2,3]]. *)
Lemma flattened_bins_cover_witness :
  SequenceLabels__init__ [(PInt 0, PInt 1); (PInt 2, PInt 3)] [1; 2]%Z (PInt 1) =
    inr (mkSL [(PInt 0, PInt 1); (PInt 2, PInt 3)] [1; 2]%Z (PInt 1) (PInt 1) (PInt 0)) /\
  exists (bins : list pynum) tags,
    _flattened_indices true
      (mkSL [(PInt 0, PInt 1); (PInt 2, PInt 3)] [1; 2]%Z (PInt 1) (PInt 1) (PInt 0)) =
    (mkSL [(PInt 0, PInt 1); (PInt 2, PInt 3)] [1; 2]%Z (PInt 1) (PInt 1) (PInt 0),
     inr ((bins : flat_out true), tags)) /\
    length tags = (length bins - 1)%nat.
Proof.
  assert (E : SequenceLabels__init__ [(PInt 0, PInt 1); (PInt 2, PInt 3)] [1; 2]%Z (PInt 1) =
    inr (mkSL [(PInt 0, PInt 1); (PInt 2, PInt 3)] [1; 2]%Z (PInt 1) (PInt 1) (PInt 0)))
    by (vm_compute; reflexivity).
  split; [exact E|].
  destruct (flattened_bins_cover _ _ _ _ E)
    as (bins & tags & m & Hf & _ & _ & _ & _ & _ & _ & Hl & _).
  exists bins, tags. split; [exact Hf|exact Hl].
Defined.

(** Counterexample to C2 as worded. With a gap ([[0,1]], [[2,3]]) the bin
    [[1,2)] has no tags. With a nested segment ([[0,10]], [[1,2]]) the
    breakpoints run to [10], past [max_end = 2]. *)
Lemma flattened_bins_counterexample :
  (match SequenceLabels__init__ [(PInt 0, PInt 1); (PInt 2, PInt 3)] [1; 2]%Z (PInt 1) with
   | inr s => snd (_flattened_indices true s) =
              inr (([PInt 0; PInt 1; PInt 2; PInt 3] : flat_out true),
                   [[0%nat]; []; [1%nat]])
   | inl _ => False
   end) /\
  (match SequenceLabels__init__ [(PInt 0, PInt 10); (PInt 1, PInt 2)] [1; 2]%Z (PInt 1) with
   | inr s => snd (_flattened_indices true s) =
              inr (([PInt 0; PInt 1; PInt 2; PInt 10] : flat_out true),
                   [[0%nat]; [0%nat; 1%nat]; [0%nat]]) /\
              snd (max_end s) = inr (PInt 2)
   | inl _ => False
   end).
Proof. split; vm_compute; [reflexivity|split; reflexivity]. Qed.

(** ** [labels_at] on the overlapping example *)

(** Claim C4: for starts [0, 1, 3, 4.5], ends [1, 4.8, 5, 6], labels
    [1, 0, 2, 1] at rate 1, [labels_at([0.5, 1, 3.4, 4.8, 5.5, 6])] (default
    [()]) returns [(1,), (1,), (0, 2), (0, 2, 1), (1,), (1,)]. *)
Theorem labels_at_overlapping_example :
  match SequenceLabels__init__
          [(PInt 0, PInt 1); (PInt 1, mkfloat (48#10)); (PInt 3, PInt 5);
           (mkfloat (45#10), PInt 6)] [1; 0; 2; 1]%Z (PInt 1) with
  | inr s =>
      snd (labels_at (QIterable [mkfloat (5#10); PInt 1; mkfloat (34#10);
                                 mkfloat (48#10); mkfloat (55#10); PInt 6])
                     None tt 10 s) =
      inr [inr [1]; inr [1]; inr [0; 2]; inr [0; 2; 1]; inr [1]; inr [1]]%Z
  | inl _ => False
  end.
Proof. vm_compute. reflexivity. Qed.

(** ** Rounding *)

Lemma rint_near (q : Q) :
  (inject_Z (rint q) - (1#2) <= q /\ q <= inject_Z (rint q) + (1#2))%Q.
Proof.
  assert (F1 := Qfloor_le q). assert (F2 := Qlt_floor q).
  rewrite inject_Z_plus in F2. change (inject_Z 1) with 1%Q in F2.
  unfold rint. set (f := Qfloor q) in *.
  destruct (Qcompare_spec (q - inject_Z f) (1#2)) as [E|E|E].
  - destruct (Z.even f); [split; lra|].
    rewrite inject_Z_plus. change (inject_Z 1) with 1%Q. split; lra.
  - split; lra.
  - rewrite inject_Z_plus. change (inject_Z 1) with 1%Q. split; lra.
Qed.

Lemma rint_qeq (q1 q2 : Q) : (q1 == q2)%Q -> rint q1 = rint q2.
Proof.
  intro H. unfold rint. rewrite (Qfloor_comp q1 q2 H).
  replace (q1 - inject_Z (Qfloor q2) ?= 1 # 2)%Q
    with (q2 - inject_Z (Qfloor q2) ?= 1 # 2)%Q; [reflexivity|].
  apply Qcompare_comp; [rewrite H|]; reflexivity.
Qed.

Lemma rint_mono (q1 q2 : Q) : (q1 <= q2)%Q -> rint q1 <= rint q2.
Proof.
  intro H. destruct (Z.le_gt_cases (rint q1) (rint q2)) as [G|G]; [exact G|].
  exfalso.
  assert (G' : (inject_Z (rint q2) + 1 <= inject_Z (rint q1))%Q).
  { change 1%Q with (inject_Z 1). rewrite <- inject_Z_plus.
    rewrite <- Zle_Qle. lia. }
  destruct (rint_near q1) as [A1 _]. destruct (rint_near q2) as [_ B2].
  assert (E : (q1 == q2)%Q) by lra.
  rewrite (rint_qeq _ _ E) in G. lia.
Qed.

Lemma rint_Z (z : Z) : rint (inject_Z z) = z.
Proof.
  unfold rint. rewrite Qfloor_Z.
  destruct (Qcompare_spec (inject_Z z - inject_Z z) (1#2)) as [E|E|E];
    [exfalso; lra|reflexivity|exfalso; lra].
Qed.

(** The value [np.round(x, decimals)] has. *)
Definition round_q (decimals : nat) (v : Q) : Q :=
  let p := inject_Z (10 ^ Z.of_nat decimals) in inject_Z (rint (v * p)) / p.

Lemma pow10_pos (decimals : nat) : (0 < inject_Z (10 ^ Z.of_nat decimals))%Q.
Proof.
  change 0%Q with (inject_Z 0). rewrite <- Zlt_Qlt.
  apply Z.pow_pos_nonneg; lia.
Qed.

Lemma pyq_np_round (decimals : nat) (x : pynum) :
  (pyq (np_round decimals x) == round_q decimals (pyq x))%Q.
Proof.
  unfold round_q. assert (Hp := pow10_pos decimals).
  set (p := inject_Z (10 ^ Z.of_nat decimals)) in *.
  destruct x as [z|q].
  - unfold np_round, pyq. unfold p. rewrite <- inject_Z_mult, rint_Z, inject_Z_mult. fold p.
    field. apply Qnot_eq_sym. apply Qlt_not_eq. exact Hp.
  - unfold np_round. rewrite pyq_mkfloat. fold p. reflexivity.
Qed.

Lemma round_q_mono (decimals : nat) (v1 v2 : Q) :
  (v1 <= v2)%Q -> (round_q decimals v1 <= round_q decimals v2)%Q.
Proof.
  intro H. unfold round_q. assert (Hp := pow10_pos decimals).
  set (p := inject_Z (10 ^ Z.of_nat decimals)) in *.
  apply Qmult_le_compat_r; [|apply Qlt_le_weak; apply Qinv_lt_0_compat; exact Hp].
  rewrite <- Zle_Qle. apply rint_mono. apply Qmult_le_compat_r; [exact H|].
  apply Qlt_le_weak. exact Hp.
Qed.

Lemma round_q_qeq (decimals : nat) (v1 v2 : Q) :
  (v1 == v2)%Q -> (round_q decimals v1 == round_q decimals v2)%Q.
Proof.
  intro H. unfold round_q.
  rewrite (rint_qeq (v1 * inject_Z (10 ^ Z.of_nat decimals))
                    (v2 * inject_Z (10 ^ Z.of_nat decimals))); [reflexivity|].
  rewrite H. reflexivity.
Qed.

Lemma np_round_int (decimals : nat) (a : list pynum) :
  all_int a = true -> map (np_round decimals) a = a.
Proof.
  induction a as [|x a IH]; intro H; [reflexivity|].
  simpl in H |- *. apply andb_true_iff in H. destruct H as [Hx Ha].
  rewrite IH by exact Ha. destruct x; [reflexivity|discriminate].
Qed.

(** [np.round] is the identity on int arrays, so in [labels_at] both arrays
    end up rounded whichever branch is taken. *)
Lemma maybe_round_eq (decimals : nat) (bins ends : list pynum) :
  maybe_round decimals bins ends =
  (map (np_round decimals) bins, map (np_round decimals) ends).
Proof.
  unfold maybe_round. destruct (all_int ends) eqn:Ee, (all_int bins) eqn:Eb;
    simpl; try reflexivity.
  rewrite !np_round_int by assumption. reflexivity.
Qed.

(** ** [searchsorted] and [np.unique] on bin indices *)

Lemma searchsorted_spec (a : list pynum) (v d : pynum) :
  (searchsorted_left a v <= length a)%nat /\
  (forall k, (k < searchsorted_left a v)%nat -> (pyq (nth k a d) < pyq v)%Q) /\
  ((searchsorted_left a v < length a)%nat -> (pyq v <= pyq (nth (searchsorted_left a v) a d))%Q).
Proof.
  induction a as [|x a IH]; simpl.
  - split; [lia|]. split; [intros k Hk; lia|intro H; lia].
  - destruct (py_lt x v) eqn:E.
    + destruct IH as [H1 [H2 H3]]. split; [lia|]. split.
      * intros [|k] Hk; [apply py_lt_spec; exact E|]. apply H2. lia.
      * intro H. apply H3. lia.
    + split; [lia|]. split; [intros k Hk; lia|].
      intros _. rewrite <- not_true_iff_false, py_lt_spec in E.
      apply Qnot_lt_le. exact E.
Qed.

Lemma StronglySorted_map {A B} (R : A -> A -> Prop) (R' : B -> B -> Prop) (f : A -> B)
    (l : list A) :
  (forall x y, R x y -> R' (f x) (f y)) -> StronglySorted R l -> StronglySorted R' (map f l).
Proof.
  intros Hf. induction 1 as [|x l Hs IH Hall]; simpl; constructor; [exact IH|].
  rewrite Forall_forall in *. intros y Hy. apply in_map_iff in Hy.
  destruct Hy as [z [<- Hz]]. apply Hf. apply Hall. exact Hz.
Qed.

Definition pyle (x y : pynum) : Prop := (pyq x <= pyq y)%Q.

Lemma rounded_bins_sorted (r : nat) (bins : list pynum) :
  StronglySorted pylt bins -> StronglySorted pyle (map (np_round r) bins).
Proof.
  apply StronglySorted_map. intros x y H. unfold pyle.
  rewrite !pyq_np_round. apply round_q_mono. apply Qlt_le_weak. apply py_lt_spec. exact H.
Qed.

Lemma sorted_nth_le (u : list pynum) (d : pynum) (i j : nat) :
  StronglySorted pyle u -> (i <= j)%nat -> (j < length u)%nat ->
  (pyq (nth i u d) <= pyq (nth j u d))%Q.
Proof.
  intro Hs. revert i j. induction Hs as [|x u Hs IH Hall]; intros i j Hij Hj;
    simpl in Hj; [lia|].
  destruct i as [|i].
  - destruct j as [|j]; [apply Qle_refl|]. simpl.
    rewrite Forall_forall in Hall. apply Hall. apply nth_In. lia.
  - destruct j as [|j]; [lia|]. simpl. apply IH; lia.
Qed.

Lemma dedup_cover_nat (l : list nat) (w : nat) :
  In w l -> In w (dedup_sorted Nat.eqb l).
Proof.
  induction l as [|x l IH]; [simpl; tauto|].
  intros Hw. destruct l as [|y l]; [exact Hw|].
  change (dedup_sorted Nat.eqb (x :: y :: l)) with
    (if Nat.eqb x y then dedup_sorted Nat.eqb (y :: l)
     else x :: dedup_sorted Nat.eqb (y :: l)).
  destruct (Nat.eqb_spec x y) as [<-|Hxy].
  - destruct Hw as [<-|Hw]; apply IH; [left; reflexivity|exact Hw].
  - destruct Hw as [<-|Hw]; [left; reflexivity|right; apply IH; exact Hw].
Qed.

Lemma dedup_incl_nat (l : list nat) (v : nat) :
  In v (dedup_sorted Nat.eqb l) -> In v l.
Proof.
  induction l as [|x l IH]; [simpl; tauto|].
  destruct l as [|y l]; [simpl; tauto|].
  change (dedup_sorted Nat.eqb (x :: y :: l)) with
    (if Nat.eqb x y then dedup_sorted Nat.eqb (y :: l)
     else x :: dedup_sorted Nat.eqb (y :: l)).
  destruct (Nat.eqb x y).
  - intro H. right. apply IH. exact H.
  - intros [H|H]; [left; exact H|right; apply IH; exact H].
Qed.

Lemma np_unique_nat_iff (l : list nat) (v : nat) :
  In v (np_unique Nat.leb Nat.eqb l) <-> In v l.
Proof.
  unfold np_unique. split; intro H.
  - apply dedup_incl_nat in H. apply (Permutation_in _ (isort_perm _ _ _)) in H. exact H.
  - apply dedup_cover_nat.
    apply (Permutation_in _ (Permutation_sym (isort_perm _ Nat.leb l))). exact H.
Qed.

Lemma index_of_nat (u : list nat) (x : nat) :
  In x u -> (index_of Nat.eqb u x < length u)%nat /\ nth (index_of Nat.eqb u x) u 0%nat = x.
Proof.
  induction u as [|y u IH]; intro Hx; [destruct Hx|].
  simpl. destruct (Nat.eqb_spec y x) as [<-|Hyx].
  - split; [lia|reflexivity].
  - destruct Hx as [Hx|Hx]; [contradiction|].
    destruct (IH Hx) as [H1 H2]. split; [lia|exact H2].
Qed.

Lemma mapM_total {A B} (f : A -> result B) (h : A -> B) (l : list A) :
  (forall x, In x l -> f x = inr (h x)) -> mapM f l = inr (map h l).
Proof.
  induction l as [|x l IH]; intro H; [reflexivity|].
  simpl. rewrite (H x (or_introl eq_refl)), IH by (intros; apply H; right; assumption).
  reflexivity.
Qed.

Lemma mapM_length {A B} (f : A -> result B) (l : list A) (r : list B) :
  mapM f l = inr r -> length r = length l.
Proof.
  revert r. induction l as [|x l IH]; intros r H; simpl in H.
  - injection H as <-. reflexivity.
  - destruct (f x), (mapM f l) eqn:E; try discriminate.
    injection H as <-. simpl. f_equal. apply IH. reflexivity.
Qed.

(** [unique_res_labels[bin_idx]]: the inverse indices of [np.unique] give back
    the value computed for each original element. *)
Lemma take_unique_inverse {B} (h : nat -> B) (X : list nat) (d : B) :
  let U := np_unique Nat.leb Nat.eqb X in
  np_take (map h U) (map (index_of Nat.eqb U) X) = inr (map h X).
Proof.
  intro U.
  rewrite (np_take_map _ _ d).
  - rewrite map_map. f_equal. apply map_ext_in. intros x Hx.
    assert (HU : In x U) by (apply np_unique_nat_iff; exact Hx).
    destruct (index_of_nat U x HU) as [H1 H2].
    rewrite (nth_map_d _ _ 0%nat) by exact H1. rewrite H2. reflexivity.
  - intros i Hi. apply in_map_iff in Hi. destruct Hi as [x [<- Hx]].
    rewrite length_map. apply index_of_nat. apply np_unique_nat_iff. exact Hx.
Qed.

(** The entry [bin_labels] gives for a bin index, [default_label] on an error
    (none occurs on a constructed instance, see below). *)
Definition bin_value {L D} (labs : list L) (labels_idx : list (list nat))
    (nbins : nat) (default_label : D) (idx : nat) : D + list L :=
  match bin_labels labs labels_idx nbins default_label idx with
  | inr y => y
  | inl _ => inl default_label
  end.

Lemma labels_at_constructed {L D} (se0 : se_array) (labs : list L) (sr : pynum) s
    (q : query) (dl : D) (r : nat) :
  SequenceLabels__init__ se0 labs sr = inr s ->
  exists (bins : list pynum) tags,
    _flattened_indices true s = (s, inr ((bins : flat_out true), tags)) /\
    flat_props (_starts_ends s) bins tags /\
    (forall idx, (idx <= length bins)%nat ->
       bin_labels (labels s) tags (length bins) dl idx =
       inr (bin_value (labels s) tags (length bins) dl idx)) /\
    labels_at q None dl r s =
    (s, inr (map (fun v => bin_value (labels s) tags (length bins) dl
                             (searchsorted_left (map (np_round r) bins) v))
                 (map (np_round r) (ends_array q)))).
Proof.
  intro H.
  destruct (flattened_spec se0 labs sr s H) as [bins [tags [Ef Hp]]].
  destruct (init_spec se0 labs sr s H)
    as (_ & Hsr & _ & _ & Hs & _ & _ & _ & Hlab).
  exists bins, tags. split; [exact Ef|]. split; [exact Hp|].
  destruct Hp as (_ & Hl & Hc & _).
  assert (Hb : forall idx, (idx <= length bins)%nat ->
            bin_labels (labels s) tags (length bins) dl idx =
            inr (bin_value (labels s) tags (length bins) dl idx)).
  { intros idx Hi. unfold bin_value.
    destruct (bin_labels (labels s) tags (length bins) dl idx) eqn:E; [|reflexivity].
    exfalso. revert E. unfold bin_labels.
    destruct (negb (idx =? 0)%nat && negb (idx =? length bins)%nat) eqn:Ei;
      [|discriminate].
    apply andb_true_iff in Ei. destruct Ei as [E1 E2].
    apply negb_true_iff, Nat.eqb_neq in E1. apply negb_true_iff, Nat.eqb_neq in E2.
    rewrite (nth_error_nth' tags [] (n := (idx - 1)%nat)) by lia.
    destruct (nth (idx - 1) tags []) as [|j0 l] eqn:Et; [discriminate|].
    assert (Hall : forall j, In j (j0 :: l) -> (j < length (labels s))%nat).
    { intros j Hj. rewrite <- Et in Hj. apply (Hc (idx - 1)%nat j) in Hj; [|lia].
      destruct Hj as [Hj _]. rewrite Hlab. exact Hj. }
    destruct (labels s) as [|l0 ls] eqn:El.
    + specialize (Hall j0 (or_introl eq_refl)). simpl in Hall. lia.
    + rewrite (np_take_map (l0 :: ls) (j0 :: l) l0) by exact Hall. discriminate. }
  split; [exact Hb|].
  unfold labels_at, bind. rewrite samplerate_as_eq. cbv zeta.
  rewrite Hs, Hsr, <- Hs, set_sr_same, Ef, set_sr_same.
  rewrite maybe_round_eq. unfold gets, lift.
  rewrite (mapM_total _ (bin_value (labels s) tags (length (map (np_round r) bins)) dl)).
  - rewrite (take_unique_inverse _ _ (inl dl)). rewrite map_map, length_map. reflexivity.
  - intros x Hx. apply (proj1 (np_unique_nat_iff _ _)) in Hx. apply in_map_iff in Hx.
    destruct Hx as [v [<- _]]. rewrite length_map. apply Hb.
    destruct (searchsorted_spec (map (np_round r) bins) v (PInt 0)) as [H1 _].
    rewrite length_map in H1. exact H1.
Qed.

Lemma np_array1_length (a : list pynum) : length (np_array1 a) = length a.
Proof. unfold np_array1. destruct (all_int a); [reflexivity|apply length_map]. Qed.

Lemma last_nth {A} (l : list A) (d : A) : last l d = nth (length l - 1) l d.
Proof.
  induction l as [|x l IH]; [reflexivity|].
  destruct l as [|y l]; [reflexivity|].
  change (last (x :: y :: l) d) with (last (y :: l) d). rewrite IH.
  simpl. rewrite Nat.sub_0_r. reflexivity.
Qed.

(** Claim C3 (as the code has it): write [R] for [np.round(., rounded)]
    ([R] is the identity on ints). For a constructed instance queried at its
    own rate, a query [t] gets [default_label] when [R t <= R min_start] or
    [R t > R emax], where [emax] is the largest segment end. Otherwise [R t]
    lies in one bin [(R bins[i], R bins[i+1]]] and gets the tuple of labels
    tagged to that bin, or [default_label] when the bin has no tags. A query
    equal to [max_end] is inside the last bin when [max_end] is the largest
    end. *)
Theorem labels_at_outside_default {L D} (se0 : se_array) (labs : list L) (sr : pynum) s
    (ts : list pynum) (dl : D) (r : nat) :
  SequenceLabels__init__ se0 labs sr = inr s ->
  exists (bins : list pynum) tags m emax res,
    _flattened_indices true s = (s, inr ((bins : flat_out true), tags)) /\
    min_start s = (s, inr m) /\
    In emax (ends_of (_starts_ends s)) /\
    (forall e, In e (ends_of (_starts_ends s)) -> (pyq e <= pyq emax)%Q) /\
    labels_at (QIterable ts) None dl r s = (s, inr res) /\
    length res = length ts /\
    forall k, (k < length ts)%nat ->
      let t := np_round r (nth k (ends_array (QIterable ts)) (PInt 0)) in
      (((pyq t <= pyq (np_round r m))%Q \/ (pyq (np_round r emax) < pyq t)%Q) ->
         nth k res (inl dl) = inl dl) /\
      ((pyq (np_round r m) < pyq t)%Q -> (pyq t <= pyq (np_round r emax))%Q ->
         exists i, (i < length tags)%nat /\
           (pyq (np_round r (nth i bins (PInt 0))) < pyq t)%Q /\
           (pyq t <= pyq (np_round r (nth (S i) bins (PInt 0))))%Q /\
           ((nth i tags [] = [] /\ nth k res (inl dl) = inl dl) \/
            (exists ls, nth i tags [] <> [] /\
               np_take (labels s) (nth i tags []) = inr ls /\
               nth k res (inl dl) = inr ls))).
Proof.
  intro H.
  destruct (labels_at_constructed se0 labs sr s (QIterable ts) dl r H)
    as [bins [tags [Ef [Hp [Hb Hla]]]]].
  destruct (bins_bounds se0 labs sr s bins tags H Hp) as (H2 & H0 & Hle & [p [Hpin Hpe]]).
  destruct Hp as (Hs & Hl & _).
  set (n := length bins) in *.
  set (rb := map (np_round r) bins).
  set (F := fun v => bin_value (labels s) tags n dl (searchsorted_left rb v)).
  exists bins, tags, (_minstart_at_orig_sr s), (snd p),
    (map F (map (np_round r) (ends_array (QIterable ts)))).
  split; [exact Ef|]. split; [apply (constructed_min_start se0 labs sr s H)|].
  split; [apply in_map; exact Hpin|].
  split.
  { intros e He. apply in_map_iff in He. destruct He as [p' [<- Hp']].
    rewrite Hpe. apply Hle. exact Hp'. }
  split; [exact Hla|].
  split; [rewrite !length_map; apply np_array1_length|].
  intros k Hk t.
  assert (HT : (k < length (ends_array (QIterable ts)))%nat)
    by (unfold ends_array; rewrite np_array1_length; exact Hk).
  assert (Hres : nth k (map F (map (np_round r) (ends_array (QIterable ts)))) (inl dl) = F t).
  { rewrite (nth_map_d _ _ (PInt 0)) by (rewrite length_map; exact HT).
    rewrite (nth_map_d _ _ (PInt 0)) by exact HT. reflexivity. }
  rewrite Hres.
  assert (Hrb : forall j, (j < n)%nat -> nth j rb (PInt 0) = np_round r (nth j bins (PInt 0)))
    by (intros j Hj; apply nth_map_d; exact Hj).
  assert (Hrbn : length rb = n) by apply length_map.
  assert (Hsort : StronglySorted pyle rb) by (apply rounded_bins_sorted; exact Hs).
  assert (Hm0 : (pyq (np_round r (_minstart_at_orig_sr s)) == pyq (nth 0 rb (PInt 0)))%Q).
  { rewrite Hrb by lia. rewrite !pyq_np_round. apply round_q_qeq. symmetry. exact H0. }
  assert (Hmn : (pyq (np_round r (snd p)) == pyq (nth (n - 1) rb (PInt 0)))%Q).
  { rewrite Hrb by lia. rewrite !pyq_np_round. apply round_q_qeq.
    rewrite Hpe, last_nth. reflexivity. }
  destruct (searchsorted_spec rb t (PInt 0)) as (S1 & S2 & S3).
  rewrite Hrbn in S1, S3.
  set (idx := searchsorted_left rb t) in *.
  assert (Fdef : forall i, i = 0%nat \/ i = n -> bin_value (labels s) tags n dl i = inl dl).
  { intros i Hi. unfold bin_value, bin_labels.
    replace (negb (i =? 0)%nat && negb (i =? n)%nat) with false; [reflexivity|].
    destruct Hi as [->| ->]; [reflexivity|]. rewrite Nat.eqb_refl, andb_false_r.
    reflexivity. }
  split.
  - intros [Ho|Ho]; unfold F; fold idx; apply Fdef.
    + left. destruct idx as [|i] eqn:Ei; [reflexivity|]. exfalso.
      assert (X := S2 0%nat ltac:(lia)). rewrite <- Hm0 in X.
      apply (Qlt_not_le _ _ X Ho).
    + right. destruct (Nat.lt_ge_cases idx n) as [Hi|Hi]; [|lia]. exfalso.
      assert (X := S3 Hi).
      assert (Y := sorted_nth_le rb (PInt 0) idx (n - 1) Hsort ltac:(lia) ltac:(lia)).
      rewrite <- Hmn in Y. apply (Qlt_not_le _ _ Ho). apply (Qle_trans _ _ _ X Y).
  - intros Hlo Hhi.
    assert (Hi0 : idx <> 0%nat).
    { intro Ei. assert (X := S3 ltac:(lia)). rewrite Ei, <- Hm0 in X.
      apply (Qlt_not_le _ _ Hlo X). }
    assert (Hin : idx <> n).
    { intro Ei. assert (X := S2 (n - 1)%nat ltac:(lia)). rewrite <- Hmn in X.
      apply (Qlt_not_le _ _ X Hhi). }
    destruct idx as [|i] eqn:Ei; [contradiction|].
    exists i. split; [lia|].
    split; [rewrite <- Hrb by lia; apply S2; lia|].
    split; [rewrite <- Hrb by lia; apply S3; lia|].
    unfold F. fold idx. rewrite Ei.
    assert (HB := Hb (S i) ltac:(lia)).
    set (Y := bin_value (labels s) tags n dl (S i)) in *. clearbody Y.
    revert HB. unfold bin_labels.
    replace (negb (S i =? 0)%nat && negb (S i =? n)%nat) with true
      by (symmetry; apply andb_true_iff; split; apply negb_true_iff, Nat.eqb_neq; lia).
    rewrite Nat.sub_1_r. simpl Nat.pred.
    rewrite (nth_error_nth' tags [] (n := i)) by lia.
    destruct (nth i tags []) as [|j l] eqn:Et.
    + intro HB. injection HB as <-. left. split; reflexivity.
    + destruct (np_take (labels s) (j :: l)) as [e|ls] eqn:Etk; [discriminate|].
      intro HB. injection HB as <-. right. exists ls.
      split; [discriminate|]. split; reflexivity.
Qed.

(** A witness of C3: the overlapping example queried at [6]. *)
Lemma labels_at_outside_default_witness :
  exists s,
    SequenceLabels__init__
      [(PInt 0, PInt 1); (PInt 1, mkfloat (48#10)); (PInt 3, PInt 5);
       (mkfloat (45#10), PInt 6)] [1; 0; 2; 1]%Z (PInt 1) = inr s /\
    exists res, labels_at (QIterable [PInt 6]) None tt 10 s = (s, inr res) /\
                length res = 1%nat.
Proof.
  destruct (SequenceLabels__init__
      [(PInt 0, PInt 1); (PInt 1, mkfloat (48#10)); (PInt 3, PInt 5);
       (mkfloat (45#10), PInt 6)] [1; 0; 2; 1]%Z (PInt 1)) as [e|s] eqn:E.
  - vm_compute in E. discriminate E.
  - exists s. split; [reflexivity|].
    destruct (labels_at_outside_default _ _ _ s [PInt 6] tt 10 E)
      as (bins & tags & m & emax & res & _ & _ & _ & _ & Hl & Hlen & _).
    exists res. split; [exact Hl|exact Hlen].
Defined.

(** Counterexample to C3 as worded: on the overlapping example a query
    equal to [max_end = 6] gets [(1,)], not the default. *)
Lemma labels_at_outside_counterexample :
  match SequenceLabels__init__
          [(PInt 0, PInt 1); (PInt 1, mkfloat (48#10)); (PInt 3, PInt 5);
           (mkfloat (45#10), PInt 6)] [1; 0; 2; 1]%Z (PInt 1) with
  | inr s =>
      snd (max_end s) = inr (mkfloat (6#1)) /\
      snd (labels_at (QIterable [PInt 6]) None tt 10 s) = inr [inr [1%Z]]
  | inl _ => False
  end.
Proof. vm_compute. split; reflexivity. Qed.

(** ** Scalar queries *)

Definition c_len {L D} (c : c_result L D) : nat :=
  match c with CArray a => length a | CList l => length l end.

Lemma labels_at_length {L D} (q : query) (sr : option pynum) (dl : D) (r : nat)
    (s s' : SequenceLabels L) res :
  labels_at q sr dl r s = (s', inr res) -> length res = length (ends_array q).
Proof.
  unfold labels_at, bind.
  destruct (samplerate_as sr (_flattened_indices true) s) as [s1 [e|[bins tags]]];
    [discriminate|].
  rewrite maybe_round_eq. unfold gets, lift.
  destruct (mapM _ _) as [e|V]; [discriminate|].
  intro E. injection E as _ E. apply np_take_length in E.
  rewrite E, !length_map. reflexivity.
Qed.

Lemma samplerate_as_raise {L A} (sr : option pynum) (e : exn) (s : SequenceLabels L) :
  exists s1 e1, samplerate_as sr (@raise L A e) s = (s1, inl e1).
Proof.
  rewrite samplerate_as_eq. cbv zeta.
  destruct (py_le _ (PInt 0)); [eexists; eexists; reflexivity|].
  unfold raise. eexists; eexists; reflexivity.
Qed.

Lemma c_labels_at_length {L} `{NpDtype L} {D} (q : query) (sr : option pynum)
    (dl : default_policy L D) (r : nat) (s s' : SequenceLabels L) res :
  c_labels_at q sr dl r s = (s', inr res) -> c_len res = length (ends_array q).
Proof.
  unfold c_labels_at, bind.
  destruct (samplerate_as sr _ s) as [s1 [e|bins]]; [discriminate|].
  rewrite maybe_round_eq. unfold gets, lift, ret.
  set (n := length (ends_array q)).
  set (bi := map (searchsorted_left (map (np_round r) bins)) (map (np_round r) (ends_array q))).
  assert (Hbi : length bi = n) by (unfold bi; rewrite !length_map; reflexivity).
  destruct (existsb _ _).
  - destruct dl as [| | |l|d].
    + destruct (@samplerate_as_raise L (c_result L D) sr KeyError s1) as [s2 [e2 E2]].
      rewrite E2. discriminate.
    + destruct (mapM _ _) as [e|res0] eqn:Em; [discriminate|].
      intro E. injection E as _ <-. simpl. apply mapM_length in Em.
      rewrite Em, length_combine, !length_map. fold bi. lia.
    + destruct (mapM _ _) as [e|res0] eqn:Em; [discriminate|].
      intro E. injection E as _ <-. simpl. apply mapM_length in Em.
      rewrite length_map, length_combine, Em, length_combine, !length_map. fold bi. lia.
    + destruct (mapM _ _) as [e|res0] eqn:Em; [discriminate|].
      intro E. injection E as _ <-. simpl. apply mapM_length in Em.
      rewrite length_map, length_combine, Em, length_combine, !length_map. fold bi. lia.
    + destruct (mapM _ _) as [e|res0] eqn:Em; [discriminate|].
      intro E. injection E as _ <-. simpl. apply mapM_length in Em.
      rewrite length_map, length_combine, Em, length_combine, !length_map. fold bi. lia.
  - destruct (np_take _ _) as [e|res0] eqn:Et; [discriminate|].
    intro E. injection E as _ <-. simpl. apply np_take_length in Et.
    rewrite Et, length_map. fold bi. exact Hbi.
Qed.

(** Claim C10 (as the code has it): a lone number [t] is wrapped as [[t]].
    So [labels_at(t, ...)] is [labels_at([t], ...)] in both classes: the same
    exception, or the same result, which then has length 1. *)
Theorem labels_at_scalar_batch {L} `{NpDtype L} {D} (t : pynum) (sr : option pynum)
    (dl : D) (dlc : default_policy L D) (r : nat) (s : SequenceLabels L) :
  labels_at (QScalar t) sr dl r s = labels_at (QIterable [t]) sr dl r s /\
  c_labels_at (QScalar t) sr dlc r s = c_labels_at (QIterable [t]) sr dlc r s /\
  (forall s' res, labels_at (QScalar t) sr dl r s = (s', inr res) -> length res = 1%nat) /\
  (forall s' res, c_labels_at (QScalar t) sr dlc r s = (s', inr res) -> c_len res = 1%nat).
Proof.
  split; [reflexivity|]. split; [reflexivity|]. split.
  - intros s' res E. rewrite (labels_at_length _ _ _ _ s s' res E).
    unfold ends_array. apply np_array1_length.
  - intros s' res E. rewrite (c_labels_at_length _ _ _ _ s s' res E).
    unfold ends_array. apply np_array1_length.
Qed.

(** A witness of C10: the contiguous example queried at the lone number [2]
    with the ['zeros'] policy. *)
Lemma labels_at_scalar_batch_witness :
  exists s,
    ContiguousSequenceLabels__init__
      [(PInt 0, PInt 1); (PInt 1, PInt 3); (PInt 3, mkfloat (45#10));
       (mkfloat (45#10), PInt 6)] [1; 0; 2; 1]%Z (PInt 1) = inr s /\
    exists s' res,
      c_labels_at (QScalar (PInt 2)) None (@DZeros Z unit) 10 s = (s', inr res) /\
      c_len res = 1%nat.
Proof.
  destruct (ContiguousSequenceLabels__init__
      [(PInt 0, PInt 1); (PInt 1, PInt 3); (PInt 3, mkfloat (45#10));
       (mkfloat (45#10), PInt 6)] [1; 0; 2; 1]%Z (PInt 1)) as [e|s] eqn:E.
  - vm_compute in E. discriminate E.
  - exists s. split; [reflexivity|].
    destruct (c_labels_at (QScalar (PInt 2)) None (@DZeros Z unit) 10 s)
      as [s' [e|res]] eqn:Ec.
    + exfalso. vm_compute in E. injection E as <-. vm_compute in Ec. discriminate Ec.
    + exists s', res. split; [reflexivity|].
      apply (proj2 (proj2 (proj2 (labels_at_scalar_batch (PInt 2) None tt DZeros 10 s))) s').
      exact Ec.
Defined.

(** Counterexample to C10 as worded: the lone query [-1] on the contiguous
    example with the ['raise'] policy is not accepted; it raises [KeyError]. *)
Lemma labels_at_scalar_counterexample :
  match ContiguousSequenceLabels__init__
          [(PInt 0, PInt 1); (PInt 1, PInt 3); (PInt 3, mkfloat (45#10));
           (mkfloat (45#10), PInt 6)] [1; 0; 2; 1]%Z (PInt 1) with
  | inr s => snd (c_labels_at (QScalar (PInt (-1))) None (@DRaise Z unit) 10 s) = inl KeyError
  | inl _ => False
  end.
Proof. vm_compute. reflexivity. Qed.

(** ** [ContiguousSequenceLabels.labels_at] *)

Lemma searchsorted_cases (rb : list pynum) (t : pynum) :
  StronglySorted pyle rb -> rb <> [] ->
  (((searchsorted_left rb t =? 0)%nat || (searchsorted_left rb t =? length rb)%nat) = true <->
   ((pyq t <= pyq (nth 0 rb (PInt 0)))%Q \/
    (pyq (nth (length rb - 1) rb (PInt 0)) < pyq t)%Q)) /\
  (((searchsorted_left rb t =? 0)%nat || (searchsorted_left rb t =? length rb)%nat) = false ->
   exists i, searchsorted_left rb t = S i /\ (S i < length rb)%nat /\
     (pyq (nth i rb (PInt 0)) < pyq t)%Q /\ (pyq t <= pyq (nth (S i) rb (PInt 0)))%Q).
Proof.
  intros Hs Hne.
  assert (Hn : (0 < length rb)%nat) by (destruct rb; [contradiction|simpl; lia]).
  destruct (searchsorted_spec rb t (PInt 0)) as (S1 & S2 & S3).
  set (idx := searchsorted_left rb t) in *.
  split.
  - rewrite orb_true_iff, !Nat.eqb_eq. split.
    + intros [E|E].
      * left. rewrite <- E. apply S3. lia.
      * right. apply S2. lia.
    + intros [Ho|Ho].
      * left. destruct idx as [|i]; [reflexivity|]. exfalso.
        assert (X := S2 0%nat ltac:(lia)). apply (Qlt_not_le _ _ X Ho).
      * right. destruct (Nat.lt_ge_cases idx (length rb)) as [Hi|Hi]; [|lia]. exfalso.
        assert (X := S3 Hi).
        assert (Y := sorted_nth_le rb (PInt 0) idx (length rb - 1) Hs ltac:(lia) ltac:(lia)).
        apply (Qlt_not_le _ _ Ho). apply (Qle_trans _ _ _ X Y).
  - rewrite orb_false_iff, !Nat.eqb_neq. intros [E0 En].
    destruct idx as [|i] eqn:Ei; [contradiction|].
    exists i. split; [reflexivity|]. split; [lia|].
    split; [apply S2; lia|apply S3; lia].
Qed.

Lemma contiguous_bins_nth (se : se_array) (x e_last : pynum) (rr : se_array) :
  (forall i, (S i < length se)%nat ->
     (pyq (fst (nth (S i) se (PInt 0, PInt 0))) ==
      pyq (snd (nth i se (PInt 0, PInt 0))))%Q) ->
  rev se = (x, e_last) :: rr ->
  let B := starts_of se ++ [e_last] in
  length B = S (length se) /\
  (forall k, (k < length se)%nat -> nth k B (PInt 0) = fst (nth k se (PInt 0, PInt 0))) /\
  (forall k, (k < length se)%nat ->
     (pyq (nth (S k) B (PInt 0)) == pyq (snd (nth k se (PInt 0, PInt 0))))%Q) /\
  nth (length se) B (PInt 0) = e_last.
Proof.
  intros Hcon Er B.
  assert (Ese : se = rev rr ++ [(x, e_last)])
    by (rewrite <- (rev_involutive se), Er; reflexivity).
  set (n := length se). set (d := (PInt 0, PInt 0)).
  assert (Hlast : nth (n - 1) se d = (x, e_last)).
  { unfold n. rewrite Ese, length_app, length_rev. simpl.
    rewrite app_nth2 by (rewrite length_rev; lia).
    rewrite length_rev. replace (length rr + 1 - 1 - length rr)%nat with 0%nat by lia.
    reflexivity. }
  assert (Hn : (0 < n)%nat) by (unfold n; rewrite Ese, length_app; simpl; lia).
  assert (HB : nth n B (PInt 0) = e_last).
  { unfold B, starts_of. rewrite app_nth2 by (rewrite length_map; fold n; lia).
    rewrite length_map. fold n. rewrite Nat.sub_diag. reflexivity. }
  assert (Hb1 : forall k, (k < n)%nat -> nth k B (PInt 0) = fst (nth k se d)).
  { intros k Hk. unfold B, starts_of.
    rewrite app_nth1 by (rewrite length_map; exact Hk).
    apply nth_map_d. exact Hk. }
  split; [unfold B, starts_of; rewrite length_app, length_map; simpl; fold n; lia|].
  split; [exact Hb1|]. split; [|exact HB].
  intros k Hk. destruct (Nat.eq_dec (S k) n) as [Ek|Ek].
  - rewrite Ek, HB. replace k with (n - 1)%nat by lia. rewrite Hlast. reflexivity.
  - rewrite Hb1 by lia. apply Hcon. fold n. lia.
Qed.

Lemma contiguous_constructed {L} (se0 : se_array) (labs : list L) (sr : pynum) s :
  ContiguousSequenceLabels__init__ se0 labs sr = inr s ->
  SequenceLabels__init__ se0 labs sr = inr s /\
  (forall i, (S i < length (_starts_ends s))%nat ->
     (pyq (fst (nth (S i) (_starts_ends s) (PInt 0, PInt 0))) ==
      pyq (snd (nth i (_starts_ends s) (PInt 0, PInt 0))))%Q).
Proof.
  unfold ContiguousSequenceLabels__init__.
  destruct (SequenceLabels__init__ se0 labs sr) as [e|s0] eqn:Hi; [discriminate|].
  rewrite (starts_ends_fresh se0 labs sr s0 Hi).
  destruct (not_flat (_starts_ends s0)) eqn:Ef; [discriminate|].
  intro E. injection E as <-. split; [reflexivity|].
  intros i Hi'. destruct (Qeq_dec (pyq (fst (nth (S i) (_starts_ends s0) (PInt 0, PInt 0))))
                                   (pyq (snd (nth i (_starts_ends s0) (PInt 0, PInt 0))))) as [E|E];
    [exact E|].
  exfalso. assert (Hx : not_flat (_starts_ends s0) = true)
    by (apply (not_flat_iff _ (PInt 0, PInt 0)); exists i; split; assumption).
  congruence.
Qed.

(** Claim C8 (as the code has it): write [R] for [np.round(., rounded)]. On a
    constructed ContiguousSequenceLabels queried at its own rate, a query
    [t] is out of range exactly when [R t <= R min_start] or
    [R t > R max_end]. That is the interval [(min_start, max_end]] up to
    rounding, not [[min_start, max_end)]. With ['raise'], any out-of-range
    query raises [KeyError]. If no query is out of range, every query gets the
    label of a segment [i] with [R start_i < R t <= R end_i]. With ['zeros'],
    out-of-range queries get the zero of the label type and the others their
    segment's label. *)
Theorem c_labels_at_policy {L} `{NpDtype L} {D} (se0 : se_array) (labs : list L)
    (sr : pynum) s (ts : list pynum) (r : nat) :
  ContiguousSequenceLabels__init__ se0 labs sr = inr s ->
  exists m me,
    min_start s = (s, inr m) /\ max_end s = (s, inr me) /\
    let T := map (np_round r) (ends_array (QIterable ts)) in
    let outside (t : pynum) :=
      (pyq t <= pyq (np_round r m))%Q \/ (pyq (np_round r me) < pyq t)%Q in
    let inside_label (t : pynum) (y : L) :=
      exists i, nth_error (labels s) i = Some y /\
        (pyq (np_round r (fst (nth i (_starts_ends s) (PInt 0, PInt 0)))) < pyq t)%Q /\
        (pyq t <= pyq (np_round r (snd (nth i (_starts_ends s) (PInt 0, PInt 0)))))%Q in
    ((exists t, In t T /\ outside t) ->
       c_labels_at (QIterable ts) None (@DRaise L D) r s = (s, inl KeyError)) /\
    ((forall t, In t T -> ~ outside t) ->
       exists res, c_labels_at (QIterable ts) None (@DRaise L D) r s = (s, inr (CArray res)) /\
         length res = length ts /\
         forall k y, nth_error res k = Some y -> inside_label (nth k T (PInt 0)) y) /\
    (exists res, c_labels_at (QIterable ts) None (@DZeros L D) r s = (s, inr (CArray res)) /\
       length res = length ts /\
       forall k y, nth_error res k = Some y ->
         (outside (nth k T (PInt 0)) /\ y = np_zero) \/
         (~ outside (nth k T (PInt 0)) /\ inside_label (nth k T (PInt 0)) y)).
Proof.
  intro HC. destruct (contiguous_constructed se0 labs sr s HC) as [Hi Hcon].
  destruct (init_spec se0 labs sr s Hi)
    as (_ & Hsr & _ & _ & Hsm & (s0 & e0 & rest & Hse & Hm) & _ & _ & Hlab).
  destruct (fast_props (_starts_ends s)) as [x [e_last [rr [Er Hp]]]].
  { rewrite Hse. discriminate. }
  { apply (init_valid se0 labs sr s Hi). }
  { exact Hcon. }
  destruct (contiguous_bins_nth (_starts_ends s) x e_last rr Hcon Er)
    as (HBl & HB1 & HB2 & HBn).
  destruct Hp as (HBs & _).
  exists s0, e_last.
  split; [rewrite (constructed_min_start se0 labs sr s Hi), Hm; reflexivity|].
  split.
  { unfold max_end, bind. rewrite (starts_ends_fresh se0 labs sr s Hi), Er. reflexivity. }
  set (se := _starts_ends s) in *.
  set (n := length se) in *.
  set (B := starts_of se ++ [e_last]) in *.
  set (rb := map (np_round r) B).
  set (ocode := fun t : pynum =>
          ((searchsorted_left rb t =? 0)%nat || (searchsorted_left rb t =? length rb)%nat)).
  set (outside := fun t : pynum =>
          (pyq t <= pyq (np_round r s0))%Q \/ (pyq (np_round r e_last) < pyq t)%Q).
  assert (Hn : (0 < n)%nat) by (unfold n; rewrite Hse; simpl; lia).
  destruct (labels s) as [|l0 ls0] eqn:El.
  { simpl in Hlab. lia. }
  rewrite <- El.
  set (labs_s := labels s) in *.
  assert (Hrbs : StronglySorted pyle rb) by (apply rounded_bins_sorted; exact HBs).
  assert (Hrbl : length rb = S n) by (unfold rb; rewrite length_map; exact HBl).
  assert (Hrbne : rb <> []) by (intro E; rewrite E in Hrbl; discriminate).
  assert (Hrb : forall k, (k < S n)%nat -> nth k rb (PInt 0) = np_round r (nth k B (PInt 0)))
    by (intros k Hk; apply nth_map_d; rewrite HBl; exact Hk).
  assert (Hs0 : nth 0 B (PInt 0) = s0).
  { rewrite HB1 by exact Hn. rewrite Hse. reflexivity. }
  assert (P1 : forall t, ocode t = true <-> outside t).
  { intro t. unfold ocode, outside.
    rewrite (proj1 (searchsorted_cases rb t Hrbs Hrbne)).
    rewrite Hrbl, Hrb by lia. rewrite Hrb by lia.
    replace (S n - 1)%nat with n by lia. rewrite Hs0, HBn.
    reflexivity. }
  assert (P2 : forall t, ocode t = false ->
            (Nat.pred (searchsorted_left rb t) < length labs_s)%nat /\
            exists i, i = Nat.pred (searchsorted_left rb t) /\
              (pyq (np_round r (fst (nth i se (PInt 0, PInt 0)))) < pyq t)%Q /\
              (pyq t <= pyq (np_round r (snd (nth i se (PInt 0, PInt 0)))))%Q).
  { intros t Ho. destruct (proj2 (searchsorted_cases rb t Hrbs Hrbne) Ho)
      as [i (Ei & Hi1 & Hi2 & Hi3)].
    rewrite Ei. simpl Nat.pred. rewrite Hrbl in Hi1.
    split; [rewrite El, Hlab; lia|].
    exists i. split; [reflexivity|].
    rewrite Hrb in Hi2, Hi3 by lia. rewrite HB1 in Hi2 by lia.
    split; [exact Hi2|].
    rewrite !pyq_np_round in Hi3 |- *. rewrite (round_q_qeq _ _ _ (HB2 i ltac:(lia))) in Hi3.
    exact Hi3. }
  assert (Hlabel : forall t, ocode t = false ->
            exists i, nth_error labs_s i = Some (nth (Nat.pred (searchsorted_left rb t)) labs_s l0) /\
              (pyq (np_round r (fst (nth i se (PInt 0, PInt 0)))) < pyq t)%Q /\
              (pyq t <= pyq (np_round r (snd (nth i se (PInt 0, PInt 0)))))%Q).
  { intros t Ho. destruct (P2 t Ho) as [Hlt [i [-> [H1 H2]]]].
    exists (Nat.pred (searchsorted_left rb t)). split; [|split; assumption].
    apply nth_error_nth'. exact Hlt. }
  set (T := map (np_round r) (ends_array (QIterable ts))).
  assert (HTl : length T = length ts)
    by (unfold T, ends_array; rewrite length_map; apply np_array1_length).
  assert (Hexists : existsb (fun o => o)
            (map (fun i => (i =? 0)%nat || (i =? length rb)%nat)
                 (map (searchsorted_left rb) T)) = true <-> exists t, In t T /\ outside t).
  { rewrite existsb_exists. split.
    - intros [o [Ho Eo]]. rewrite map_map in Ho. apply in_map_iff in Ho.
      destruct Ho as [t [Et Ht]]. exists t. split; [exact Ht|].
      apply P1. unfold ocode. rewrite Et. exact Eo.
    - intros [t [Ht Ho]]. exists (ocode t). split; [|apply P1; exact Ho].
      rewrite map_map. apply in_map_iff. exists t. split; [reflexivity|exact Ht]. }
  assert (Hnth : forall (g : pynum -> L) k y, nth_error (map g T) k = Some y ->
            exists t, nth k T (PInt 0) = t /\ In t T /\ y = g t).
  { intros g k y E. rewrite nth_error_map in E.
    destruct (nth_error T k) as [t|] eqn:Et; [|discriminate].
    injection E as <-. exists t. split; [apply nth_error_nth; exact Et|].
    split; [apply (nth_error_In _ _ Et)|reflexivity]. }
  (* the no-out-of-range branch, shared by both policies *)
  assert (Htake : (forall t, In t T -> ocode t = false) ->
            np_take labs_s (map (fun i => (i - 1)%nat) (map (searchsorted_left rb) T)) =
            inr (map (fun t => nth (Nat.pred (searchsorted_left rb t)) labs_s l0) T)).
  { intro Hall. rewrite (np_take_map _ _ l0).
    - rewrite !map_map. f_equal. apply map_ext. intro t. rewrite Nat.sub_1_r. reflexivity.
    - intros i Hi2. rewrite map_map in Hi2. apply in_map_iff in Hi2.
      destruct Hi2 as [t [<- Ht]]. rewrite Nat.sub_1_r. apply (P2 t (Hall t Ht)). }
  unfold c_labels_at, bind. rewrite samplerate_as_eq. cbv zeta.
  rewrite Hsm, Hsr, <- Hsm, set_sr_same, (starts_ends_fresh se0 labs sr s Hi). fold se. rewrite Er.
  unfold ret. rewrite set_sr_same. rewrite maybe_round_eq. unfold gets, lift.
  fold se B rb T labs_s.
  split; [|split].
  - intro Hout. apply Hexists in Hout. rewrite Hout.
    rewrite samplerate_as_eq. cbv zeta. rewrite Hsm, Hsr, <- Hsm. unfold raise.
    cbv beta iota. rewrite !set_sr_same. reflexivity.
  - intro Hin.
    assert (Hall : forall t, In t T -> ocode t = false).
    { intros t Ht. destruct (ocode t) eqn:E; [|reflexivity].
      exfalso. apply (Hin t Ht). apply P1. exact E. }
    replace (existsb (fun o => o) (map (fun i => (i =? 0)%nat || (i =? length rb)%nat)
               (map (searchsorted_left rb) T))) with false.
    2:{ symmetry. apply not_true_iff_false. intro E. apply Hexists in E.
        destruct E as [t [Ht Ho]]. apply (Hin t Ht Ho). }
    rewrite (Htake Hall).
    eexists. split; [reflexivity|]. split; [rewrite length_map; exact HTl|].
    intros k y E. destruct (Hnth _ k y E) as [t [-> [Ht ->]]].
    exact (Hlabel t (Hall t Ht)).
  - destruct (existsb (fun o => o) (map (fun i => (i =? 0)%nat || (i =? length rb)%nat)
               (map (searchsorted_left rb) T))) eqn:Ex.
    + set (h := fun t => if ocode t then np_zero
                         else nth (Nat.pred (searchsorted_left rb t)) labs_s l0).
      rewrite (mapM_total _ (fun '((o, i) : bool * nat) =>
                 if o then np_zero else nth i labs_s l0)).
      * eexists. split; [reflexivity|].
        rewrite !map_map, combine_map_same, map_map.
        split; [rewrite length_map; exact HTl|].
        intros k y E.
        destruct (Hnth (fun t => if ocode t then np_zero
                                 else nth (searchsorted_left rb t - 1) labs_s l0) k y E)
          as [t [-> [Ht ->]]].
        destruct (ocode t) eqn:Eo.
        -- left. split; [apply P1; exact Eo|reflexivity].
        -- right. split; [intro Ho; apply P1 in Ho; congruence|].
           rewrite Nat.sub_1_r. exact (Hlabel t Eo).
      * intros [o i] Hoi. rewrite !map_map, combine_map_same in Hoi.
        apply in_map_iff in Hoi. destruct Hoi as [t [Et Ht]]. injection Et as <- <-.
        destruct ((searchsorted_left rb t =? 0)%nat
                  || (searchsorted_left rb t =? length rb)%nat) eqn:Eo; [reflexivity|].
        unfold take1. rewrite Nat.sub_1_r.
        rewrite (nth_error_nth' _ l0) by apply (P2 t Eo). reflexivity.
    + assert (Hall : forall t, In t T -> ocode t = false).
      { intros t Ht. destruct (ocode t) eqn:E; [|reflexivity].
        exfalso. assert (Hf : false = true); [|discriminate Hf].
        apply Hexists. exists t. split; [exact Ht|apply P1; exact E]. }
      rewrite (Htake Hall).
      eexists. split; [reflexivity|]. split; [rewrite length_map; exact HTl|].
      intros k y E. destruct (Hnth _ k y E) as [t [-> [Ht ->]]].
      right. split; [intro Ho; apply P1 in Ho; rewrite (Hall t Ht) in Ho; discriminate|].
      exact (Hlabel t (Hall t Ht)).
Qed.

(** A witness of C8: the contiguous example queried at [[-1]] with the
    ['raise'] policy raises [KeyError]. *)
Lemma c_labels_at_policy_witness :
  exists s,
    ContiguousSequenceLabels__init__
      [(PInt 0, PInt 1); (PInt 1, PInt 3); (PInt 3, mkfloat (45#10));
       (mkfloat (45#10), PInt 6)] [1; 0; 2; 1]%Z (PInt 1) = inr s /\
    c_labels_at (QIterable [PInt (-1)]) None (@DRaise Z unit) 10 s = (s, inl KeyError).
Proof.
  destruct (ContiguousSequenceLabels__init__
      [(PInt 0, PInt 1); (PInt 1, PInt 3); (PInt 3, mkfloat (45#10));
       (mkfloat (45#10), PInt 6)] [1; 0; 2; 1]%Z (PInt 1)) as [e|s] eqn:E.
  - vm_compute in E. discriminate E.
  - exists s. split; [reflexivity|].
    destruct (@c_labels_at_policy Z _ unit _ _ _ s [PInt (-1)] 10%nat E)
      as [m [me [Hm [Hme [HR _]]]]].
    apply HR. vm_compute in E. injection E as <-.
    vm_compute in Hm. injection Hm as <-.
    exists (PInt (-1)). split; [left; reflexivity|].
    left. vm_compute. discriminate.
Defined.

(** Counterexample to C8 as worded: on the contiguous example the range that
    ['raise'] accepts is [(min_start, max_end]], not [[min_start, max_end)]:
    the query [6 = max_end] gets the label [1], while the query
    [0 = min_start] raises [KeyError]. Under ['zeros'] the query [-1] gets
    [0], as the claim says. *)
Lemma c_labels_at_policy_counterexample :
  match ContiguousSequenceLabels__init__
          [(PInt 0, PInt 1); (PInt 1, PInt 3); (PInt 3, mkfloat (45#10));
           (mkfloat (45#10), PInt 6)] [1; 0; 2; 1]%Z (PInt 1) with
  | inr s =>
      snd (c_labels_at (QIterable [PInt 6]) None (@DRaise Z unit) 10 s) = inr (CArray [1]) /\
      snd (c_labels_at (QIterable [PInt 0]) None (@DRaise Z unit) 10 s) = inl KeyError /\
      snd (c_labels_at (QIterable [PInt (-1)]) None (@DZeros Z unit) 10 s) = inr (CArray [0])
  | inl _ => False
  end.
Proof. vm_compute. split; [reflexivity|split; reflexivity]. Qed.


(** ** Further properties of the methods *)

Lemma pyq_mul (x y : pynum) : (pyq (py_mul x y) == pyq x * pyq y)%Q.
Proof.
  destruct x as [a|a], y as [b|b]; simpl py_mul; try (rewrite pyq_mkfloat; reflexivity).
  simpl. rewrite inject_Z_mult. reflexivity.
Qed.

Lemma pyq_convert (x a b : pynum) :
  (0 < pyq a)%Q -> (0 < pyq b)%Q ->
  exists y, _convert_samplerate x a b = inr y /\ (pyq y == pyq x * (pyq b / pyq a))%Q.
Proof.
  intros Ha Hb.
  assert (Hn : (py_le b (PInt 0) || py_le a (PInt 0)) = false).
  { apply orb_false_iff. split; apply not_true_iff_false;
      rewrite py_le_spec; change (pyq (PInt 0)) with 0%Q; lra. }
  assert (Ha0 : ~ (pyq a == 0)%Q) by (intro E; rewrite E in Ha; discriminate).
  unfold _convert_samplerate. rewrite Hn.
  destruct (py_eq b a) eqn:E.
  - apply py_eq_spec in E. exists x. split; [reflexivity|].
    rewrite E. field. exact Ha0.
  - destruct (py_lt a b && py_eq (py_mod b a) (PInt 0)) eqn:Em.
    + eexists. split; [reflexivity|].
      unfold vmul, Scalable_pynum. rewrite pyq_mul, pyq_floordiv.
      apply andb_true_iff in Em. destruct Em as [_ Em].
      apply py_eq_spec in Em. rewrite pyq_mod in Em by exact Ha0.
      change (pyq (PInt 0)) with 0%Q in Em.
      assert (Ef : (inject_Z (Qfloor (pyq b / pyq a)) == pyq b / pyq a)%Q).
      { assert (Hm : (inject_Z (Qfloor (pyq b / pyq a)) * pyq a == pyq b)%Q) by lra.
        rewrite <- Hm at 2. field. exact Ha0. }
      rewrite Ef. reflexivity.
    + eexists. split; [reflexivity|].
      unfold vmul, Scalable_pynum, py_truediv. rewrite pyq_mul, pyq_mkfloat. reflexivity.
Qed.

Lemma convert_back (x a b : pynum) :
  (0 < pyq a)%Q -> (0 < pyq b)%Q ->
  exists y z, _convert_samplerate x a b = inr y /\
              _convert_samplerate y b a = inr z /\ (pyq z == pyq x)%Q.
Proof.
  intros Ha Hb.
  destruct (pyq_convert x a b Ha Hb) as [y [Ey Hy]].
  destruct (pyq_convert y b a Hb Ha) as [z [Ez Hz]].
  exists y, z. split; [exact Ey|]. split; [exact Ez|].
  assert (Ha0 : ~ (pyq a == 0)%Q) by (intro E; rewrite E in Ha; discriminate).
  assert (Hb0 : ~ (pyq b == 0)%Q) by (intro E; rewrite E in Hb; discriminate).
  rewrite Hz, Hy. field. split; assumption.
Qed.





Lemma samples_frames (nsamples hop_len win_len : Z) :
  0 < hop_len ->
  exists out, samples_for_labelsat nsamples hop_len win_len = inr out /\
    Z.of_nat (length out) = Z.max 0 (1 + (nsamples - win_len) / hop_len) /\
    (forall k, (k < length out)%nat ->
       nth k out 0 = Z.of_nat k * hop_len + win_len / 2 /\
       Z.of_nat k * hop_len + win_len <= nsamples) /\
    nsamples < Z.of_nat (length out) * hop_len + win_len /\
    StronglySorted Z.lt out /\
    (out = [] <-> nsamples < win_len).
Proof.
  intro Hh. unfold samples_for_labelsat.
  replace (hop_len =? 0) with false by (symmetry; apply Z.eqb_neq; lia).
  set (q := (nsamples - win_len) / hop_len).
  assert (Hq1 : hop_len * q <= nsamples - win_len) by (apply Z.mul_div_le; lia).
  assert (Hq2 : nsamples - win_len < hop_len * (q + 1)).
  { assert (X := Z.mod_pos_bound (nsamples - win_len) hop_len Hh).
    assert (Y := Z.div_mod (nsamples - win_len) hop_len ltac:(lia)). fold q in Y. lia. }
  set (m := Z.to_nat (1 + q)).
  set (f := fun x => x * hop_len + win_len / 2).
  eexists. split; [reflexivity|].
  rewrite !length_map, length_seq.
  assert (Hm : Z.of_nat m = Z.max 0 (1 + q)) by (unfold m; lia).
  split; [exact Hm|].
  split.
  { intros k Hk. rewrite map_map, (nth_map_d _ _ 0%nat) by (rewrite length_seq; exact Hk).
    rewrite seq_nth by exact Hk. unfold f. split; [reflexivity|].
    assert (Z.of_nat k <= q) by lia. nia. }
  split; [nia|].
  split.
  {
    assert (G : forall a n, StronglySorted Z.lt (map f (map Z.of_nat (seq a n)))).
    { intros a n. revert a. induction n as [|n IH]; intro a; simpl; constructor.
      - apply IH.
      - apply Forall_forall. intros y Hy. rewrite map_map in Hy. apply in_map_iff in Hy.
        destruct Hy as [x [<- Hx]]. apply in_seq in Hx. unfold f. nia. }
    apply G. }
  split.
  - intro E. destruct m as [|m'] eqn:Em; [|discriminate E]. nia.
  - intro Hlt. assert (m = 0%nat).
    { unfold m. assert (q < 0).
      { destruct (Z.lt_ge_cases q 0) as [G|G]; [exact G|]. nia. }
      lia. }
    rewrite H. reflexivity.
Qed.


Lemma py_int_floor (x : pynum) : (0 <= pyq x)%Q -> py_int x = Qfloor (pyq x).
Proof.
  destruct x as [z|q]; simpl; intro H.
  - symmetry. apply Qfloor_Z.
  - replace (Qle_bool 0 (this q)) with true by (symmetry; apply Qle_bool_iff; exact H).
    reflexivity.
Qed.



Lemma map_snd_combine_seq {A} (l : list A) (k : nat) :
  map snd (combine l (seq k (length l))) = seq k (length l).
Proof. revert k. induction l as [|x l IH]; intro k; simpl; [reflexivity|]. f_equal. apply IH. Qed.

Lemma lexsort_perm (se : se_array) : Permutation (lexsort se) (seq 0 (length se)).
Proof.
  unfold lexsort. rewrite <- (map_snd_combine_seq se 0) at 2.
  apply Permutation_map. apply isort_perm.
Qed.

Lemma pyq_to_float (x : pynum) : (pyq (to_float x) == pyq x)%Q.
Proof. unfold to_float. apply pyq_mkfloat. Qed.

Lemma np_array2_values (se : se_array) (p : pynum * pynum) :
  In p (np_array2 se) ->
  exists p0, In p0 se /\ (pyq (fst p) == pyq (fst p0))%Q /\ (pyq (snd p) == pyq (snd p0))%Q.
Proof.
  unfold np_array2. destruct (all_int (se_flat se)).
  - intro H. exists p. split; [exact H|split; reflexivity].
  - intro H. apply in_map_iff in H. destruct H as [[a b] [<- H]].
    exists (a, b). split; [exact H|]. simpl. split; apply pyq_to_float.
Qed.

Lemma np_array2_values_inv (se : se_array) (p0 : pynum * pynum) :
  In p0 se ->
  exists p, In p (np_array2 se) /\ (pyq (fst p) == pyq (fst p0))%Q /\ (pyq (snd p) == pyq (snd p0))%Q.
Proof.
  unfold np_array2. destruct (all_int (se_flat se)).
  - intro H. exists p0. split; [exact H|split; reflexivity].
  - intro H. destruct p0 as [a b]. exists (to_float a, to_float b).
    split; [apply in_map_iff; exists (a, b); split; [reflexivity|exact H]|].
    simpl. split; apply pyq_to_float.
Qed.

Lemma seg_check_value (p : pynum * pynum) :
  py_le (py_sub (snd p) (fst p)) (PInt 0) = true <-> (pyq (snd p) <= pyq (fst p))%Q.
Proof.
  rewrite py_le_spec, pyq_sub. change (pyq (PInt 0)) with 0%Q. lra.
Qed.



Lemma to_float_float (x : pynum) : is_int x = false -> to_float x = x.
Proof.
  destruct x as [z|q]; [discriminate|]. intros _. unfold to_float, mkfloat. simpl.
  f_equal. apply Qc_is_canon. simpl. apply Qred_correct.
Qed.

Lemma all_int_flat (se : se_array) :
  all_int (se_flat se) = true <->
  Forall (fun p => is_int (fst p) = true /\ is_int (snd p) = true) se.
Proof.
  unfold all_int, se_flat. rewrite forallb_forall, Forall_forall. split.
  - intros H [a b] Hp. simpl. split; apply H; apply in_flat_map; exists (a, b);
      (split; [exact Hp|simpl; tauto]).
  - intros H x Hx. apply in_flat_map in Hx. destruct Hx as [[a b] [Hp Hx]].
    destruct (H _ Hp) as [Ha Hb]. simpl in Hx, Ha, Hb.
    destruct Hx as [<-|[<-|[]]]; assumption.
Qed.

Lemma np_array2_homog (se : se_array) : homog (np_array2 se).
Proof.
  unfold np_array2, homog. destruct (all_int (se_flat se)) eqn:E.
  - left. apply all_int_flat. exact E.
  - right. apply Forall_forall. intros p Hp. apply in_map_iff in Hp.
    destruct Hp as [[a b] [<- _]]. split; reflexivity.
Qed.

Lemma homog_incl (a b : se_array) :
  (forall p, In p b -> In p a) -> homog a -> homog b.
Proof.
  intros Hi [H|H]; [left|right]; apply Forall_forall; intros p Hp;
    apply (proj1 (Forall_forall _ _) H); apply Hi; exact Hp.
Qed.

Lemma np_array2_id (se : se_array) : homog se -> np_array2 se = se.
Proof.
  intro H. unfold np_array2. destruct (all_int (se_flat se)) eqn:E; [reflexivity|].
  destruct H as [H|H].
  - apply all_int_flat in H. congruence.
  - rewrite <- (map_id se) at 2. apply map_ext_in. intros [a b] Hp.
    destruct (proj1 (Forall_forall _ _) H _ Hp) as [Ha Hb]. simpl in Ha, Hb.
    rewrite (to_float_float a Ha), (to_float_float b Hb). reflexivity.
Qed.

Lemma stored_homog {L} (se0 : se_array) (labs : list L) (sr : pynum) s :
  SequenceLabels__init__ se0 labs sr = inr s -> homog (_starts_ends s).
Proof.
  intro H. destruct (init_spec se0 labs sr s H) as (_ & _ & _ & _ & _ & _ & _ & HP & Hl).
  apply (homog_incl (np_array2 se0)); [|apply np_array2_homog].
  intros p Hp. destruct (in_combine_exists _ _ p Hl Hp) as [y Hy].
  apply (Permutation_in _ HP) in Hy. apply (in_combine_l _ _ _ _ Hy).
Qed.

Section SortedId.
Variable A : Type.
Variable leb : A -> A -> bool.

Lemma isort_sorted_id (l : list A) :
  Sorted (fun x y => leb x y = true) l -> isort leb l = l.
Proof.
  induction 1 as [|x l Hs IH Hd]; [reflexivity|].
  simpl. rewrite IH. destruct Hd as [|y l' Hxy]; [reflexivity|].
  simpl. rewrite Hxy. reflexivity.
Qed.
End SortedId.

Lemma sorted_combine_fst {A B} (R : A -> A -> Prop) (l : list A) (l' : list B) :
  Sorted R l -> Sorted (fun x y => R (fst x) (fst y)) (combine l l').
Proof.
  intro H. revert l'. induction H as [|x l Hs IH Hd]; intro l'; simpl; [constructor|].
  destruct l' as [|y l']; [constructor|]. constructor; [apply IH|].
  destruct Hd as [|x' l'' Hxy]; simpl; [constructor|].
  destruct l' as [|y' l']; constructor. exact Hxy.
Qed.

Lemma map_nth_seq_id {A} (l : list A) (d : A) :
  map (fun i => nth i l d) (seq 0 (length l)) = l.
Proof.
  apply (nth_ext _ _ d d); [rewrite length_map, length_seq; reflexivity|].
  intros k Hk. rewrite length_map, length_seq in Hk.
  rewrite (nth_map_d _ _ 0%nat) by (rewrite length_seq; exact Hk).
  rewrite seq_nth by exact Hk. reflexivity.
Qed.

(** [SequenceLabels(se, l, sr)] on segments that are already valid and
    sorted keeps them in their order. *)
Lemma init_sorted {L} (se : se_array) (ls : list L) (sr : pynum) :
  length se = length ls -> homog se ->
  Sorted (fun x y => seg_le x y = true) se ->
  (forall p, In p se -> (pyq (fst p) < pyq (snd p))%Q) -> (0 < pyq sr)%Q ->
  forall p0 rest, se = p0 :: rest ->
  SequenceLabels__init__ se ls sr = inr (mkSL se ls sr sr (fst p0)).
Proof.
  intros Hl Hh Hs Hv Hsr p0 rest Ese.
  unfold SequenceLabels__init__.
  replace (length se =? length ls)%nat with true by (symmetry; apply Nat.eqb_eq; exact Hl).
  cbv beta iota zeta. simpl negb. cbv iota.
  rewrite (np_array2_id se Hh).
  assert (Hex : existsb (fun '(s, e) => py_le (py_sub e s) (PInt 0)) se = false).
  { apply not_true_iff_false. intro E. apply existsb_exists in E.
    destruct E as [[a b] [Hq Hb]]. apply (seg_check_value (a, b)) in Hb.
    specialize (Hv _ Hq). simpl in *. lra. }
  assert (Hls : lexsort se = seq 0 (length se)).
  { unfold lexsort. rewrite isort_sorted_id.
    - apply map_snd_combine_seq.
    - apply (sorted_combine_fst (fun x y => seg_le x y = true)). exact Hs. }
  replace (py_le sr (PInt 0)) with false
    by (symmetry; apply not_true_iff_false; rewrite py_le_spec;
        change (pyq (PInt 0)) with 0%Q; lra).
  destruct se as [|q0 r0] eqn:E0; [discriminate|]. rewrite <- E0 in *.
  rewrite Hex, Hls.
  rewrite (np_take_map se _ p0) by (intros i Hi; apply in_seq in Hi; lia).
  destruct ls as [|l0 ls']; [rewrite Ese in Hl; discriminate|].
  rewrite (np_take_map (l0 :: ls') _ l0) by (intros i Hi; apply in_seq in Hi; lia).
  rewrite map_nth_seq_id, Hl, map_nth_seq_id, Ese. destruct p0. reflexivity.
Qed.


Lemma Sorted_skipn {A} (R : A -> A -> Prop) (l : list A) (k : nat) :
  Sorted R l -> Sorted R (skipn k l).
Proof.
  revert l. induction k as [|k IH]; intros l H; [exact H|].
  destruct l as [|x l]; [constructor|]. simpl. apply IH. inversion H; assumption.
Qed.

Lemma Sorted_firstn {A} (R : A -> A -> Prop) (l : list A) (k : nat) :
  Sorted R l -> Sorted R (firstn k l).
Proof.
  revert l. induction k as [|k IH]; intros l H; [constructor|].
  destruct l as [|x l]; [constructor|]. simpl. inversion H as [|? ? Hs Hd]; subst.
  constructor; [apply IH; exact Hs|].
  destruct Hd as [|y l' Hxy]; [destruct k; constructor|].
  destruct k; simpl; constructor. exact Hxy.
Qed.

Lemma in_firstn_skipn {A} (l : list A) (a m : nat) (x : A) :
  In x (firstn m (skipn a l)) -> In x l.
Proof.
  intro H. rewrite <- (firstn_skipn a l). apply in_or_app. right.
  rewrite <- (firstn_skipn m (skipn a l)). apply in_or_app. left. exact H.
Qed.

Lemma take_seq_window {A} (l : list A) (d : A) (a m : nat) :
  (a + m <= length l)%nat ->
  np_take l (seq a m) = inr (firstn m (skipn a l)).
Proof.
  intro H. rewrite (np_take_map l _ d) by (intros i Hi; apply in_seq in Hi; lia).
  f_equal. apply (nth_ext _ _ d d).
  - rewrite length_map, length_seq, length_firstn, length_skipn. lia.
  - intros k Hk. rewrite length_map, length_seq in Hk.
    rewrite (nth_map_d _ _ 0%nat) by (rewrite length_seq; exact Hk).
    rewrite seq_nth by exact Hk.
    rewrite nth_firstn. replace (k <? m)%nat with true by (symmetry; apply Nat.ltb_lt; exact Hk).
    rewrite nth_skipn. f_equal; lia.
Qed.

Lemma slice_step1 (n : Z) (a b : nat) :
  (a < b)%nat -> Z.of_nat b <= n ->
  slice_indices n (Some (Z.of_nat a)) (Some (Z.of_nat b)) None =
  inr (map Z.of_nat (seq a (b - a))).
Proof.
  intros Hab Hb. unfold slice_indices. simpl.
  replace (Z.of_nat a <? 0) with false by (symmetry; apply Z.ltb_ge; lia).
  replace (Z.of_nat b <? 0) with false by (symmetry; apply Z.ltb_ge; lia).
  rewrite !Z.min_l by lia.
  replace (Z.of_nat a <? Z.of_nat b) with true by (symmetry; apply Z.ltb_lt; lia).
  rewrite Z.div_1_r.
  replace (Z.to_nat (Z.of_nat b - Z.of_nat a - 1 + 1)) with (b - a)%nat by lia.
  f_equal. apply (nth_ext _ _ 0 0).
  - rewrite !length_map, !length_seq. reflexivity.
  - intros k Hk. rewrite length_map, length_seq in Hk.
    rewrite (nth_map_d _ _ 0%nat) by (rewrite length_seq; exact Hk).
    rewrite (nth_map_d _ _ 0%nat) by (rewrite length_seq; exact Hk).
    rewrite !seq_nth by exact Hk. lia.
Qed.

Lemma getitem_parts_slice {L} (s : SequenceLabels L) (a b : nat) :
  length (labels s) = length (_starts_ends s) ->
  (a < b)%nat -> (b <= length (_starts_ends s))%nat ->
  getitem_parts s (ISlice (Some (Z.of_nat a)) (Some (Z.of_nat b)) None) =
  inr (firstn (b - a) (skipn a (_starts_ends s)), firstn (b - a) (skipn a (labels s))).
Proof.
  intros Hl Hab Hb. unfold getitem_parts, np_getitem.
  rewrite !slice_step1 by lia. rewrite !map_map.
  rewrite (map_ext _ (fun x => x)) by (intro; apply Nat2Z.id). rewrite !map_id.
  rewrite (take_seq_window _ (PInt 0, PInt 0)) by lia.
  destruct (labels s) as [|l0 ls] eqn:El; [simpl in Hl; lia|].
  rewrite (take_seq_window _ l0) by (rewrite Hl; lia). reflexivity.
Qed.

Lemma getitem_parts_int {L} (s : SequenceLabels L) (i : Z) :
  length (labels s) = length (_starts_ends s) ->
  let n := Z.of_nat (length (_starts_ends s)) in
  let k := if i <? 0 then i + n else i in
  (0 <= k < n ->
     exists p l, nth_error (_starts_ends s) (Z.to_nat k) = Some p /\
                 nth_error (labels s) (Z.to_nat k) = Some l /\
                 getitem_parts s (IInt i) = inr ([p], [l])) /\
  (~ (0 <= k < n) -> getitem_parts s (IInt i) = inl IndexError).
Proof.
  intros Hl n k. unfold getitem_parts, np_getitem. rewrite Hl. fold n k. split.
  - intro Hk.
    replace ((k <? 0) || (n <=? k)) with false
      by (symmetry; apply orb_false_iff; split; [apply Z.ltb_ge|apply Z.leb_gt]; lia).
    destruct (nth_error (_starts_ends s) (Z.to_nat k)) as [p|] eqn:Ep.
    2:{ apply nth_error_None in Ep. lia. }
    destruct (nth_error (labels s) (Z.to_nat k)) as [l|] eqn:Eq.
    2:{ apply nth_error_None in Eq. lia. }
    exists p, l. split; [reflexivity|]. split; reflexivity.
  - intro Hk.
    replace ((k <? 0) || (n <=? k)) with true
      by (symmetry; apply orb_true_iff;
          destruct (Z.lt_ge_cases k 0); [left; apply Z.ltb_lt; lia|right; apply Z.leb_le; lia]).
    reflexivity.
Qed.


Lemma skipn_nth_cons {A} (l : list A) (a : nat) (d : A) :
  (a < length l)%nat -> skipn a l = nth a l d :: skipn (S a) l.
Proof.
  revert l. induction a as [|a IH]; intros [|x l] H; simpl in *; try lia; [reflexivity|].
  apply IH. lia.
Qed.

Lemma init_rate_pos {L} (se0 : se_array) (labs : list L) (sr : pynum) s :
  SequenceLabels__init__ se0 labs sr = inr s -> (0 < pyq sr)%Q.
Proof.
  intro H. destruct (init_spec se0 labs sr s H) as (_ & Hsr & _).
  rewrite <- not_true_iff_false, py_le_spec in Hsr. change (pyq (PInt 0)) with 0%Q in Hsr. lra.
Qed.

(** A non-empty window of a constructed instance's stored rows, rebuilt by
    [SequenceLabels__init__nd], is kept as it is. *)
Lemma window_init {L} (se0 : se_array) (labs : list L) (sr : pynum) s (a m : nat) :
  SequenceLabels__init__ se0 labs sr = inr s ->
  (0 < m)%nat -> (a + m <= length (_starts_ends s))%nat ->
  SequenceLabels__init__nd (firstn m (skipn a (_starts_ends s))) (firstn m (skipn a (labels s))) sr =
  inr (mkSL (firstn m (skipn a (_starts_ends s))) (firstn m (skipn a (labels s))) sr sr
            (fst (nth a (_starts_ends s) (PInt 0, PInt 0)))).
Proof.
  intros H Hm Ham.
  destruct (init_spec se0 labs sr s H) as (_ & _ & _ & _ & _ & _ & Hsort & _ & Hl).
  set (W := firstn m (skipn a (_starts_ends s))).
  assert (HW : W = nth a (_starts_ends s) (PInt 0, PInt 0) :: firstn (m - 1) (skipn (S a) (_starts_ends s))).
  { unfold W. rewrite (skipn_nth_cons _ a (PInt 0, PInt 0)) by lia.
    destruct m as [|m']; [lia|]. simpl. rewrite Nat.sub_0_r. reflexivity. }
  assert (HWi : forall p, In p W -> In p (_starts_ends s))
    by (intros p Hp; apply (in_firstn_skipn _ a m); exact Hp).
  unfold SequenceLabels__init__nd. rewrite HW at 1. cbv iota.
  refine (init_sorted W _ sr _ _ _ _ _ (nth a (_starts_ends s) (PInt 0, PInt 0)) _ HW).
  - unfold W. rewrite !length_firstn, !length_skipn, Hl. reflexivity.
  - apply (homog_incl (_starts_ends s)); [exact HWi|apply (stored_homog se0 labs sr s H)].
  - apply Sorted_firstn, Sorted_skipn. exact Hsort.
  - intros p Hp. apply (init_valid se0 labs sr s H). apply HWi. exact Hp.
  - apply (init_rate_pos se0 labs sr s H).
Qed.

Lemma contig_nd_of_base {L} (se : se_array) (l : list L) (sr : pynum) s1 :
  SequenceLabels__init__nd se l sr = inr s1 ->
  (forall i, (S i < length (_starts_ends s1))%nat ->
     (pyq (fst (nth (S i) (_starts_ends s1) (PInt 0, PInt 0))) ==
      pyq (snd (nth i (_starts_ends s1) (PInt 0, PInt 0))))%Q) ->
  ContiguousSequenceLabels__init__nd se l sr = inr s1.
Proof.
  intros H Hc. unfold ContiguousSequenceLabels__init__nd. rewrite H.
  assert (Hi : SequenceLabels__init__ se l sr = inr s1).
  { unfold SequenceLabels__init__nd in H. destruct se as [|p r]; [|exact H].
    destruct (negb _); [discriminate|]. destruct (py_le _ _); discriminate. }
  rewrite (starts_ends_fresh se l sr s1 Hi).
  destruct (not_flat (_starts_ends s1)) eqn:E; [|reflexivity].
  apply (not_flat_iff _ (PInt 0, PInt 0)) in E. destruct E as [i [Hi1 Hi2]].
  exfalso. apply Hi2. apply Hc. exact Hi1.
Qed.

Lemma window_contiguous (se : se_array) (a m : nat) :
  (forall i, (S i < length se)%nat ->
     (pyq (fst (nth (S i) se (PInt 0, PInt 0))) == pyq (snd (nth i se (PInt 0, PInt 0))))%Q) ->
  forall i, (S i < length (firstn m (skipn a se)))%nat ->
    (pyq (fst (nth (S i) (firstn m (skipn a se)) (PInt 0, PInt 0))) ==
     pyq (snd (nth i (firstn m (skipn a se)) (PInt 0, PInt 0))))%Q.
Proof.
  intros Hc i Hi. rewrite length_firstn, length_skipn in Hi.
  rewrite !nth_firstn.
  replace (S i <? m)%nat with true by (symmetry; apply Nat.ltb_lt; lia).
  replace (i <? m)%nat with true by (symmetry; apply Nat.ltb_lt; lia).
  rewrite !nth_skipn. replace (a + S i)%nat with (S (a + i)) by lia.
  apply Hc. lia.
Qed.

Lemma getitem_window {L} (se0 : se_array) (labs : list L) (sr : pynum) s (a b : nat) :
  SequenceLabels__init__ se0 labs sr = inr s ->
  (a < b)%nat -> (b <= length (_starts_ends s))%nat ->
  SequenceLabels__getitem__ s (ISlice (Some (Z.of_nat a)) (Some (Z.of_nat b)) None) =
  inr (mkSL (firstn (b - a) (skipn a (_starts_ends s))) (firstn (b - a) (skipn a (labels s))) sr sr
            (fst (nth a (_starts_ends s) (PInt 0, PInt 0)))).
Proof.
  intros H Hab Hb.
  destruct (init_spec se0 labs sr s H) as (_ & _ & _ & Ho & _ & _ & _ & _ & Hl).
  unfold SequenceLabels__getitem__. rewrite getitem_parts_slice by assumption.
  rewrite Ho. apply (window_init se0 labs sr s a (b - a) H); lia.
Qed.

Lemma getitem_single {L} (se0 : se_array) (labs : list L) (sr : pynum) s (i : Z) :
  SequenceLabels__init__ se0 labs sr = inr s ->
  let n := Z.of_nat (length (_starts_ends s)) in
  let k := if i <? 0 then i + n else i in
  (0 <= k < n ->
     exists p l, nth_error (_starts_ends s) (Z.to_nat k) = Some p /\
                 nth_error (labels s) (Z.to_nat k) = Some l /\
                 SequenceLabels__getitem__ s (IInt i) = inr (mkSL [p] [l] sr sr (fst p))) /\
  (~ (0 <= k < n) -> SequenceLabels__getitem__ s (IInt i) = inl IndexError).
Proof.
  intros H n k.
  destruct (init_spec se0 labs sr s H) as (_ & _ & _ & Ho & _ & _ & _ & _ & Hl).
  destruct (getitem_parts_int s i Hl) as [G1 G2]. fold n k in G1, G2.
  unfold SequenceLabels__getitem__. split.
  - intro Hk. destruct (G1 Hk) as [p [l [Ep [El E]]]]. exists p, l.
    split; [exact Ep|]. split; [exact El|]. rewrite E, Ho.
    assert (Wp : firstn 1 (skipn (Z.to_nat k) (_starts_ends s)) = [p]).
    { rewrite (skipn_nth_cons _ _ (PInt 0, PInt 0)) by lia.
      rewrite (nth_error_nth _ _ _ Ep). reflexivity. }
    assert (Wl : firstn 1 (skipn (Z.to_nat k) (labels s)) = [l]).
    { rewrite (skipn_nth_cons _ _ l) by (rewrite Hl; lia).
      rewrite (nth_error_nth _ _ _ El). reflexivity. }
    rewrite <- Wp, <- Wl at 1. rewrite (window_init se0 labs sr s (Z.to_nat k) 1 H) by lia.
    rewrite Wp, Wl, (nth_error_nth _ _ _ Ep). reflexivity.
  - intro Hk. rewrite (G2 Hk). reflexivity.
Qed.


Lemma len_stored {L} (se0 : se_array) (labs : list L) (sr : pynum) s :
  SequenceLabels__init__ se0 labs sr = inr s ->
  SequenceLabels__len__ s = length (_starts_ends s).
Proof.
  intro H. destruct (init_spec se0 labs sr s H) as (_ & _ & _ & _ & _ & _ & _ & _ & Hl).
  exact Hl.
Qed.

(** [len] of a constructed instance is the number of segments and the
    number of labels given to [__init__]. *)
Theorem len_after_init {L} (se0 : se_array) (labs : list L) (sr : pynum) s :
  SequenceLabels__init__ se0 labs sr = inr s ->
  SequenceLabels__len__ s = length se0 /\ SequenceLabels__len__ s = length labs.
Proof.
  intro H. destruct (init_spec se0 labs sr s H) as (Hl0 & _ & _ & _ & _ & _ & _ & HP & Hl).
  apply Permutation_length in HP. rewrite !length_combine, np_array2_length, Hl in HP.
  unfold SequenceLabels__len__. rewrite Hl. rewrite Nat.min_id, <- Hl0, Nat.min_id in HP.
  split; lia.
Qed.

(** [s[i]] for an integer [i]: after the negative-index wrap-around, an
    index in range gives a one-segment instance of the [i]-th stored segment
    and label, at the original samplerate; an index out of range raises
    [IndexError]. *)
Theorem getitem_int_segment {L} (se0 : se_array) (labs : list L) (sr : pynum) s (i : Z) :
  SequenceLabels__init__ se0 labs sr = inr s ->
  let n := Z.of_nat (SequenceLabels__len__ s) in
  let k := if i <? 0 then i + n else i in
  (0 <= k < n ->
     exists p l, nth_error (_starts_ends s) (Z.to_nat k) = Some p /\
                 nth_error (labels s) (Z.to_nat k) = Some l /\
                 SequenceLabels__getitem__ s (IInt i) = inr (mkSL [p] [l] sr sr (fst p))) /\
  (~ (0 <= k < n) -> SequenceLabels__getitem__ s (IInt i) = inl IndexError).
Proof.
  intro H. rewrite (len_stored se0 labs sr s H).
  exact (getitem_single se0 labs sr s i H).
Qed.

(** [s[a:b]] with [a < b <= len(s)] gives the instance of the stored
    segments and labels [a .. b-1], in the stored order, at the original
    samplerate, anchored at the start of segment [a]. *)
Theorem getitem_slice_window {L} (se0 : se_array) (labs : list L) (sr : pynum) s (a b : nat) :
  SequenceLabels__init__ se0 labs sr = inr s ->
  (a < b)%nat -> (b <= SequenceLabels__len__ s)%nat ->
  SequenceLabels__getitem__ s (ISlice (Some (Z.of_nat a)) (Some (Z.of_nat b)) None) =
  inr (mkSL (firstn (b - a) (skipn a (_starts_ends s))) (firstn (b - a) (skipn a (labels s))) sr sr
            (fst (nth a (_starts_ends s) (PInt 0, PInt 0)))).
Proof.
  intros H Hab Hb. rewrite (len_stored se0 labs sr s H) in Hb.
  apply (getitem_window se0 labs sr s a b H Hab Hb).
Qed.

Lemma slice_empty (n : Z) (a b : nat) :
  (b <= a)%nat -> 0 <= n ->
  slice_indices n (Some (Z.of_nat a)) (Some (Z.of_nat b)) None = inr [].
Proof.
  intros Hab Hn. unfold slice_indices. simpl.
  replace (Z.of_nat a <? 0) with false by (symmetry; apply Z.ltb_ge; lia).
  replace (Z.of_nat b <? 0) with false by (symmetry; apply Z.ltb_ge; lia).
  replace (Z.min (Z.of_nat a) n <? Z.min (Z.of_nat b) n) with false
    by (symmetry; apply Z.ltb_ge; lia).
  reflexivity.
Qed.

(** An empty slice [s[a:b]] with [b <= a] raises [IndexError] (the empty
    array reaches [_starts_ends[0, 0]]), and a slice with step [0] raises
    [ValueError], in both classes. *)
Theorem getitem_slice_errors {L} (se0 : se_array) (labs : list L) (sr : pynum) s :
  SequenceLabels__init__ se0 labs sr = inr s ->
  (forall a b : nat, (b <= a)%nat ->
     SequenceLabels__getitem__ s (ISlice (Some (Z.of_nat a)) (Some (Z.of_nat b)) None) = inl IndexError /\
     ContiguousSequenceLabels__getitem__ s (ISlice (Some (Z.of_nat a)) (Some (Z.of_nat b)) None) = inl IndexError) /\
  (forall start stop,
     SequenceLabels__getitem__ s (ISlice start stop (Some 0)) = inl ValueError /\
     ContiguousSequenceLabels__getitem__ s (ISlice start stop (Some 0)) = inl ValueError).
Proof.
  intro H. destruct (init_spec se0 labs sr s H) as (_ & Hsr & _ & Ho & _).
  split.
  - intros a b Hab.
    unfold SequenceLabels__getitem__, ContiguousSequenceLabels__getitem__, getitem_parts, np_getitem.
    rewrite !slice_empty by lia. simpl.
    unfold ContiguousSequenceLabels__init__nd, SequenceLabels__init__nd. simpl.
    rewrite Ho, Hsr. split; reflexivity.
  - intros start stop. split; reflexivity.
Qed.

(** On a [ContiguousSequenceLabels], an in-range integer index and a
    non-empty slice with step 1 succeed, and give the same instance as the
    parent's [__getitem__]: such a selection stays contiguous. *)
Theorem contiguous_getitem {L} (se0 : se_array) (labs : list L) (sr : pynum) s :
  ContiguousSequenceLabels__init__ se0 labs sr = inr s ->
  let n := Z.of_nat (SequenceLabels__len__ s) in
  (forall i, let k := if i <? 0 then i + n else i in 0 <= k < n ->
     exists s1, SequenceLabels__getitem__ s (IInt i) = inr s1 /\
                ContiguousSequenceLabels__getitem__ s (IInt i) = inr s1) /\
  (forall a b : nat, (a < b)%nat -> Z.of_nat b <= n ->
     exists s1,
       SequenceLabels__getitem__ s (ISlice (Some (Z.of_nat a)) (Some (Z.of_nat b)) None) = inr s1 /\
       ContiguousSequenceLabels__getitem__ s (ISlice (Some (Z.of_nat a)) (Some (Z.of_nat b)) None) = inr s1).
Proof.
  intros HC. destruct (contiguous_constructed se0 labs sr s HC) as [H Hc].
  assert (Hn : SequenceLabels__len__ s = length (_starts_ends s)) by apply (len_stored se0 labs sr s H).
  destruct (init_spec se0 labs sr s H) as (_ & _ & _ & Ho & _ & _ & _ & _ & Hl).
  rewrite Hn. intro n. split.
  - intros i k Hk.
    destruct (proj1 (getitem_single se0 labs sr s i H)) as [p [l [Ep [El E]]]].
    { exact Hk. }
    exists (mkSL [p] [l] sr sr (fst p)). split; [exact E|].
    unfold SequenceLabels__getitem__ in E. unfold ContiguousSequenceLabels__getitem__.
    destruct (getitem_parts s (IInt i)) as [e|[se l']]; [discriminate|].
    apply (contig_nd_of_base _ _ _ _ E). intros j Hj. simpl in Hj. lia.
  - intros a b Hab Hb. unfold n in Hb.
    assert (E := getitem_window se0 labs sr s a b H Hab ltac:(lia)).
    eexists. split; [exact E|].
    unfold SequenceLabels__getitem__ in E. unfold ContiguousSequenceLabels__getitem__.
    rewrite getitem_parts_slice in E |- * by (try exact Hl; lia).
    apply (contig_nd_of_base _ _ _ _ E). simpl.
    apply window_contiguous. exact Hc.
Qed.


(** [labels_at] of both classes with a non-positive [samplerate] raises
    [ValueError] before anything else, and leaves the instance unchanged. *)
Theorem labels_at_bad_samplerate {L} `{NpDtype L} {D} (q : query) (r : pynum)
    (dl : D) (dp : default_policy L D) (rounded : nat) (s : SequenceLabels L) :
  (pyq r <= 0)%Q ->
  labels_at q (Some r) dl rounded s = (s, inl ValueError) /\
  c_labels_at q (Some r) dp rounded s = (s, inl ValueError).
Proof.
  intro Hr.
  assert (E : py_le r (PInt 0) = true) by (apply py_le_spec; exact Hr).
  unfold labels_at, c_labels_at, bind. rewrite !samplerate_as_eq. cbv zeta. rewrite E.
  split; reflexivity.
Qed.

Lemma py_eq_homog_eq (x y : pynum) :
  is_int x = is_int y -> py_eq x y = true -> x = y.
Proof.
  intros Ht E. apply py_eq_spec in E.
  destruct x as [a|a], y as [b|b]; try discriminate; cbn [pyq] in E.
  - f_equal. exact (proj1 (inject_Z_injective a b) E).
  - f_equal. apply Qc_is_canon. exact E.
Qed.

Lemma not_flat_cons2 (a b c d : pynum) (r : se_array) :
  not_flat ((a, b) :: (c, d) :: r) = negb (py_eq c b) || not_flat ((c, d) :: r).
Proof. reflexivity. Qed.

Lemma homog_cons2 (a b c d : pynum) (r : se_array) :
  homog ((a, b) :: (c, d) :: r) -> is_int b = is_int c /\ homog ((c, d) :: r).
Proof.
  intros [Hf|Hf]; inversion Hf as [|? ? [Ha Hb] Hf2]; subst;
    inversion Hf2 as [|? ? [Hc Hd] Hf3]; subst; simpl in *.
  - split; [congruence|left; exact Hf2].
  - split; [congruence|right; exact Hf2].
Qed.

Lemma last_default {A} (x : A) (l : list A) (d d' : A) :
  last (x :: l) d = last (x :: l) d'.
Proof.
  revert x. induction l as [|y l IH]; intro x; [reflexivity|].
  change (last (y :: l) d = last (y :: l) d'). apply IH.
Qed.

Lemma flat_pairs_bins (a b : pynum) (rest : se_array) :
  homog ((a, b) :: rest) -> not_flat ((a, b) :: rest) = false ->
  let bins := starts_of ((a, b) :: rest) ++ [snd (last ((a, b) :: rest) (a, b))] in
  (a, b) :: rest = combine (removelast bins) (tl bins).
Proof.
  revert a b. induction rest as [|[c d] r IH]; intros a b Hh Hf; [reflexivity|].
  rewrite not_flat_cons2 in Hf. apply orb_false_iff in Hf. destruct Hf as [Hcb Hf].
  destruct (homog_cons2 a b c d r Hh) as [Ht Hh'].
  apply negb_false_iff in Hcb.
  assert (Ebc : c = b) by (apply py_eq_homog_eq; [congruence|exact Hcb]).
  specialize (IH c d Hh' Hf). cbv zeta in IH |- *.
  rewrite (last_default (a, b) ((c, d) :: r) (a, b) (c, d)).
  change (last ((a, b) :: (c, d) :: r) (c, d)) with (last ((c, d) :: r) (c, d)).
  set (Y := starts_of ((c, d) :: r) ++ [snd (last ((c, d) :: r) (c, d))]) in *.
  change (starts_of ((a, b) :: (c, d) :: r)) with (a :: starts_of ((c, d) :: r)).
  change ((a :: starts_of ((c, d) :: r)) ++ [snd (last ((c, d) :: r) (c, d))]) with (a :: Y).
  assert (HY : Y = c :: tl Y) by reflexivity.
  rewrite HY at 1.
  change (removelast (a :: c :: tl Y)) with (a :: removelast (c :: tl Y)).
  rewrite <- HY. change (tl (a :: Y)) with Y. rewrite HY at 2.
  cbn [combine]. rewrite <- IH. rewrite Ebc. reflexivity.
Qed.

Lemma rev_last_cons {A} (l : list A) (d : A) :
  l <> [] -> rev l = last l d :: rev (removelast l).
Proof.
  intro Hn. rewrite (app_removelast_last d Hn) at 1.
  rewrite rev_app_distr. reflexivity.
Qed.

(** On a constructed instance, [_flattened_indices(return_bins=False)]
    returns the consecutive pairs of the breakpoints that
    [return_bins=True] returns, with the same label indices, and neither
    call changes the instance. *)
Theorem flattened_pairs_of_bins {L} (se0 : se_array) (labs : list L) (sr : pynum) s :
  SequenceLabels__init__ se0 labs sr = inr s ->
  exists (bins : list pynum) tags,
    _flattened_indices true s = (s, inr ((bins : flat_out true), tags)) /\
    _flattened_indices false s =
      (s, inr ((combine (removelast bins) (tl bins) : flat_out false), tags)).
Proof.
  intro H. unfold _flattened_indices, bind.
  rewrite (starts_ends_fresh se0 labs sr s H).
  set (se := _starts_ends s).
  destruct (not_flat se) eqn:Ef.
  - destruct (general_props se) as [li [E _]].
    unfold lift. rewrite E.
    exists (np_unique py_le py_eq (se_flat se)), li. split; reflexivity.
  - destruct (init_spec se0 labs sr s H)
      as (_ & _ & _ & _ & _ & (s0 & e0 & rest & Hse & _) & _).
    fold se in Hse.
    assert (Hh : homog se) by apply (stored_homog se0 labs sr s H).
    rewrite (rev_last_cons se (s0, e0)) by (rewrite Hse; discriminate).
    rewrite Hse in Hh, Ef |- *.
    pose proof (flat_pairs_bins s0 e0 rest Hh Ef) as Hb. cbv zeta in Hb.
    destruct (last ((s0, e0) :: rest) (s0, e0)) as [x e_last] eqn:El.
    exists (starts_of ((s0, e0) :: rest) ++ [e_last]),
           (map (fun i => [i]) (seq 0 (length ((s0, e0) :: rest)))).
    split; [reflexivity|]. simpl snd in Hb. rewrite <- Hb. reflexivity.
Qed.

Lemma convert_se_scaled (se : se_array) (a b : pynum) :
  (0 < pyq a)%Q -> (0 < pyq b)%Q ->
  exists se', _convert_samplerate se a b = inr se' /\ length se' = length se /\
    forall k d, (k < length se)%nat ->
      (pyq (fst (nth k se' d)) == pyq (fst (nth k se d)) * (pyq b / pyq a))%Q /\
      (pyq (snd (nth k se' d)) == pyq (snd (nth k se d)) * (pyq b / pyq a))%Q.
Proof.
  intros Ha Hb.
  assert (Hn : (py_le b (PInt 0) || py_le a (PInt 0)) = false).
  { apply orb_false_iff. split; apply not_true_iff_false;
      rewrite py_le_spec; change (pyq (PInt 0)) with 0%Q; lra. }
  assert (Ha0 : ~ (pyq a == 0)%Q) by (intro E; rewrite E in Ha; discriminate).
  assert (Hscale : forall f, (pyq f == pyq b / pyq a)%Q ->
    exists se', (inr (vmul se f) : result se_array) = inr se' /\ length se' = length se /\
    forall k d, (k < length se)%nat ->
      (pyq (fst (nth k se' d)) == pyq (fst (nth k se d)) * (pyq b / pyq a))%Q /\
      (pyq (snd (nth k se' d)) == pyq (snd (nth k se d)) * (pyq b / pyq a))%Q).
  { intros f Hf. eexists. split; [reflexivity|].
    unfold vmul, Scalable_se. rewrite length_map. split; [reflexivity|].
    intros k d Hk.
    rewrite (nth_map_d _ se d d k Hk). destruct (nth k se d) as [x y].
    cbn [fst snd]. rewrite !pyq_mul, Hf. split; reflexivity. }
  unfold _convert_samplerate. rewrite Hn.
  destruct (py_eq b a) eqn:E.
  - apply py_eq_spec in E. exists se. split; [reflexivity|]. split; [reflexivity|].
    intros k d _. rewrite E. split; field; exact Ha0.
  - destruct (py_lt a b && py_eq (py_mod b a) (PInt 0)) eqn:Em.
    + apply Hscale. rewrite pyq_floordiv.
      apply andb_true_iff in Em. destruct Em as [_ Em].
      apply py_eq_spec in Em. rewrite pyq_mod in Em by exact Ha0.
      change (pyq (PInt 0)) with 0%Q in Em.
      assert (Hm : (inject_Z (Qfloor (pyq b / pyq a)) * pyq a == pyq b)%Q) by lra.
      rewrite <- Hm at 2. field. exact Ha0.
    + apply Hscale. unfold py_truediv. rewrite pyq_mkfloat. reflexivity.
Qed.

Lemma starts_ends_at_rate {L} (se0 : se_array) (labs : list L) (sr : pynum) s (r : pynum) :
  SequenceLabels__init__ se0 labs sr = inr s ->
  starts_ends (set_sr r s) = (set_sr r s, _convert_samplerate (_starts_ends s) sr r).
Proof.
  intro H. destruct (init_spec se0 labs sr s H)
    as (_ & Hsr & _ & Ho & Hs & (s0 & e0 & rest & Hse & Hm) & _ & _).
  destruct s as [se ls osr sr0 ms]. simpl in *. subst.
  unfold starts_ends, bind, gets, ret, lift. simpl.
  replace (py_eq s0 s0) with true by (symmetry; apply py_eq_spec; reflexivity).
  reflexivity.
Qed.


Lemma seg_le_leq (x y : pynum * pynum) : seg_le x y = true -> seg_leq x y.
Proof.
  destruct x as [a b], y as [c e]. unfold seg_leq. simpl. intro H.
  apply orb_true_iff in H. destruct H as [H|H].
  - left. apply py_lt_spec. exact H.
  - apply andb_true_iff in H. destruct H as [H1 H2]. right.
    split; [apply py_eq_spec; exact H1|apply py_le_spec; exact H2].
Qed.

Lemma seg_leq_trans (x y z : pynum * pynum) : seg_leq x y -> seg_leq y z -> seg_leq x z.
Proof. unfold seg_leq. intros [H1|[H1 H1']] [H2|[H2 H2']]; lra. Qed.

Lemma seg_leq_refl (x : pynum * pynum) : seg_leq x x.
Proof. unfold seg_leq. right. split; lra. Qed.

Lemma strongly_sorted_last {A} (R : A -> A -> Prop) (l : list A) (p d : A) :
  StronglySorted R l -> In p l -> p = last l d \/ R p (last l d).
Proof.
  induction 1 as [|x l Hs IH Hall]; intro Hp; [destruct Hp|].
  destruct l as [|y l].
  - destruct Hp as [<-|[]]. left. reflexivity.
  - change (last (x :: y :: l) d) with (last (y :: l) d).
    destruct Hp as [<-|Hp]; [|apply IH; exact Hp].
    right. rewrite Forall_forall in Hall. apply Hall. apply last_in. discriminate.
Qed.

(** [max_end] is the end of the last stored segment: the segment with the
    largest start, and the largest end among those with that start. *)
Theorem max_end_last_segment {L} (se0 : se_array) (labs : list L) (sr : pynum) s :
  SequenceLabels__init__ se0 labs sr = inr s ->
  exists x e, last (_starts_ends s) (PInt 0, PInt 0) = (x, e) /\
    max_end s = (s, inr e) /\
    forall p, In p (_starts_ends s) ->
      (pyq (fst p) < pyq x \/ (pyq (fst p) == pyq x /\ pyq (snd p) <= pyq e))%Q.
Proof.
  intro H.
  destruct (init_spec se0 labs sr s H)
    as (_ & _ & _ & _ & _ & (s0 & e0 & rest & Hse & _) & Hsort & _).
  assert (Hn : _starts_ends s <> []) by (rewrite Hse; discriminate).
  destruct (last (_starts_ends s) (PInt 0, PInt 0)) as [x e] eqn:El.
  exists x, e. split; [reflexivity|]. split.
  - unfold max_end, bind. rewrite (starts_ends_fresh se0 labs sr s H).
    rewrite (rev_last_cons _ (PInt 0, PInt 0) Hn), El. reflexivity.
  - intros p Hp.
    assert (Hs : StronglySorted seg_leq (_starts_ends s)).
    { apply Sorted_StronglySorted; [exact seg_leq_trans|].
      clear Hp El Hn Hse. induction Hsort as [|a l _ IH Hh]; constructor; [exact IH|].
      destruct Hh as [|b l Hb]; constructor. apply seg_le_leq. exact Hb. }
    destruct (strongly_sorted_last seg_leq _ p (PInt 0, PInt 0) Hs Hp) as [E|E];
      rewrite El in E; [subst p; apply (seg_leq_refl (x, e))|exact E].
Qed.

(** ** Witnesses of the properties above *)





Lemma len_after_init_witness :
  exists s, SequenceLabels__init__ [(PInt 2, PInt 3); (PInt 0, PInt 1)] [1; 2]%Z (PInt 1) = inr s /\
    SequenceLabels__len__ s = 2%nat /\ SequenceLabels__len__ s = 2%nat.
Proof.
  destruct (SequenceLabels__init__ [(PInt 2, PInt 3); (PInt 0, PInt 1)] [1; 2]%Z (PInt 1))
    as [e|s] eqn:E; [vm_compute in E; discriminate E|].
  exists s. split; [reflexivity|]. exact (len_after_init _ _ _ _ E).
Defined.

Lemma getitem_int_segment_witness :
  exists s, SequenceLabels__init__
    [(PInt 0, PInt 1); (PInt 1, PInt 3); (PInt 3, PInt 4); (PInt 4, PInt 6)] [1; 0; 2; 1]%Z
    (PInt 1) = inr s /\
    (exists p l, nth_error (_starts_ends s) 3 = Some p /\ nth_error (labels s) 3 = Some l /\
       SequenceLabels__getitem__ s (IInt (-1)) = inr (mkSL [p] [l] (PInt 1) (PInt 1) (fst p))) /\
    SequenceLabels__getitem__ s (IInt 4) = inl IndexError.
Proof.
  destruct (SequenceLabels__init__
    [(PInt 0, PInt 1); (PInt 1, PInt 3); (PInt 3, PInt 4); (PInt 4, PInt 6)] [1; 0; 2; 1]%Z
    (PInt 1)) as [e|s] eqn:E; [vm_compute in E; discriminate E|].
  exists s. split; [reflexivity|].
  pose proof (getitem_int_segment _ _ _ _ (-1) E) as [G1 _].
  pose proof (getitem_int_segment _ _ _ _ 4 E) as [_ G2].
  vm_compute in E. injection E as <-.
  split.
  - apply G1. vm_compute. split; [intro Hc; discriminate Hc|reflexivity].
  - apply G2. vm_compute. intros [_ Hc]. discriminate Hc.
Defined.

Lemma getitem_slice_window_witness :
  exists s, SequenceLabels__init__
    [(PInt 0, PInt 1); (PInt 1, PInt 3); (PInt 3, PInt 4); (PInt 4, PInt 6)] [1; 0; 2; 1]%Z
    (PInt 1) = inr s /\
    SequenceLabels__getitem__ s (ISlice (Some 1) (Some 3) None) =
    inr (mkSL (firstn 2 (skipn 1 (_starts_ends s))) (firstn 2 (skipn 1 (labels s)))
              (PInt 1) (PInt 1) (fst (nth 1 (_starts_ends s) (PInt 0, PInt 0)))).
Proof.
  destruct (SequenceLabels__init__
    [(PInt 0, PInt 1); (PInt 1, PInt 3); (PInt 3, PInt 4); (PInt 4, PInt 6)] [1; 0; 2; 1]%Z
    (PInt 1)) as [e|s] eqn:E; [vm_compute in E; discriminate E|].
  exists s. split; [reflexivity|].
  pose proof (getitem_slice_window _ _ _ _ 1 3 E) as G.
  vm_compute in E. injection E as <-.
  apply G; [lia|vm_compute; lia].
Defined.

Lemma getitem_slice_errors_witness :
  exists s, SequenceLabels__init__
    [(PInt 0, PInt 1); (PInt 1, PInt 3); (PInt 3, PInt 4); (PInt 4, PInt 6)] [1; 0; 2; 1]%Z
    (PInt 1) = inr s /\
    SequenceLabels__getitem__ s (ISlice (Some 3) (Some 1) None) = inl IndexError /\
    ContiguousSequenceLabels__getitem__ s (ISlice (Some 3) (Some 1) None) = inl IndexError /\
    SequenceLabels__getitem__ s (ISlice None None (Some 0)) = inl ValueError.
Proof.
  destruct (SequenceLabels__init__
    [(PInt 0, PInt 1); (PInt 1, PInt 3); (PInt 3, PInt 4); (PInt 4, PInt 6)] [1; 0; 2; 1]%Z
    (PInt 1)) as [e|s] eqn:E; [vm_compute in E; discriminate E|].
  exists s. split; [reflexivity|].
  destruct (getitem_slice_errors _ _ _ _ E) as [G1 G2].
  destruct (G1 3%nat 1%nat ltac:(lia)) as [H1 H2].
  split; [exact H1|]. split; [exact H2|]. exact (proj1 (G2 None None)).
Defined.

Lemma contiguous_getitem_witness :
  exists s, ContiguousSequenceLabels__init__
    [(PInt 0, PInt 1); (PInt 1, PInt 3); (PInt 3, PInt 4); (PInt 4, PInt 6)] [1; 0; 2; 1]%Z
    (PInt 1) = inr s /\
    (exists s1, SequenceLabels__getitem__ s (IInt (-1)) = inr s1 /\
                ContiguousSequenceLabels__getitem__ s (IInt (-1)) = inr s1) /\
    (exists s1, SequenceLabels__getitem__ s (ISlice (Some 1) (Some 4) None) = inr s1 /\
                ContiguousSequenceLabels__getitem__ s (ISlice (Some 1) (Some 4) None) = inr s1).
Proof.
  destruct (ContiguousSequenceLabels__init__
    [(PInt 0, PInt 1); (PInt 1, PInt 3); (PInt 3, PInt 4); (PInt 4, PInt 6)] [1; 0; 2; 1]%Z
    (PInt 1)) as [e|s] eqn:E; [vm_compute in E; discriminate E|].
  exists s. split; [reflexivity|].
  destruct (contiguous_getitem _ _ _ _ E) as [G1 G2].
  vm_compute in E. injection E as <-.
  split.
  - apply G1. vm_compute. split; [intro Hc; discriminate Hc|reflexivity].
  - apply (G2 1%nat 4%nat); [lia|vm_compute; intro Hc; discriminate Hc].
Defined.

Lemma labels_at_bad_samplerate_witness :
  labels_at (QIterable [PInt 0]) (Some (PInt 0)) tt 10
    (mkSL [(PInt 0, PInt 1)] [1%Z] (PInt 1) (PInt 1) (PInt 0)) =
    (mkSL [(PInt 0, PInt 1)] [1%Z] (PInt 1) (PInt 1) (PInt 0), inl ValueError) /\
  c_labels_at (QIterable [PInt 0]) (Some (PInt 0)) (@DZeros Z unit) 10
    (mkSL [(PInt 0, PInt 1)] [1%Z] (PInt 1) (PInt 1) (PInt 0)) =
    (mkSL [(PInt 0, PInt 1)] [1%Z] (PInt 1) (PInt 1) (PInt 0), inl ValueError).
Proof. apply labels_at_bad_samplerate. vm_compute. intro Hc; discriminate Hc. Defined.

Lemma flattened_pairs_of_bins_witness :
  exists s, SequenceLabels__init__ [(PInt 0, PInt 2); (PInt 1, PInt 3)] [1; 2]%Z (PInt 1) = inr s /\
  exists (bins : list pynum) tags,
    _flattened_indices true s = (s, inr ((bins : flat_out true), tags)) /\
    _flattened_indices false s =
      (s, inr ((combine (removelast bins) (tl bins) : flat_out false), tags)).
Proof.
  destruct (SequenceLabels__init__ [(PInt 0, PInt 2); (PInt 1, PInt 3)] [1; 2]%Z (PInt 1))
    as [e|s] eqn:E; [vm_compute in E; discriminate E|].
  exists s. split; [reflexivity|]. exact (flattened_pairs_of_bins _ _ _ _ E).
Defined.


Lemma max_end_last_segment_witness :
  exists s, SequenceLabels__init__ [(PInt 1, PInt 2); (PInt 0, PInt 10)] [1; 2]%Z (PInt 1) = inr s /\
  exists x e, last (_starts_ends s) (PInt 0, PInt 0) = (x, e) /\
    max_end s = (s, inr e) /\
    forall p, In p (_starts_ends s) ->
      (pyq (fst p) < pyq x \/ (pyq (fst p) == pyq x /\ pyq (snd p) <= pyq e))%Q.
Proof.
  destruct (SequenceLabels__init__ [(PInt 1, PInt 2); (PInt 0, PInt 10)] [1; 2]%Z (PInt 1))
    as [e|s] eqn:E; [vm_compute in E; discriminate E|].
  exists s. split; [reflexivity|]. exact (max_end_last_segment _ _ _ _ E).
Defined.
